(** * Lark Wiki MCP agents: the reconciliation and correlation core

    A shallow embedding of
    - [WikiIndexManager] (wiki-index-manager.ts): topic crawl, pattern filter,
      de-duplication, shortcut reconciliation, statistics;
    - [LarkWikiMCPAgent] (agents/lark-wiki-mcp-agent.ts): the JSON-RPC request
      and response correlator ([sendMCPRequest], [handleMCPResponse]), and
      the command layer ([execute], [parseCommand], the controllers C1 to
      C5) over what awaiting a tool call gives;
    - the manager over that agent ([Wiring]), and the pattern filter over
      [RegExp] objects that keep [lastIndex] ([RegExps]).

    JavaScript values are modelled as the code uses them: a property that may
    be [undefined] is an [option]; [||] and [if (x)] follow JS truthiness; a
    [Map] that is iterated keeps its insertion order (an association list);
    a [Map] that is only looked up is a [gmap]; [async] functions run one at
    a time, so a call is a state transition that either returns or throws
    (in the command layer, a third outcome stands for a promise that is
    never settled). Texts are held as UTF-8. *)

From Stdlib Require Import String Ascii ZArith List Bool Lia.
From stdpp Require Import base option list gmap strings fin_maps.
Import ListNotations.
Local Open Scope string_scope.
Local Open Scope Z_scope.

(** ** JavaScript helpers *)

(** A string-valued property: [None] is [undefined]. *)
Definition JsStr : Type := option string.

(** JS truthiness of a string-or-undefined value: [undefined] and [''] are
    falsy. *)
Definition truthy (v : JsStr) : bool :=
  match v with
  | Some EmptyString => false
  | Some _ => true
  | None => false
  end.

(** [a || b] *)
Definition js_or (a b : JsStr) : JsStr := if truthy a then a else b.

(** [a || ''] used where a string is needed *)
Definition or_empty (a : JsStr) : string :=
  match js_or a (Some "") with Some s => s | None => "" end.

(** Lower-casing of the letters A to Z, for the test texts, which are
    ASCII. *)
Definition lower_ascii (c : ascii) : ascii :=
  let n := nat_of_ascii c in
  if (Nat.leb 65 n && Nat.leb n 90)%bool then ascii_of_nat (n + 32) else c.

Fixpoint ascii_toLowerCase (s : string) : string :=
  match s with
  | EmptyString => EmptyString
  | String c s' => String (lower_ascii c) (ascii_toLowerCase s')
  end.

(** ** Insertion-ordered maps (JS [Map] when it is iterated) *)

Module OMap.
Section defs.
Context {K V : Type} `{EqDecision K}.

Fixpoint get (k : K) (m : list (K * V)) : option V :=
  match m with
  | [] => None
  | (k', v) :: m' => if decide (k = k') then Some v else get k m'
  end.

Definition has (k : K) (m : list (K * V)) : bool :=
  match get k m with Some _ => true | None => false end.

(** [Map.prototype.set]: a present key keeps its position, a new key goes
    to the end. *)
Fixpoint set (k : K) (v : V) (m : list (K * V)) : list (K * V) :=
  match m with
  | [] => [(k, v)]
  | (k', v') :: m' =>
      if decide (k = k') then (k, v) :: m' else (k', v') :: set k v m'
  end.

Definition keys (m : list (K * V)) : list K := map fst m.
Definition values (m : list (K * V)) : list V := map snd m.
End defs.
End OMap.

(** ** Data model of wiki-index-manager.ts *)

Module WikiIndex.

(** A search hit ([any] in the source): the properties the manager reads. *)
Record Page := mkPage {
  node_token : JsStr;
  obj_token : JsStr;
  title : JsStr;
  content : JsStr;
  space_id : JsStr
}.

(** A child node as listed by [LIST_NODES]. *)
Record WikiNode := mkWikiNode {
  node_type : JsStr;
  origin_node_token : JsStr
}.

Record WikiInfo := mkWikiInfo {
  spaceId : string;
  spaceName : string;
  searchEnabled : bool
}.

Record ShortcutInfo := mkShortcutInfo {
  targetNodeToken : JsStr;
  targetTitle : JsStr;
  targetSpaceId : JsStr;
  indexNodeToken : string;
  topicId : string;
  createdAt : Z;
  matchedKeywords : list string
}.

(** What the filter takes from the JavaScript engine.
    [test] is [RegExp.prototype.test] for a pattern that is a regular
    expression without the [g] and [y] flags: for these [test] neither reads
    nor writes [lastIndex], and is a function of the text alone. Patterns
    with these flags, and pattern values that are no regular expressions,
    are the matter of the module [RegExps] below, which has [lastIndex].
    [toLowerCase] is [String.prototype.toLowerCase], whatever it does to
    the letters of the text. *)
Class RegExpOps (Pattern : Type) := {
  test : Pattern -> string -> bool;
  toLowerCase : string -> string
}.

Section topics.
Context {Pattern : Type} `{RegExpOps Pattern}.

(** An absent pattern list is [None]; an empty array is present (truthy). *)
Record Topic := mkTopic {
  id : string;
  name : string;
  keywords : list string;
  includePatterns : option (list Pattern);
  excludePatterns : option (list Pattern);
  priority : option Z
}.

Record IndexPage := mkIndexPage {
  nodeToken : string;
  ip_spaceId : string;
  ip_title : string;
  topics : list Topic;
  autoUpdate : bool
}.

(** The text a pattern is tested on. *)
Definition page_text (result : Page) : string :=
  toLowerCase (or_empty (title result) ++ " " ++ or_empty (content result))%string.

(** The callback of [results.filter] in [filterResults]. *)
Definition accepts (topic : Topic) (result : Page) : bool :=
  let text := page_text result in
  if match excludePatterns topic with
     | Some pats => existsb (fun pattern => test pattern text) pats
     | None => false
     end
  then false
  else
    match includePatterns topic with
    | Some pats => existsb (fun pattern => test pattern text) pats
    | None => true
    end.

Definition filterResults (results : list Page) (topic : Topic) : list Page :=
  List.filter (accepts topic) results.
End topics.

Arguments Topic : clear implicits.
Arguments IndexPage : clear implicits.

(** The canonical identity of a hit: [page.node_token || page.obj_token]. *)
Definition page_key (page : Page) : JsStr :=
  js_or (node_token page) (obj_token page).

(** One iteration of the loop of [removeDuplicates]. *)
Definition seen_step (seen : list (JsStr * Page)) (page : Page) : list (JsStr * Page) :=
  let key := page_key page in
  if (truthy key && negb (OMap.has key seen))%bool
  then OMap.set key page seen
  else seen.

Definition removeDuplicates (pages : list Page) : list Page :=
  OMap.values (fold_left seen_step pages []).

(** The first of [pages], in their order, whose identity is [key]. *)
Definition first_with_key (key : JsStr) (pages : list Page) : option Page :=
  find (fun q => bool_decide (page_key q = key)) pages.

(** ** The agent as the manager sees it

    [WikiIndexManager] is constructed over an agent and reaches the remote
    service only through [executeC1_WikiSpace], [executeC2_NodeManagement]
    and [executeC4_ContentOperations]. Each awaited call either returns or
    throws, and may change the state [R] behind the agent; a call that
    never settles is outside this interface (see [call]). *)

Inductive Outcome (A : Type) : Type :=
  | Returned (a : A)
  | Thrown (e : string).
Arguments Returned {A} a.
Arguments Thrown {A} e.

Class AgentOps (R : Type) := {
  (** [GET_SPACE_INFO {space_id}]: the [name] property of the answer. *)
  GET_SPACE_INFO : string -> R -> Outcome JsStr * R;
  (** [GET_NODE_INFO {node_token}]: whether the answer is truthy. *)
  GET_NODE_INFO : string -> R -> Outcome bool * R;
  (** [LIST_NODES {parent_node_token, page_size}]: the [items] property. *)
  LIST_NODES : string -> Z -> R -> Outcome (option (list WikiNode)) * R;
  (** [SEARCH_WIKI {space_id, query}]: the [items] property. *)
  SEARCH_WIKI : string -> string -> R -> Outcome (option (list Page)) * R;
  (** [CREATE_NODE {parent_node_token, node_type: 'shortcut',
      origin_node_token, origin_space_id}]: the [node_token] property. *)
  CREATE_NODE : string -> JsStr -> JsStr -> R -> Outcome JsStr * R
}.

(** What the manager writes to the console. *)
Inductive LogEntry : Type :=
  | LogRegisteringWiki (space : string)
  | LogRegisteredWiki (nm : JsStr)
  | LogRegisterWikiFailed (space : string) (e : string)
  | LogRegisteringIndex (ttl : string)
  | LogRegisteredIndex (ttl : string)
  | LogCollecting (topic : string)
  | LogSearchingIn (wiki : string)
  | LogFound (n : Z) (keyword : string)
  | LogSearchError (keyword : string) (e : string)
  | LogTotalUnique (n : Z)
  | LogCreating (target : JsStr) (index : string)
  | LogCreated (node : JsStr)
  | LogCreateFailed (e : string)
  | LogUpdating (ttl : string)
  | LogProcessingTopic (topic : string)
  | LogItemFailed (ttl : JsStr) (e : string)
  | LogTopicDone (topic : string) (created skipped : Z)
  | LogUpdateCompleted (ttl : string)
  | LogAdding (target : string) (n : Z)
  | LogAddFailed (index : string) (e : string).

Record Statistics := mkStatistics {
  totalWikis : Z;
  totalIndexPages : Z;
  totalShortcuts : Z;
  shortcutsByTopic : list (string * Z);
  duplicatePages : list JsStr
}.

Section manager.
Context {Pattern : Type} `{RegExpOps Pattern} {R : Type} `{AgentOps R}.

(** The fields of a [WikiIndexManager]. *)
Record Manager := mkManager {
  wikis : list WikiInfo;
  indexPages : gmap string (IndexPage Pattern);
  shortcuts : list (JsStr * list ShortcutInfo);
  searchCache : gmap string (list Page)
}.

(** The manager, the state behind its agent, the console and the clock
    ([Date] and [setTimeout], in milliseconds; only [delay] moves it). *)
Record World := mkWorld {
  agent : R;
  mgr : Manager;
  console : list LogEntry;
  clock : Z
}.

Definition newManager (r : R) : World :=
  {| agent := r;
     mgr := {| wikis := []; indexPages := ∅; shortcuts := []; searchCache := ∅ |};
     console := [];
     clock := 0 |}.

(** *** Sequential code with exceptions over the world *)

Definition M (A : Type) : Type := World -> Outcome A * World.

Definition ret {A} (a : A) : M A := fun w => (Returned a, w).

Definition bind {A B} (m : M A) (k : A -> M B) : M B :=
  fun w =>
    match m w with
    | (Returned a, w') => k a w'
    | (Thrown e, w') => (Thrown e, w')
    end.

Definition throw {A} (e : string) : M A := fun w => (Thrown e, w).

(** [try { m } catch (e) { handler e }]: what [m] did before it threw
    stays done. *)
Definition try_catch {A} (m : M A) (handler : string -> M A) : M A :=
  fun w =>
    match m w with
    | (Returned a, w') => (Returned a, w')
    | (Thrown e, w') => handler e w'
    end.

Definition this : M Manager := fun w => (Returned (mgr w), w).

Definition set_this (f : Manager -> Manager) : M unit :=
  fun w => (Returned tt,
            {| agent := agent w; mgr := f (mgr w); console := console w; clock := clock w |}).

Definition log (entry : LogEntry) : M unit :=
  fun w => (Returned tt,
            {| agent := agent w; mgr := mgr w; console := (console w ++ [entry])%list; clock := clock w |}).

(** [new Date()] *)
Definition now : M Z := fun w => (Returned (clock w), w).

(** [await this.delay(ms)] *)
Definition delay (ms : Z) : M unit :=
  fun w => (Returned tt,
            {| agent := agent w; mgr := mgr w; console := console w; clock := clock w + ms |}).

(** [await this.agent.execute...(...)]. The awaited call returns or throws:
    a call whose promise is never settled (a request the server leaves
    without a response, see [Commands.Unfinished]) has no outcome here, and
    the manager would wait at that call for ever. What is proved of the
    manager's methods is proved of the runs in which every call of the
    agent settles. *)
Definition call {A} (op : R -> Outcome A * R) : M A :=
  fun w =>
    let '(o, r') := op (agent w) in
    (o, {| agent := r'; mgr := mgr w; console := console w; clock := clock w |}).
End manager.

Arguments Manager : clear implicits.
Arguments World : clear implicits.
Arguments M : clear implicits.

Declare Scope js_scope.
Delimit Scope js_scope with js.
Notation "'let*' x ':=' m 'in' k" := (bind m (fun x => k))
  (at level 10, x name, m at level 100, k at level 200) : js_scope.
Notation "m ';;' k" := (bind m (fun _ => k))
  (at level 100, k at level 200, right associativity) : js_scope.
Local Open Scope js_scope.

Section operations.
Context {Pattern : Type} `{RegExpOps Pattern} {R : Type} `{AgentOps R}.
Local Abbreviation M := (M Pattern R).
Local Abbreviation Manager := (Manager Pattern).
Local Abbreviation Topic := (Topic Pattern).
Local Abbreviation IndexPage := (IndexPage Pattern).

(** [for (const x of xs) { acc = body(acc, x) }] with the loop's local
    variables in [acc]. *)
Fixpoint for_of {X S} (xs : list X) (acc : S) (body : S -> X -> M S) : M S :=
  match xs with
  | [] => ret acc
  | x :: xs' => let* acc' := body acc x in for_of xs' acc' body
  end.

Definition registerWiki (space : string) (enabled : bool) : M unit :=
  log (LogRegisteringWiki space);;
  try_catch
    (let* nm := call (GET_SPACE_INFO space) in
     set_this (fun m =>
       {| wikis := (wikis m ++ [ {| spaceId := space;
                                   spaceName := or_empty (js_or nm (Some space));
                                   searchEnabled := enabled |} ])%list;
          indexPages := indexPages m;
          shortcuts := shortcuts m;
          searchCache := searchCache m |});;
     log (LogRegisteredWiki nm))
    (fun e => log (LogRegisterWikiFailed space e);; throw e).

Definition registerIndexPage (config : IndexPage) : M unit :=
  log (LogRegisteringIndex (ip_title config));;
  let* nodeInfo := call (GET_NODE_INFO (nodeToken config)) in
  if negb nodeInfo
  then throw ("Index page not found: " ++ nodeToken config)%string
  else
    set_this (fun m =>
      {| wikis := wikis m;
         indexPages := <[nodeToken config := config]> (indexPages m);
         shortcuts := shortcuts m;
         searchCache := searchCache m |});;
    log (LogRegisteredIndex (ip_title config)).

Definition cacheKey (space keyword : string) : string :=
  (space ++ "-" ++ keyword)%string.

Definition searchWiki (space keyword : string) : M (list Page) :=
  let* m := this in
  match searchCache m !! cacheKey space keyword with
  | Some items => ret items
  | None =>
      let* results := call (SEARCH_WIKI space keyword) in
      let items := match results with Some l => l | None => [] end in
      set_this (fun m =>
        {| wikis := wikis m;
           indexPages := indexPages m;
           shortcuts := shortcuts m;
           searchCache := <[cacheKey space keyword := items]> (searchCache m) |});;
      ret items
  end.

(** The two nested loops of [collectTopicPages]; [allPages] is the local
    array they fill. *)
Definition gather_keyword (topic : Topic) (wiki : WikiInfo)
    (allPages : list Page) (keyword : string) : M (list Page) :=
  try_catch
    (let* searchResults := searchWiki (spaceId wiki) keyword in
     let filteredResults := filterResults searchResults topic in
     log (LogFound (Z.of_nat (length filteredResults)) keyword);;
     ret (allPages ++ filteredResults)%list)
    (fun e => log (LogSearchError keyword e);; ret allPages).

Definition gather_wiki (topic : Topic) (allPages : list Page) (wiki : WikiInfo)
    : M (list Page) :=
  if negb (searchEnabled wiki) then ret allPages
  else
    log (LogSearchingIn (spaceName wiki));;
    for_of (keywords topic) allPages (gather_keyword topic wiki).

Definition gatherTopicPages (topic : Topic) : M (list Page) :=
  let* m := this in
  for_of (wikis m) [] (gather_wiki topic).

Definition collectTopicPages (topic : Topic) : M (list Page) :=
  log (LogCollecting (name topic));;
  let* allPages := gatherTopicPages topic in
  let uniquePages := removeDuplicates allPages in
  log (LogTotalUnique (Z.of_nat (length uniquePages)));;
  ret uniquePages.

Definition createShortcut (index : string) (target space : JsStr) : M JsStr :=
  log (LogCreating target index);;
  try_catch
    (let* result := call (CREATE_NODE index target space) in
     log (LogCreated result);;
     ret result)
    (fun e => log (LogCreateFailed e);; throw e).

Definition getExistingShortcuts (parent : string) : M (list WikiNode) :=
  let* result := call (LIST_NODES parent 500) in
  let items := match result with Some l => l | None => [] end in
  ret (List.filter (fun item => bool_decide (node_type item = Some "shortcut")) items).

(** [this.shortcuts.get(target)!.push(info)], after the entry is made. *)
Definition push_shortcut (target : JsStr) (info : ShortcutInfo)
    (sc : list (JsStr * list ShortcutInfo)) : list (JsStr * list ShortcutInfo) :=
  let sc1 := if OMap.has target sc then sc else OMap.set target [] sc in
  match OMap.get target sc1 with
  | Some infos => OMap.set target (infos ++ [info])%list sc1
  | None => sc1
  end.

(** The body of the page loop of [updateIndexPage]; the counters
    [created] and [skipped] are the loop's local variables. *)
Definition process_page (index : string) (indexPage : IndexPage)
    (existingTokens : list JsStr) (topic : Topic)
    (counters : Z * Z) (page : Page) : M (Z * Z) :=
  let '(created, skipped) := counters in
  let targetToken := page_key page in
  if bool_decide (targetToken ∈ existingTokens)
  then ret (created, skipped + 1)
  else
    try_catch
      (createShortcut index targetToken
         (js_or (space_id page) (Some (ip_spaceId indexPage)));;
       let* date := now in
       let shortcutInfo :=
         {| targetNodeToken := targetToken;
            targetTitle := title page;
            targetSpaceId := js_or (space_id page) (Some (ip_spaceId indexPage));
            indexNodeToken := index;
            topicId := id topic;
            createdAt := date;
            matchedKeywords := keywords topic |} in
       set_this (fun m =>
         {| wikis := wikis m;
            indexPages := indexPages m;
            shortcuts := push_shortcut targetToken shortcutInfo (shortcuts m);
            searchCache := searchCache m |});;
       delay 500;;
       ret (created + 1, skipped))
      (fun e => log (LogItemFailed (title page) e);; ret (created, skipped)).

(** The body of the topic loop of [updateIndexPage]. *)
Definition process_topic (index : string) (indexPage : IndexPage)
    (existingTokens : list JsStr) (_ : unit) (topic : Topic) : M unit :=
  log (LogProcessingTopic (name topic));;
  let* pages := collectTopicPages topic in
  let* counters :=
    for_of pages (0, 0) (process_page index indexPage existingTokens topic) in
  log (LogTopicDone (name topic) (fst counters) (snd counters)).

Definition updateIndexPage (index : string) : M unit :=
  let* m := this in
  match indexPages m !! index with
  | None => throw ("Index page not found: " ++ index)%string
  | Some indexPage =>
      log (LogUpdating (ip_title indexPage));;
      let* existingNodes := getExistingShortcuts index in
      let existingTokens := map origin_node_token existingNodes in
      for_of (topics indexPage) tt
        (process_topic index indexPage existingTokens);;
      log (LogUpdateCompleted (ip_title indexPage))
  end.

Definition addToMultipleIndexes (target space : string)
    (indexNodeTokens : list string) : M unit :=
  log (LogAdding target (Z.of_nat (length indexNodeTokens)));;
  for_of indexNodeTokens tt (fun _ indexToken =>
    try_catch
      (createShortcut indexToken (Some target) (Some space);;
       delay 500)
      (fun e => log (LogAddFailed indexToken e))).

(** One iteration of the inner loop of [getStatistics]. *)
Definition count_topic (byTopic : list (string * Z)) (shortcut : ShortcutInfo)
    : list (string * Z) :=
  let count := default 0 (OMap.get (topicId shortcut) byTopic) in
  OMap.set (topicId shortcut) (count + 1) byTopic.

(** One iteration of the outer loop of [getStatistics]. *)
Definition stats_step (stats : Statistics) (entry : JsStr * list ShortcutInfo)
    : Statistics :=
  let '(token, infos) := entry in
  {| totalWikis := totalWikis stats;
     totalIndexPages := totalIndexPages stats;
     totalShortcuts := totalShortcuts stats + Z.of_nat (length infos);
     shortcutsByTopic := fold_left count_topic infos (shortcutsByTopic stats);
     duplicatePages :=
       if Z.of_nat (length infos) >? 1
       then (duplicatePages stats ++ [token])%list
       else duplicatePages stats |}.

Definition getStatistics (m : Manager) : Statistics :=
  fold_left stats_step (shortcuts m)
    {| totalWikis := Z.of_nat (length (wikis m));
       totalIndexPages := Z.of_nat (size (indexPages m));
       totalShortcuts := 0;
       shortcutsByTopic := [];
       duplicatePages := [] |}.
End operations.

End WikiIndex.

(** ** The request/response correlator of lark-wiki-mcp-agent.ts *)

Module MCP.

Record MCPRequest (Payload : Type) := mkRequest {
  method : string;
  params : Payload;
  req_id : Z
}.
Arguments mkRequest {Payload}.
Arguments method {Payload}.
Arguments params {Payload}.
Arguments req_id {Payload}.

(** The [error] member of a response. *)
Record MCPError := mkMCPError {
  code : Z;
  message : string
}.

(** A line of the server's output once parsed: [resp_id] is [None] when
    the [id] member is missing or is not a number. *)
Record MCPResponse (Payload : Type) := mkResponse {
  result : Payload;
  error : option MCPError;
  resp_id : option Z
}.
Arguments mkResponse {Payload}.
Arguments result {Payload}.
Arguments error {Payload}.
Arguments resp_id {Payload}.

(** [new Error(message)] *)
Record JsError := mkError { err_message : string }.

(** The state of the promise behind a [{resolve, reject}] pair. *)
Inductive Settlement (Payload : Type) : Type :=
  | Pending
  | Resolved (value : Payload)
  | Rejected (reason : JsError).
Arguments Pending {Payload}.
Arguments Resolved {Payload} value.
Arguments Rejected {Payload} reason.

(** What the agent needs from JSON and from its payloads: [JSON_parse] is
    [None] where [JSON.parse] throws or the parsed value has no members, and
    [tool_call name args] is the object [{name, arguments: args}]. *)
Class JsonOps (Payload : Type) := {
  JSON_parse : string -> option (MCPResponse Payload);
  tool_call : string -> Payload -> Payload
}.

(** [n++] on a JS number holding a positive integer: exact below [2^53],
    where [n + 1] rounds back to [n]. *)
Definition js_succ (n : Z) : Z := if n <? 2 ^ 53 then n + 1 else n.

(** [response.id &&]: [undefined] and [0] are falsy. *)
Definition truthy_id (i : option Z) : bool :=
  match i with
  | Some n => negb (n =? 0)
  | None => false
  end.

Definition newline : ascii := ascii_of_nat 10.

(** [s.split('\n')] *)
Fixpoint split_lines (s : string) : list string :=
  match s with
  | EmptyString => [EmptyString]
  | String c s' =>
      if Ascii.eqb c newline then EmptyString :: split_lines s'
      else
        match split_lines s' with
        | l :: ls => String c l :: ls
        | [] => [String c EmptyString]
        end
  end.

Definition is_space (c : ascii) : bool :=
  let n := nat_of_ascii c in
  (Nat.leb 9 n && Nat.leb n 13 || Nat.eqb n 32)%bool.

(** [line.trim()] as a condition: some character is not white space. *)
Fixpoint trim_truthy (line : string) : bool :=
  match line with
  | EmptyString => false
  | String c s' => (negb (is_space c) || trim_truthy s')%bool
  end.

Section agent.
Context {Payload : Type} `{JsonOps Payload}.

(** The fields of a [LarkWikiMCPAgent] that the correlator uses. A promise
    is named by its position in [promises]; [stdin] holds the requests
    written to the server process, and is [None] while there is no
    process. *)
Record Agent := mkAgent {
  stdin : option (list (MCPRequest Payload));
  requestId : Z;
  pendingRequests : gmap Z nat;
  promises : list (Settlement Payload)
}.

Definition newAgent : Agent :=
  {| stdin := None; requestId := 1; pendingRequests := ∅; promises := [] |}.

(** [spawn] in [startMCPServer], as far as the correlator sees it. *)
Definition spawn (st : Agent) : Agent :=
  {| stdin := Some [];
     requestId := requestId st;
     pendingRequests := pendingRequests st;
     promises := promises st |}.

(** Calling [resolve] or [reject]: a settled promise stays as it is. *)
Definition settle (h : nat) (s : Settlement Payload) (st : Agent) : Agent :=
  match promises st !! h with
  | Some Pending =>
      {| stdin := stdin st;
         requestId := requestId st;
         pendingRequests := pendingRequests st;
         promises := <[h := s]> (promises st) |}
  | _ => st
  end.

(** Returns the promise handed to the caller. *)
Definition sendMCPRequest (meth : string) (args : Payload) (st : Agent)
    : nat * Agent :=
  let h := length (promises st) in
  let request := {| method := meth; params := args; req_id := requestId st |} in
  let st1 :=
    {| stdin := stdin st;
       requestId := js_succ (requestId st);
       pendingRequests := <[req_id request := h]> (pendingRequests st);
       promises := (promises st ++ [Pending])%list |} in
  match stdin st1 with
  | Some written =>
      (h, {| stdin := Some (written ++ [request])%list;
             requestId := requestId st1;
             pendingRequests := pendingRequests st1;
             promises := promises st1 |})
  | None =>
      (h, settle h (Rejected (mkError "MCP process not initialized")) st1)
  end.

Definition callMCPTool (toolName : string) (args : Payload) (st : Agent)
    : nat * Agent :=
  sendMCPRequest "tools/call" (tool_call toolName args) st.

(** The body of the [try] in [handleMCPResponse], for a parsed line. *)
Definition handle_response (st : Agent) (response : MCPResponse Payload) : Agent :=
  match resp_id response with
  | Some i =>
      if truthy_id (resp_id response) then
        match pendingRequests st !! i with
        | Some h =>
            let st1 :=
              {| stdin := stdin st;
                 requestId := requestId st;
                 pendingRequests := delete i (pendingRequests st);
                 promises := promises st |} in
            match error response with
            | Some err => settle h (Rejected (mkError (message err))) st1
            | None => settle h (Resolved (result response)) st1
            end
        | None => st
        end
      else st
  | None => st
  end.

Definition handle_line (st : Agent) (line : string) : Agent :=
  match JSON_parse line with
  | Some response => handle_response st response
  | None => st
  end.

Definition handleMCPResponse (data : string) (st : Agent) : Agent :=
  fold_left handle_line (List.filter trim_truthy (split_lines data)) st.

(** How a response settles the promise of its request. *)
Definition settlement_of (response : MCPResponse Payload) : Settlement Payload :=
  match error response with
  | Some err => Rejected (mkError (message err))
  | None => Resolved (result response)
  end.

(** What holds of every agent built by [newAgent], [spawn],
    [sendMCPRequest] and [handleMCPResponse]. *)
Definition wf (st : Agent) : Prop :=
  1 <= requestId st /\
  (forall i h, pendingRequests st !! i = Some h ->
     1 <= i /\ (h < length (promises st))%nat) /\
  (forall i j h, pendingRequests st !! i = Some h ->
     pendingRequests st !! j = Some h -> i = j).
End agent.

Arguments Agent : clear implicits.

End MCP.


(** ** Test doubles: word patterns and an in-memory wiki *)

Module Doubles.
Import WikiIndex.

(** [contains word text]: [text] has [word] as a substring, which is what
    the regular expression made of the letters of [word] tests. *)
Fixpoint contains (word text : string) : bool :=
  (String.prefix word text ||
   match text with
   | EmptyString => false
   | String _ rest => contains word rest
   end)%bool.

#[export] Instance word_patterns : RegExpOps string :=
  {| test := contains; toLowerCase := ascii_toLowerCase |}.

(** An in-memory wiki: [corpus] answers the searches, [children] are the
    child nodes by parent (listed in full, whatever the page size), and
    [plan] says which of the coming [CREATE_NODE] calls are served ([true])
    or refused ([false]); once the plan is used up every call is served. *)
Record Remote := mkRemote {
  corpus : list (string * string * list Page);
  children : list (string * WikiNode);
  plan : list bool
}.

Definition remote_search (space keyword : string) (r : Remote) : list Page :=
  flat_map (fun entry =>
    match entry with
    | (s, k, items) =>
        if (String.eqb s space && String.eqb k keyword)%bool then items else []
    end) (corpus r).

Definition remote_list (parent : string) (page_size : Z) (r : Remote) : list WikiNode :=
  map snd (List.filter (fun c => String.eqb (fst c) parent) (children r)).

Definition remote_create (parent : string) (origin space : JsStr) (r : Remote)
    : Outcome JsStr * Remote :=
  match plan r with
  | false :: rest =>
      (Thrown "request refused",
       {| corpus := corpus r; children := children r; plan := rest |})
  | _ =>
      (Returned (Some "shortcut-node"),
       {| corpus := corpus r;
          children := (children r ++
            [(parent, {| node_type := Some "shortcut"; origin_node_token := origin |})])%list;
          plan := tl (plan r) |})
  end.

#[export] Instance remote_agent : AgentOps Remote := {|
  GET_SPACE_INFO := fun space r => (Returned (Some space), r);
  GET_NODE_INFO := fun token r => (Returned true, r);
  LIST_NODES := fun parent page_size r =>
    (Returned (Some (remote_list parent page_size r)), r);
  SEARCH_WIKI := fun space keyword r =>
    (Returned (Some (remote_search space keyword r)), r);
  CREATE_NODE := remote_create
|}.

Definition doc (token ttl : string) : Page :=
  {| node_token := Some token; obj_token := None; title := Some ttl;
     content := None; space_id := None |}.

Definition topic_of (i : string) (kws : list string) : Topic string :=
  {| id := i; name := i; keywords := kws;
     includePatterns := None; excludePatterns := None; priority := None |}.

(** A wiki "main" where the keyword "foo" finds the document A. *)
Definition wiki_foo (served : list bool) : Remote :=
  {| corpus := [("main", "foo", [doc "A" "foo doc"])];
     children := [];
     plan := served |}.

(** An index page "idx" declaring the given topics, over the wiki "main". *)
Definition setup (tps : list (Topic string)) : M string Remote unit :=
  (registerWiki "main" true;;
   registerIndexPage
     {| nodeToken := "idx"; ip_spaceId := "main"; ip_title := "Index";
        topics := tps; autoUpdate := true |})%js.

(** The page "idx" declares two topics, and both find the document A. *)
Definition two_topics : list (Topic string) :=
  [topic_of "t1" ["foo"]; topic_of "t2" ["foo"]].

(** The page "idx" declares one topic. *)
Definition one_topic : list (Topic string) := [topic_of "t1" ["foo"]].



(** A topic whose include and exclude patterns both match "bar". *)
Definition bar_topic : Topic string :=
  {| id := "bar"; name := "bar"; keywords := ["foo"];
     includePatterns := Some ["bar"]; excludePatterns := Some ["bar"];
     priority := None |}.

(** A hit without any token. *)
Definition tokenless : Page :=
  {| node_token := None; obj_token := None; title := Some "draft";
     content := None; space_id := None |}.

(** The world after [prog] has run in a fresh manager over [r]. *)
Definition run {A} (prog : M string Remote A) (r : Remote) : World string Remote :=
  snd (prog (newManager r)).

(** A stand-in for JSON on test lines: a digit (the id), then [+] and the
    result, or [-], a digit (the error code) and the error message. *)
Definition digit (c : ascii) : option Z :=
  let n := nat_of_ascii c in
  if (Nat.leb 48 n && Nat.leb n 57)%bool then Some (Z.of_nat (n - 48)) else None.

Definition parse_line (line : string) : option (MCP.MCPResponse string) :=
  match line with
  | String c (String "+" payload) =>
      match digit c with
      | Some i => Some {| MCP.result := payload; MCP.error := None; MCP.resp_id := Some i |}
      | None => None
      end
  | String c (String "-" (String d msg)) =>
      match digit c, digit d with
      | Some i, Some n =>
          Some {| MCP.result := "";
                  MCP.error := Some {| MCP.code := n; MCP.message := msg |};
                  MCP.resp_id := Some i |}
      | _, _ => None
      end
  | _ => None
  end.

#[export] Instance line_json : MCP.JsonOps string := {|
  MCP.JSON_parse := parse_line;
  MCP.tool_call := fun toolName args => (toolName ++ " " ++ args)%string
|}.

(** An agent with a server process and two requests on their way. *)
Definition two_sent : MCP.Agent string :=
  snd (MCP.sendMCPRequest "tools/list" ""
    (snd (MCP.sendMCPRequest "initialize" "" (MCP.spawn MCP.newAgent)))).

End Doubles.

(** ** Vocabulary of the specification *)

Module Spec.
Import WikiIndex.

(** *** Reading the console *)

Definition is_attempt (e : LogEntry) : bool :=
  match e with LogCreating _ _ => true | _ => false end.

(** The link creations that were started, in order. *)
Definition attempts (entries : list LogEntry) : list LogEntry :=
  List.filter is_attempt entries.

Definition is_item_failure (e : LogEntry) : bool :=
  match e with LogItemFailed _ _ => true | _ => false end.

(** How many candidates failed and were logged by the page loop. *)
Definition item_failures (entries : list LogEntry) : Z :=
  Z.of_nat (length (List.filter is_item_failure entries)).

Definition is_creation_failure (e : LogEntry) : bool :=
  match e with LogCreateFailed _ => true | _ => false end.

(** How many link creations threw. *)
Definition creation_failures (entries : list LogEntry) : Z :=
  Z.of_nat (length (List.filter is_creation_failure entries)).

(** The topics whose summary line was written, in order. *)
Definition topics_done (entries : list LogEntry) : list string :=
  flat_map (fun e => match e with LogTopicDone t _ _ => [t] | _ => [] end) entries.

Definition sum_log (f : LogEntry -> Z) (entries : list LogEntry) : Z :=
  fold_right (fun e acc => f e + acc) 0 entries.

(** Candidates found, minus those reported created or skipped by a topic
    summary, minus those reported failed. *)
Definition unaccounted (entries : list LogEntry) : Z :=
  sum_log (fun e =>
    match e with
    | LogTotalUnique n => n
    | LogTopicDone _ created skipped => - created - skipped
    | LogItemFailed _ _ => -1
    | _ => 0
    end) entries.

Section programs.
Context {Pattern : Type} `{RegExpOps Pattern} {R : Type} `{AgentOps R}.

(** [Q] holds of the outcome and the world [m] leaves behind from [w]. *)
Definition wp {A} (m : M Pattern R A)
    (Q : Outcome A -> World Pattern R -> Prop) (w : World Pattern R) : Prop :=
  Q (fst (m w)) (snd (m w)).

(** An entry that none of the readers above counts. *)
Definition neutral (e : LogEntry) : bool :=
  match e with
  | LogCreating _ _ | LogItemFailed _ _ | LogTopicDone _ _ _ | LogTotalUnique _ => false
  | _ => true
  end.

(** From [w] to [w'] the manager only searched: its wikis, index pages and
    shortcut records are the same, and the console grew by neutral entries.
    The search cache and the state behind the agent may have changed. *)
Definition crawled (w w' : World Pattern R) : Prop :=
  wikis (mgr w') = wikis (mgr w) /\
  indexPages (mgr w') = indexPages (mgr w) /\
  shortcuts (mgr w') = shortcuts (mgr w) /\
  exists extra, console w' = (console w ++ extra)%list /\ forallb neutral extra = true.

(** *** The remote service over a run *)

(** One call of [updateIndexPage] to its agent. *)
Inductive agent_step : R -> R -> Prop :=
  | step_search space keyword r : agent_step r (snd (SEARCH_WIKI space keyword r))
  | step_list parent page_size r : agent_step r (snd (LIST_NODES parent page_size r))
  | step_create parent origin space r :
      agent_step r (snd (CREATE_NODE parent origin space r)).

(** The states such calls lead to. *)
Definition reach : R -> R -> Prop := rtc agent_step.

(** The child listing of [index], as [getExistingShortcuts] asks for it,
    shows a shortcut to [target]. *)
Definition listed (index : string) (r : R) (target : JsStr) : Prop :=
  exists items node,
    fst (LIST_NODES index 500 r) = Returned (Some items) /\
    In node items /\
    node_type node = Some "shortcut" /\
    origin_node_token node = target.

(** From [w] to [w'] the manager ran some of [updateIndexPage]: wikis and
    index pages are the same, the cache only grew, no failure line was
    taken back, and the agent made some calls. *)
Definition evolves (w w' : World Pattern R) : Prop :=
  wikis (mgr w') = wikis (mgr w) /\
  indexPages (mgr w') = indexPages (mgr w) /\
  searchCache (mgr w) ⊆ searchCache (mgr w') /\
  item_failures (console w) <= item_failures (console w') /\
  reach (agent w) (agent w').

(** [m] has returned [a] and left the cache of [w']. Run again in any world
    with the same wikis whose cache has at least those entries, it returns
    [a] again without calling the agent or changing the manager, and writes
    neutral lines only. *)
Definition replays {A} (m : M Pattern R A) (a : A) (w' : World Pattern R) : Prop :=
  forall wb,
    wikis (mgr wb) = wikis (mgr w') ->
    searchCache (mgr w') ⊆ searchCache (mgr wb) ->
    exists wb',
      m wb = (Returned a, wb') /\
      mgr wb' = mgr wb /\ agent wb' = agent wb /\ clock wb' = clock wb /\
      crawled wb wb'.

(** [m] returns [a] from [w], leaving [w'], as part of a crawl, and will
    return the same on replay. *)
Definition stable {A} (m : M Pattern R A) (w : World Pattern R) (a : A)
    (w' : World Pattern R) : Prop :=
  m w = (Returned a, w') /\ evolves w w' /\ crawled w w' /\ replays m a w'.

(** After [w'], a pass [prog] over the page [index] finds every candidate
    linked: started in a world with the wikis and at least the cache of [w'],
    and with an existing-link set holding every target listed at [w'], it
    returns without calling the agent, changing the manager or starting a
    creation. *)
Definition skips_all (index : string) (prog : list JsStr -> M Pattern R unit)
    (w' : World Pattern R) : Prop :=
  forall existingTokens wb,
    wikis (mgr wb) = wikis (mgr w') ->
    searchCache (mgr w') ⊆ searchCache (mgr wb) ->
    (forall target, listed index (agent w') target -> target ∈ existingTokens) ->
    exists wb',
      prog existingTokens wb = (Returned tt, wb') /\
      mgr wb' = mgr wb /\ agent wb' = agent wb /\
      attempts (console wb') = attempts (console wb).

(** Every run of [m] takes a world to one related to it by [Rel]. *)
Definition within {A} (Rel : World Pattern R -> World Pattern R -> Prop)
    (m : M Pattern R A) : Prop :=
  forall w, Rel w (snd (m w)).
End programs.

End Spec.

(** ** More vocabulary: records, console lines and growth *)

Module MoreSpec.
Import WikiIndex.

Definition is_creation (e : LogEntry) : bool :=
  match e with LogCreated _ => true | _ => false end.

(** How many link creations returned. *)
Definition creations (entries : list LogEntry) : Z :=
  Z.of_nat (length (List.filter is_creation entries)).

(** The lines a crawl writes. *)
Definition search_line (e : LogEntry) : bool :=
  match e with
  | LogCollecting _ | LogSearchingIn _ | LogFound _ _ | LogSearchError _ _
  | LogTotalUnique _ => true
  | _ => false
  end.

(** The lines a pass writes around its topics. *)
Definition pass_line (e : LogEntry) : bool :=
  match e with
  | LogUpdating _ | LogProcessingTopic _ | LogTopicDone _ _ _
  | LogUpdateCompleted _ => true
  | _ => false
  end.

Definition sumZ (l : list Z) : Z := fold_right Z.add 0 l.

Definition is_start (e : LogEntry) : bool :=
  match e with LogUpdating _ => true | _ => false end.

(** The lines written by a pass after its first. *)
Definition body_line (e : LogEntry) : bool :=
  ((search_line e || pass_line e) && negb (is_start e))%bool.

(** The titles of the index pages whose pass was started, in order. *)
Definition passes_started (entries : list LogEntry) : list string :=
  flat_map (fun e => match e with LogUpdating t => [t] | _ => [] end) entries.

Section records.
Context {Pattern : Type} {R : Type}.

(** All the records kept, target by target. *)
Definition records (m : Manager Pattern) : list ShortcutInfo :=
  concat (OMap.values (shortcuts m)).

(** The records of one topic. *)
Definition records_of_topic (t : string) (m : Manager Pattern) : list ShortcutInfo :=
  List.filter (fun s => String.eqb (topicId s) t) (records m).

(** From [w] to [w'] nothing was taken away: wikis and index pages are the
    same, every cache entry and every record is still there, each target's
    records followed by the new ones, the console has its old lines first and
    the clock did not go back. *)
Definition grown (w w' : World Pattern R) : Prop :=
  wikis (mgr w') = wikis (mgr w) /\
  indexPages (mgr w') = indexPages (mgr w) /\
  searchCache (mgr w) ⊆ searchCache (mgr w') /\
  (forall target infos, OMap.get target (shortcuts (mgr w)) = Some infos ->
     exists extra, OMap.get target (shortcuts (mgr w')) = Some (infos ++ extra)%list) /\
  (exists extra, console w' = (console w ++ extra)%list) /\
  clock w <= clock w'.

(** From [w] to [w'] as many records were added as creations returned. *)
Definition balanced (w w' : World Pattern R) : Prop :=
  Z.of_nat (length (records (mgr w'))) - Z.of_nat (length (records (mgr w))) =
  creations (console w') - creations (console w).

(** From [w] to [w'] no pass was started. *)
Definition same_starts (w w' : World Pattern R) : Prop :=
  passes_started (console w') = passes_started (console w).
End records.

(** *** What a crawl has to gather *)

Section crawl.
Context {Pattern : Type} `{RegExpOps Pattern} {R : Type} `{AgentOps R}.






(** *** What a pass has to do *)









(** From [w] to [w'] no creation was started and none failed. *)
Definition same_counts (w w' : World Pattern R) : Prop :=
  Spec.attempts (console w') = Spec.attempts (console w) /\
  List.filter Spec.is_item_failure (console w') =
    List.filter Spec.is_item_failure (console w) /\
  Spec.creation_failures (console w') = Spec.creation_failures (console w).
End crawl.

End MoreSpec.

(** ** All index pages, and the cache *)

(** [updateAllIndexPages] and [clearCache] write console lines of their
    own. A session is a world together with these lines, each with the
    number of lines the console held when it was written. *)

Module Session.
Import WikiIndex.
Local Open Scope js_scope.

Inductive Notice : Type :=
  | NoticeStartingAll
  | NoticeSkipping (ttl : string)
  | NoticeIndexFailed (ttl : string) (e : string)
  | NoticeAllUpdated
  | NoticeCacheCleared.

(** The titles of the index pages reported skipped, in order. *)
Definition skipped_pages (notices : list (nat * Notice)) : list string :=
  flat_map (fun n => match snd n with NoticeSkipping t => [t] | _ => [] end) notices.

Section session.
Context {Pattern : Type} `{RegExpOps Pattern} {R : Type} `{AgentOps R}.

(** [order] is how the Map [this.indexPages] is iterated, which a [gmap]
    does not keep: its keys in the order of their first insertion. *)
Record Session := mkSession {
  world : World Pattern R;
  notices : list (nat * Notice);
  order : list string
}.

Definition newSession (r : R) : Session :=
  {| world := newManager r; notices := []; order := [] |}.

Definition S (A : Type) : Type := Session -> Outcome A * Session.

Definition s_bind {A B} (m : S A) (k : A -> S B) : S B :=
  fun s =>
    match m s with
    | (Returned a, s') => k a s'
    | (Thrown e, s') => (Thrown e, s')
    end.

Definition s_try_catch {A} (m : S A) (handler : string -> S A) : S A :=
  fun s =>
    match m s with
    | (Returned a, s') => (Returned a, s')
    | (Thrown e, s') => handler e s'
    end.

Fixpoint s_for_of {X} (xs : list X) (body : X -> S unit) : S unit :=
  match xs with
  | [] => fun s => (Returned tt, s)
  | x :: xs' => s_bind (body x) (fun _ => s_for_of xs' body)
  end.

(** A method of the manager, run in the session. *)
Definition lift {A} (m : M Pattern R A) : S A :=
  fun s =>
    let '(o, w') := m (world s) in
    (o, {| world := w'; notices := notices s; order := order s |}).

Definition notice (n : Notice) : S unit :=
  fun s =>
    (Returned tt,
     {| world := world s;
        notices := (notices s ++ [(length (console (world s)), n)])%list;
        order := order s |}).

(** [registerIndexPage] with the order of the Map: [set] puts a new key
    last and leaves a key that is there in its place; nothing is set when
    the method throws. *)
Definition registerIndexPage (cfg : IndexPage Pattern) : S unit :=
  fun s =>
    match WikiIndex.registerIndexPage cfg (world s) with
    | (Returned _, w') =>
        (Returned tt,
         {| world := w'; notices := notices s;
            order := if bool_decide (nodeToken cfg ∈ order s) then order s
                     else (order s ++ [nodeToken cfg])%list |})
    | (Thrown e, w') =>
        (Thrown e, {| world := w'; notices := notices s; order := order s |})
    end.

(** What iterating [this.indexPages] yields. *)
Definition entries (s : Session) : list (string * IndexPage Pattern) :=
  omap (fun token =>
          match indexPages (mgr (world s)) !! token with
          | Some indexPage => Some (token, indexPage)
          | None => None
          end) (order s).

(** The body of the loop of [updateAllIndexPages]. *)
Definition update_entry (entry : string * IndexPage Pattern) : S unit :=
  let '(token, indexPage) := entry in
  if negb (autoUpdate indexPage)
  then notice (NoticeSkipping (ip_title indexPage))
  else
    s_try_catch
      (lift (updateIndexPage token;; delay 2000))
      (fun e => notice (NoticeIndexFailed (ip_title indexPage) e)).

(** No turn of the loop sets or deletes an index page, so that the entries
    the loop goes through are those the Map has when it begins. *)
Definition updateAllIndexPages : S unit :=
  s_bind (notice NoticeStartingAll) (fun _ =>
  s_bind (fun s => s_for_of (entries s) update_entry s) (fun _ =>
  notice NoticeAllUpdated)).

(** Every entry of [pages] is a registered index page. *)
Definition entries_of (pages : list (string * IndexPage Pattern))
    (m : Manager Pattern) : Prop :=
  forall token indexPage,
    In (token, indexPage) pages -> indexPages m !! token = Some indexPage.

(** [order] is the order of the keys of [this.indexPages]. *)
Definition ordered (s : Session) : Prop :=
  NoDup (order s) /\
  forall token, token ∈ order s <-> is_Some (indexPages (mgr (world s)) !! token).

Definition clearCache : S unit :=
  s_bind
    (lift (set_this (fun m =>
       {| wikis := wikis m;
          indexPages := indexPages m;
          shortcuts := shortcuts m;
          searchCache := ∅ |})))
    (fun _ => notice NoticeCacheCleared).
End session.

Arguments Session : clear implicits.

End Session.

(** ** The life of the server process *)

Module Lifecycle.
Import MCP.

Section life.
Context {Payload : Type} `{JsonOps Payload}.

(** [close], as far as the correlator sees it: the process is killed and
    forgotten. The table of pending requests is not touched. *)
Definition close (st : Agent Payload) : Agent Payload :=
  {| stdin := None;
     requestId := requestId st;
     pendingRequests := pendingRequests st;
     promises := promises st |}.

(** The agents the code can build. *)
Inductive built : Agent Payload -> Prop :=
  | built_new : built newAgent
  | built_spawn st : built st -> built (spawn st)
  | built_send meth args st : built st -> built (snd (sendMCPRequest meth args st))
  | built_data data st : built st -> built (handleMCPResponse data st)
  | built_close st : built st -> built (close st).

(** The rejection of a request made while there is no process. *)
Definition not_initialized : Settlement Payload :=
  Rejected (mkError "MCP process not initialized").

(** The invariant of the agents the code builds. *)
Definition tracked (st : Agent Payload) : Prop :=
  wf st /\
  requestId st <= 2 ^ 53 /\
  (requestId st < 2 ^ 53 ->
   (forall i h, pendingRequests st !! i = Some h -> i < requestId st) /\
   (forall h, promises st !! h = Some Pending ->
      exists i, pendingRequests st !! i = Some h)) /\
  (forall i h, pendingRequests st !! i = Some h ->
     promises st !! h = Some Pending \/ promises st !! h = Some not_initialized).
End life.

End Lifecycle.

(** ** The command layer of the agent *)

(** [execute] and the controllers [executeC1_WikiSpace] to
    [executeC5_Automation] of [LarkWikiMCPAgent], over what awaiting
    [callMCPTool] gives. No listener is registered on the agent, so [emit]
    does nothing. *)

Module Commands.

(** The values that travel as [any]: numbers are integers. *)
#[warnings="-register-all"] Inductive Json : Type :=
  | JUndefined
  | JNull
  | JBool (b : bool)
  | JNum (n : Z)
  | JStr (s : string)
  | JArr (items : list Json)
  | JObj (fields : list (string * Json)).

Definition truthy_json (v : Json) : bool :=
  match v with
  | JUndefined | JNull => false
  | JBool b => b
  | JNum n => negb (n =? 0)
  | JStr s => negb (String.eqb s "")
  | JArr _ | JObj _ => true
  end.

(** [a || b] *)
Definition j_or (a b : Json) : Json := if truthy_json a then a else b.

(** Why a [TypeError] was thrown. *)
Inductive Cause : Type :=
  | ReadOf (v : Json) (prop : string)
  | NotIterable (v : Json)
  | NotAFunction (v : Json) (prop : string).

Inductive Exn : Type :=
  | Error (message : string)
  | TypeError (cause : Cause).

(** What awaiting gives: a value, an exception, or nothing when a promise
    is never settled. *)
Inductive Result (A : Type) : Type :=
  | Done (a : A)
  | Raised (e : Exn)
  | Unfinished.
Arguments Done {A} a.
Arguments Raised {A} e.
Arguments Unfinished {A}.

Fixpoint field (key : string) (fields : list (string * Json)) : Json :=
  match fields with
  | [] => JUndefined
  | (k, v) :: rest => if String.eqb k key then v else field key rest
  end.

(** The member [key] of an object. *)
Definition member (key : string) (v : Json) : Json :=
  match v with
  | JObj fields => field key fields
  | _ => JUndefined
  end.

(** [v.prop], for the property names the agent reads: none of them is a
    property of a string, a number, a boolean or an array. *)
Definition get (v : Json) (prop : string) : Result Json :=
  match v with
  | JUndefined | JNull => Raised (TypeError (ReadOf v prop))
  | JObj fields => Done (field prop fields)
  | _ => Done JUndefined
  end.

(** A byte that continues a character in UTF-8. *)
Definition is_continuation (c : ascii) : bool :=
  let n := nat_of_ascii c in (Nat.leb 128 n && Nat.ltb n 192)%bool.

(** The characters (code points) of a text held as UTF-8: each is a byte
    with the continuation bytes that follow it. *)
Fixpoint code_points (s : string) : list string :=
  match s with
  | EmptyString => []
  | String c rest =>
      let groups := code_points rest in
      match rest, groups with
      | String d _, group :: others =>
          if is_continuation d then String c group :: others
          else String c EmptyString :: groups
      | _, _ => String c EmptyString :: groups
      end
  end.

(** What [for (const x of v)] goes through: the items of an array, the
    characters of a string. *)
Definition iterate (v : Json) : Result (list Json) :=
  match v with
  | JArr items => Done items
  | JStr s => Done (map JStr (code_points s))
  | _ => Raised (TypeError (NotIterable v))
  end.

(** *** [parseCommand] *)

(** [\d] *)
Definition is_digit (c : ascii) : bool :=
  let n := nat_of_ascii c in (Nat.leb 48 n && Nat.leb n 57)%bool.

(** [\w] *)
Definition is_word (c : ascii) : bool :=
  let n := nat_of_ascii c in
  (is_digit c || (Nat.leb 65 n && Nat.leb n 90) || (Nat.leb 97 n && Nat.leb n 122)
   || Nat.eqb n 95)%bool.

(** The matches of [/C\d/g], from left to right. *)
Fixpoint match_commands (s : string) : list string :=
  match s with
  | EmptyString => []
  | String c tail =>
      match tail with
      | String d rest =>
          if (Ascii.eqb c "C" && is_digit d)%bool
          then String c (String d EmptyString) :: match_commands rest
          else match_commands tail
      | EmptyString => []
      end
  end.

(** The longest prefix matching [\w*]. *)
Fixpoint take_word (s : string) : string :=
  match s with
  | EmptyString => EmptyString
  | String c rest => if is_word c then String c (take_word rest) else EmptyString
  end.

(** The two groups of [/^(C\d)\.(\w+)/]. *)
Definition match_dotted (s : string) : option (string * string) :=
  match s with
  | String c (String d (String dot rest)) =>
      if (Ascii.eqb c "C" && is_digit d && Ascii.eqb dot ".")%bool then
        match take_word rest with
        | EmptyString => None
        | op => Some (String c (String d EmptyString), op)
        end
      else None
  | _ => None
  end.

Record Parsed := mkParsed {
  type : string;
  p_operation : option string;
  commands : option (list string)
}.

Definition parseCommand (command : string) : Parsed :=
  if String.eqb command "RUN ALL"
  then {| type := "RUN_ALL"; p_operation := None; commands := None |}
  else
    let direct := {| type := command; p_operation := None; commands := None |} in
    let dotted :=
      match match_dotted command with
      | Some (t, op) => {| type := t; p_operation := Some op; commands := None |}
      | None => direct
      end in
    if String.prefix "Run C" command then
      match match_commands command with
      | [] => dotted
      | [single] => {| type := single; p_operation := None; commands := None |}
      | several => {| type := "RUN_CHAIN"; p_operation := None; commands := Some several |}
      end
    else dotted.

(** The name [C] followed by a digit. *)
Definition command_name (d : ascii) : string := String "C" (String d EmptyString).

(** The text [Run Ca Cb ...]. *)
Definition chain_of (ds : list ascii) : string :=
  ("Run" ++ fold_right (fun d rest => " " ++ command_name d ++ rest) "" ds)%string.

(** Every character is a [\w]. *)
Fixpoint all_word (s : string) : bool :=
  match s with
  | EmptyString => true
  | String c rest => (is_word c && all_word rest)%bool
  end.

(** [\w+] cannot go on into [s]. *)
Definition stops_word (s : string) : bool :=
  match s with
  | EmptyString => true
  | String c _ => negb (is_word c)
  end.

(** The types that the [switch] of [execute] has a case for. *)
Definition known_type (t : string) : bool :=
  existsb (String.eqb t) ["RUN_ALL"; "RUN_CHAIN"; "C1"; "C2"; "C3"; "C4"; "C5"].

(** *** The agent *)

(** What the agent runs on: awaiting a tool call, the clock, starting the
    server and discovering its tools, and the wording of a [TypeError]. *)
Class Runtime (R : Type) := {
  callMCPTool : string -> Json -> R -> Result Json * R;
  Date_now : R -> Z * R;
  startServer : R -> Result unit * R;
  message_of : Cause -> string
}.

Record Config := mkConfig {
  spaceId : string;
  rootNodeToken : string;
  enableGenesis : bool
}.

(** [executionId] is the command, the operation and [executionTime]
    joined by hyphens. *)
Record CommandContext := mkContext {
  command : string;
  operation : string;
  params : Json;
  timestamp : Z;
  executionTime : Z
}.

Section agent.
Context {R : Type} `{Runtime R}.

Record Agent := mkAgent {
  server : R;
  config : Config;
  initialized : bool;
  commandHistory : list CommandContext
}.

Definition M (A : Type) : Type := Agent -> Result A * Agent.

Definition ret {A} (a : A) : M A := fun st => (Done a, st).

Definition bind {A B} (m : M A) (k : A -> M B) : M B :=
  fun st =>
    match m st with
    | (Done a, st') => k a st'
    | (Raised e, st') => (Raised e, st')
    | (Unfinished, st') => (Unfinished, st')
    end.

Definition throw {A} (e : Exn) : M A := fun st => (Raised e, st).

Definition try_catch {A} (m : M A) (handler : Exn -> M A) : M A :=
  fun st =>
    match m st with
    | (Raised e, st') => handler e st'
    | r => r
    end.

(** [try { m } finally { final }], for a [final] that neither throws nor
    returns. *)
Definition try_finally {A} (m : M A) (final : Agent -> Agent) : M A :=
  fun st =>
    match m st with
    | (Unfinished, st') => (Unfinished, st')
    | (o, st') => (o, final st')
    end.

Definition of_result {A} (r : Result A) : M A := fun st => (r, st).

Definition on_server {A} (op : R -> A * R) : Agent -> A * Agent :=
  fun st =>
    let '(a, r') := op (server st) in
    (a, {| server := r'; config := config st; initialized := initialized st;
           commandHistory := commandHistory st |}).

(** [await this.callMCPTool(name, args)] *)
Definition tool (name : string) (args : Json) : M Json :=
  on_server (callMCPTool name args).

Definition the_config : M Config := fun st => (Done (config st), st).

(** [e.message] *)
Definition message (e : Exn) : string :=
  match e with
  | Error m => m
  | TypeError cause => message_of cause
  end.
End agent.

Arguments Agent : clear implicits.

Declare Scope cmd_scope.
Delimit Scope cmd_scope with cmd.
Notation "'let*' x ':=' m 'in' k" := (bind m (fun x => k))
  (at level 10, x name, m at level 100, k at level 200) : cmd_scope.
Notation "m ';;' k" := (bind m (fun _ => k))
  (at level 100, k at level 200, right associativity) : cmd_scope.

Local Open Scope cmd_scope.

Section controllers.
Context {R : Type} `{Runtime R}.
Local Abbreviation M := (@M R).
Local Abbreviation Agent := (Agent R).

(** [v.prop] inside the agent's code. *)
Definition prop (v : Json) (name : string) : M Json := of_result (get v name).

Fixpoint for_of {X S} (xs : list X) (acc : S) (body : S -> X -> M S) : M S :=
  match xs with
  | [] => ret acc
  | x :: xs' => let* acc' := body acc x in for_of xs' acc' body
  end.

Definition createCommandContext (cmd op : string) (args : Json) : M CommandContext :=
  let* date := on_server (fun r => let '(t, r') := Date_now r in (Done t, r')) in
  let* stamp := on_server (fun r => let '(t, r') := Date_now r in (Done t, r')) in
  ret {| command := cmd; operation := op; params := args;
         timestamp := date; executionTime := stamp |}.

Definition logCommandExecution (context : CommandContext) (st : Agent) : Agent :=
  {| server := server st; config := config st; initialized := initialized st;
     commandHistory := (commandHistory st ++ [context])%list |}.

(** The shape shared by the five controllers. *)
Definition controller (cmd op : string) (args : Json) (body : M Json) : M Json :=
  let* context := createCommandContext cmd op args in
  try_finally body (logCommandExecution context).

(** *** C1 *)

Definition initializeWikiSpace : M Json :=
  let* cfg := the_config in
  let* rootNode := tool "wiki.v2.space.getNode"
    (JObj [("token", JStr (rootNodeToken cfg)); ("obj_type", JStr "wiki")]) in
  let* children := tool "wiki.v2.spaceNode.list"
    (JObj [("space_id", JStr (spaceId cfg));
           ("parent_node_token", JStr (rootNodeToken cfg))]) in
  let* items := prop children "items" in
  ret (JObj [("space_id", JStr (spaceId cfg)); ("root_node", rootNode);
             ("children", j_or items (JArr []))]).

Definition createWikiSpace (args : Json) : M Json :=
  let* nm := prop args "name" in
  let* description := prop args "description" in
  let* open_sharing := prop args "open_sharing" in
  tool "wiki.v2.space.create"
    (JObj [("name", nm); ("description", description);
           ("open_sharing", j_or open_sharing (JStr "closed"))]).

Definition getSpaceInfo (args : Json) : M Json :=
  let* cfg := the_config in
  let* space_id := prop args "space_id" in
  tool "wiki.v2.space.get" (JObj [("space_id", j_or space_id (JStr (spaceId cfg)))]).

Definition listWikiSpaces (args : Json) : M Json :=
  let* page_size := prop args "page_size" in
  let* page_token := prop args "page_token" in
  tool "wiki.v2.space.list"
    (JObj [("page_size", j_or page_size (JNum 20)); ("page_token", page_token)]).

Definition updateSpaceSettings (args : Json) : M Json :=
  let* cfg := the_config in
  let* space_id := prop args "space_id" in
  let* create_setting := prop args "create_setting" in
  let* security_setting := prop args "security_setting" in
  let* comment_setting := prop args "comment_setting" in
  tool "wiki.v2.spaceSetting.update"
    (JObj [("space_id", j_or space_id (JStr (spaceId cfg)));
           ("create_setting", create_setting);
           ("security_setting", security_setting);
           ("comment_setting", comment_setting)]).

Definition executeC1_WikiSpace (op : string) (args : Json) : M Json :=
  controller "C1" op args
    (if String.eqb op "INITIALIZE" then initializeWikiSpace
     else if String.eqb op "CREATE_SPACE" then createWikiSpace args
     else if String.eqb op "GET_SPACE_INFO" then getSpaceInfo args
     else if String.eqb op "LIST_SPACES" then listWikiSpaces args
     else if String.eqb op "UPDATE_SETTINGS" then updateSpaceSettings args
     else throw (Error ("Unknown C1 operation: " ++ op))).

(** *** C2 *)

Definition createNode (args : Json) : M Json :=
  let* cfg := the_config in
  let* parent_node_token := prop args "parent_node_token" in
  let* node_type := prop args "node_type" in
  let* obj_type := prop args "obj_type" in
  let* ttl := prop args "title" in
  tool "wiki.v2.spaceNode.create"
    (JObj [("space_id", JStr (spaceId cfg));
           ("parent_node_token", j_or parent_node_token (JStr (rootNodeToken cfg)));
           ("node_type", j_or node_type (JStr "origin"));
           ("obj_type", j_or obj_type (JStr "docx"));
           ("title", ttl)]).

Definition listNodes (args : Json) : M Json :=
  let* cfg := the_config in
  let* parent_node_token := prop args "parent_node_token" in
  let* page_size := prop args "page_size" in
  tool "wiki.v2.spaceNode.list"
    (JObj [("space_id", JStr (spaceId cfg));
           ("parent_node_token", j_or parent_node_token (JStr (rootNodeToken cfg)));
           ("page_size", j_or page_size (JNum 50))]).

Definition moveNode (args : Json) : M Json :=
  let* cfg := the_config in
  let* node_token := prop args "node_token" in
  let* target_parent_token := prop args "target_parent_token" in
  tool "wiki.v2.spaceNode.move"
    (JObj [("space_id", JStr (spaceId cfg)); ("node_token", node_token);
           ("target_parent_token", target_parent_token)]).

Definition copyNode (args : Json) : M Json :=
  let* cfg := the_config in
  let* node_token := prop args "node_token" in
  let* target_space_id := prop args "target_space_id" in
  let* target_parent_token := prop args "target_parent_token" in
  let* ttl := prop args "title" in
  tool "wiki.v2.spaceNode.copy"
    (JObj [("space_id", JStr (spaceId cfg)); ("node_token", node_token);
           ("target_space_id", j_or target_space_id (JStr (spaceId cfg)));
           ("target_parent_token", target_parent_token);
           ("title", ttl)]).

Definition updateNodeTitle (args : Json) : M Json :=
  let* cfg := the_config in
  let* node_token := prop args "node_token" in
  let* ttl := prop args "title" in
  tool "wiki.v2.spaceNode.updateTitle"
    (JObj [("space_id", JStr (spaceId cfg)); ("node_token", node_token);
           ("title", ttl)]).

Definition getNodeInfo (args : Json) : M Json :=
  let* node_token := prop args "node_token" in
  let* obj_type := prop args "obj_type" in
  tool "wiki.v2.space.getNode" (JObj [("token", node_token); ("obj_type", obj_type)]).

Definition executeC2_NodeManagement (op : string) (args : Json) : M Json :=
  controller "C2" op args
    (if String.eqb op "CREATE_NODE" then createNode args
     else if String.eqb op "LIST_NODES" then listNodes args
     else if String.eqb op "MOVE_NODE" then moveNode args
     else if String.eqb op "COPY_NODE" then copyNode args
     else if String.eqb op "UPDATE_TITLE" then updateNodeTitle args
     else if String.eqb op "GET_NODE_INFO" then getNodeInfo args
     else throw (Error ("Unknown C2 operation: " ++ op))).

(** *** C3 *)

Definition listSpaceMembers (args : Json) : M Json :=
  let* cfg := the_config in
  let* space_id := prop args "space_id" in
  let* page_size := prop args "page_size" in
  tool "wiki.v2.spaceMember.list"
    (JObj [("space_id", j_or space_id (JStr (spaceId cfg)));
           ("page_size", j_or page_size (JNum 50))]).

Definition addSpaceMember (args : Json) : M Json :=
  let* cfg := the_config in
  let* space_id := prop args "space_id" in
  let* member_type := prop args "member_type" in
  let* member_id := prop args "member_id" in
  let* member_role := prop args "member_role" in
  tool "wiki.v2.spaceMember.create"
    (JObj [("space_id", j_or space_id (JStr (spaceId cfg)));
           ("member_type", member_type); ("member_id", member_id);
           ("member_role", member_role)]).

Definition removeSpaceMember (args : Json) : M Json :=
  let* cfg := the_config in
  let* space_id := prop args "space_id" in
  let* member_type := prop args "member_type" in
  let* member_id := prop args "member_id" in
  tool "wiki.v2.spaceMember.delete"
    (JObj [("space_id", j_or space_id (JStr (spaceId cfg)));
           ("member_type", member_type); ("member_id", member_id)]).

Definition updatePermissions (args : Json) : M Json :=
  let* node_token := prop args "node_token" in
  let* member_id := prop args "member_id" in
  let* permission := prop args "permission" in
  tool "drive.v1.permissionMember.update"
    (JObj [("token", node_token); ("type", JStr "wiki");
           ("member_id", member_id); ("perm", permission)]).

Definition executeC3_PermissionManagement (op : string) (args : Json) : M Json :=
  controller "C3" op args
    (if String.eqb op "LIST_MEMBERS" then listSpaceMembers args
     else if String.eqb op "ADD_MEMBER" then addSpaceMember args
     else if String.eqb op "REMOVE_MEMBER" then removeSpaceMember args
     else if String.eqb op "UPDATE_PERMISSIONS" then updatePermissions args
     else throw (Error ("Unknown C3 operation: " ++ op))).

(** *** C4 *)

Definition searchWiki (args : Json) : M Json :=
  let* cfg := the_config in
  let* query := prop args "query" in
  let* parent_node_token := prop args "parent_node_token" in
  tool "wiki.v1.node.search"
    (JObj [("space_id", JStr (spaceId cfg)); ("query", query);
           ("parent_node_token", parent_node_token)]).

Definition getDocumentContent (args : Json) : M Json :=
  let* document_id := prop args "document_id" in
  tool "docx.v1.document.rawContent" (JObj [("document_id", document_id)]).

Definition createDocument (args : Json) : M Json :=
  let* folder_token := prop args "folder_token" in
  let* ttl := prop args "title" in
  let* content := prop args "content" in
  tool "docx.v1.document.create"
    (JObj [("folder_token", folder_token); ("title", ttl); ("content", content)]).

Definition updateDocument (args : Json) : M Json :=
  let* document_id := prop args "document_id" in
  let* block_id := prop args "block_id" in
  let* content := prop args "content" in
  tool "docx.v1.documentBlock.update"
    (JObj [("document_id", document_id); ("block_id", block_id);
           ("content", content)]).

Definition wikiToBitable (args : Json) : M Json :=
  let* wiki_node_token := prop args "wiki_node_token" in
  let* nodeInfo := getNodeInfo (JObj [("node_token", wiki_node_token)]) in
  let* obj_token := prop nodeInfo "obj_token" in
  if negb (truthy_json obj_token)
  then throw (Error "No Bitable app token found in Wiki node")
  else
    let* tables := tool "bitable.v1.appTable.list" (JObj [("app_token", obj_token)]) in
    let* items := prop tables "items" in
    ret (JObj [("app_token", obj_token); ("tables", j_or items (JArr []));
               ("node_info", nodeInfo)]).

Definition executeC4_ContentOperations (op : string) (args : Json) : M Json :=
  controller "C4" op args
    (if String.eqb op "SEARCH_WIKI" then searchWiki args
     else if String.eqb op "GET_DOCUMENT_CONTENT" then getDocumentContent args
     else if String.eqb op "CREATE_DOCUMENT" then createDocument args
     else if String.eqb op "UPDATE_DOCUMENT" then updateDocument args
     else if String.eqb op "WIKI_TO_BITABLE" then wikiToBitable args
     else throw (Error ("Unknown C4 operation: " ++ op))).

(** *** C5 *)

Definition createTask (args : Json) : M Json :=
  let* cfg := the_config in
  let* node_token := prop args "node_token" in
  let* task_type := prop args "task_type" in
  let* task_params := prop args "task_params" in
  tool "wiki.v2.task.create"
    (JObj [("space_id", JStr (spaceId cfg)); ("node_token", node_token);
           ("task_type", task_type); ("params", task_params)]).

Definition getTask (args : Json) : M Json :=
  let* task_id := prop args "task_id" in
  let* task_type := prop args "task_type" in
  tool "wiki.v2.task.get" (JObj [("task_id", task_id); ("task_type", task_type)]).

(** The body of the loop of [executeBatchOperations]: [exec] is
    [this.execute]. *)
Definition batch_step (exec : Json -> Json -> M Json) (results : list Json)
    (op : Json) : M (list Json) :=
  try_catch
    (let* cmd := prop op "command" in
     let* op_params := prop op "params" in
     let* result := exec cmd op_params in
     ret (results ++ [JObj [("success", JBool true); ("operation", op);
                            ("result", result)]])%list)
    (fun e =>
       ret (results ++ [JObj [("success", JBool false); ("operation", op);
                              ("error", JStr (message e))]])%list).

Definition executeBatchOperations (exec : Json -> Json -> M Json) (args : Json)
    : M Json :=
  let* operations := prop args "operations" in
  let* ops := of_result (iterate operations) in
  let* results := for_of ops [] (batch_step exec) in
  ret (JArr results).

Definition createWithGenesis (args : Json) : M Json :=
  let* cfg := the_config in
  if negb (enableGenesis cfg)
  then throw (Error "Genesis system not enabled")
  else
    let* requirements := prop args "requirements" in
    let* app_token := prop args "app_token" in
    let* template := prop args "template" in
    tool "genesis.builtin.create"
      (JObj [("requirements", requirements); ("app_token", app_token);
             ("template", template)]).

Definition executeC5_Automation (exec : Json -> Json -> M Json)
    (op : string) (args : Json) : M Json :=
  controller "C5" op args
    (if String.eqb op "CREATE_TASK" then createTask args
     else if String.eqb op "GET_TASK" then getTask args
     else if String.eqb op "BATCH_OPERATIONS" then executeBatchOperations exec args
     else if String.eqb op "GENESIS_CREATE" then createWithGenesis args
     else throw (Error ("Unknown C5 operation: " ++ op))).

(** *** The master controller *)

(** [initialize]: the server is started and its tools discovered, once. *)
Definition initialize : M unit :=
  fun st =>
    if initialized st then (Done tt, st)
    else
      match on_server startServer st with
      | (Done _, st') =>
          (Done tt,
           {| server := server st'; config := config st'; initialized := true;
              commandHistory := commandHistory st' |})
      | r => r
      end.

(** The body of the loop of [runChain]: [exec] is [this.execute], and the
    command is run without parameters. *)
Definition run_step (exec : Json -> Json -> M Json) (results : list Json)
    (cmd : string) : M (list Json) :=
  try_catch
    (let* result := exec (JStr cmd) JUndefined in
     ret (results ++ [JObj [("command", JStr cmd); ("success", JBool true);
                            ("result", result)]])%list)
    (fun e =>
       ret (results ++ [JObj [("command", JStr cmd); ("success", JBool false);
                              ("error", JStr (message e))]])%list).

(** [cmds] is [None] when [parsed.commands] is undefined. *)
Definition runChain (exec : Json -> Json -> M Json) (cmds : option (list string))
    : M Json :=
  match cmds with
  | None => throw (TypeError (NotIterable JUndefined))
  | Some names =>
      let* results := for_of names [] (run_step exec) in
      ret (JArr results)
  end.

Definition runAll (exec : Json -> Json -> M Json) : M Json :=
  runChain exec (Some ["C1"; "C2"; "C3"; "C4"; "C5"]).

(** The operation of a parsed command, or the default of its controller. *)
Definition operation_or (parsed : Parsed) (default_operation : string) : string :=
  match p_operation parsed with
  | Some op => if String.eqb op "" then default_operation else op
  | None => default_operation
  end.

(** [execute]. It calls itself through [runChain] and
    [executeBatchOperations]; [fuel] bounds the depth of these calls, and
    a run that needs more is [Unfinished]. On a value that is not a string,
    reading or calling [startsWith] in [parseCommand] fails. *)
Fixpoint execute (fuel : nat) (cmd args : Json) : M Json :=
  match fuel with
  | O => fun st => (Unfinished, st)
  | S fuel' =>
      initialize;;
      match cmd with
      | JStr s =>
          let parsed := parseCommand s in
          let t := type parsed in
          if String.eqb t "RUN_ALL" then runAll (execute fuel')
          else if String.eqb t "RUN_CHAIN" then runChain (execute fuel') (commands parsed)
          else if String.eqb t "C1" then
            executeC1_WikiSpace (operation_or parsed "INITIALIZE") args
          else if String.eqb t "C2" then
            executeC2_NodeManagement (operation_or parsed "LIST_NODES") args
          else if String.eqb t "C3" then
            executeC3_PermissionManagement (operation_or parsed "LIST_MEMBERS") args
          else if String.eqb t "C4" then
            executeC4_ContentOperations (operation_or parsed "SEARCH_WIKI") args
          else if String.eqb t "C5" then
            executeC5_Automation (execute fuel')
              (operation_or parsed "BATCH_OPERATIONS") args
          else throw (Error ("Unknown command: " ++ s))
      | JUndefined | JNull => throw (TypeError (ReadOf cmd "startsWith"))
      | _ => throw (TypeError (NotAFunction cmd "startsWith"))
      end
  end.

(** *** What [WikiIndexManager] passes to the controllers *)

(** The parameters of [CREATE_NODE] in [createShortcut]. *)
Definition shortcut_params (indexNodeToken targetNodeToken targetSpaceId : Json) : Json :=
  JObj [("parent_node_token", indexNodeToken); ("node_type", JStr "shortcut");
        ("origin_node_token", targetNodeToken); ("origin_space_id", targetSpaceId)].

(** The parameters of [SEARCH_WIKI] in [searchWiki]. *)
Definition search_params (space keyword : Json) : Json :=
  JObj [("space_id", space); ("query", keyword)].

(** The parameters of [LIST_NODES] in [getExistingShortcuts]. *)
Definition listing_params (parentNodeToken : Json) : Json :=
  JObj [("parent_node_token", parentNodeToken); ("page_size", JNum 500)].

(** The server after the two readings of the clock in
    [createCommandContext]. *)
Definition after_context (r : R) : R := snd (Date_now (snd (Date_now r))).

(** [m] leaves the history, the configuration and the flag alone. *)
Definition quiet {A} (m : M A) : Prop :=
  forall st,
    commandHistory (snd (m st)) = commandHistory st /\
    config (snd (m st)) = config st /\
    initialized (snd (m st)) = initialized st.

(** [m] comes to an end. *)
Definition settles {A} (m : M A) : Prop :=
  forall st, fst (m st) <> Unfinished.

(** The context of a call made at [st]. *)
Definition context_at (cmd op : string) (args : Json) (st : Agent) : CommandContext :=
  {| command := cmd; operation := op; params := args;
     timestamp := fst (Date_now (server st));
     executionTime := fst (Date_now (snd (Date_now (server st)))) |}.

(** Every call of the controller [run] that comes to an end, returning or
    throwing, adds its context to the history, and nothing else. *)
Definition logs_call (cmd : string) (run : string -> Json -> M Json) : Prop :=
  forall op args st,
    match run op args st with
    | (Unfinished, st') => commandHistory st' = commandHistory st
    | (_, st') =>
        commandHistory st' = (commandHistory st ++ [context_at cmd op args st])%list
    end.

(** The entry of [runChain] for a command that threw. *)
Definition failed_step (cmd : string) (cause : Cause) : Json :=
  JObj [("command", JStr cmd); ("success", JBool false);
        ("error", JStr (message_of cause))].

(** *** What a chain and a batch answer *)

(** The entry of a chain for the command [cmd], from what running it
    gave. *)
Definition chain_entry (cmd : string) (r : Result Json) : Json :=
  match r with
  | Done result =>
      JObj [("command", JStr cmd); ("success", JBool true); ("result", result)]
  | Raised e =>
      JObj [("command", JStr cmd); ("success", JBool false);
            ("error", JStr (message e))]
  | Unfinished => JUndefined
  end.

(** The entries of the commands [names], each run by itself without
    parameters from the agent the one before left, and the agent left at
    the end. *)
Fixpoint chain_entries (exec : Json -> Json -> M Json) (names : list string)
    (st : Agent) : list Json * Agent :=
  match names with
  | [] => ([], st)
  | cmd :: rest =>
      let '(r, st1) := exec (JStr cmd) JUndefined st in
      let '(more, st') := chain_entries exec rest st1 in
      (chain_entry cmd r :: more, st')
  end.

(** What running [cmd], another command than C1, without parameters
    throws. *)
Definition bare_failure (cmd : string) : Exn :=
  if String.eqb cmd "C2" then TypeError (ReadOf JUndefined "parent_node_token")
  else if String.eqb cmd "C3" then TypeError (ReadOf JUndefined "space_id")
  else if String.eqb cmd "C4" then TypeError (ReadOf JUndefined "query")
  else if String.eqb cmd "C5" then TypeError (ReadOf JUndefined "operations")
  else Error ("Unknown command: " ++ cmd).

(** Running one operation of a batch: its command with its parameters. *)
Definition run_operation (exec : Json -> Json -> M Json) (op : Json) : M Json :=
  let* cmd := prop op "command" in
  let* op_params := prop op "params" in
  exec cmd op_params.

(** The entry of a batch for the operation [op], from what running it
    gave. *)
Definition batch_entry (op : Json) (r : Result Json) : Json :=
  match r with
  | Done result =>
      JObj [("success", JBool true); ("operation", op); ("result", result)]
  | Raised e =>
      JObj [("success", JBool false); ("operation", op);
            ("error", JStr (message e))]
  | Unfinished => JUndefined
  end.

(** The entries of the operations [ops], each run by itself from the agent
    the one before left, and the agent left at the end. *)
Fixpoint batch_entries (exec : Json -> Json -> M Json) (ops : list Json)
    (st : Agent) : list Json * Agent :=
  match ops with
  | [] => ([], st)
  | op :: rest =>
      let '(r, st1) := run_operation exec op st in
      let '(more, st') := batch_entries exec rest st1 in
      (batch_entry op r :: more, st')
  end.

(** A runtime that settles every promise. *)
Definition responsive : Prop :=
  (forall name args r, fst (callMCPTool name args r) <> Unfinished) /\
  (forall r, fst (startServer r) <> Unfinished).
End controllers.

End Commands.

(** A runtime that records the tool calls and answers each with an empty
    listing. *)
Module CommandDoubles.
Import Commands.

Record Recorder := mkRecorder {
  calls : list (string * Json);
  ticks : Z
}.

#[export] Instance recorder_runtime : Runtime Recorder := {|
  callMCPTool := fun name args r =>
    (Done (JObj [("items", JArr [])]),
     {| calls := (calls r ++ [(name, args)])%list; ticks := ticks r |});
  Date_now := fun r => (ticks r, {| calls := calls r; ticks := ticks r + 1 |});
  startServer := fun r => (Done tt, r);
  message_of := fun cause =>
    match cause with
    | ReadOf _ name => ("cannot read " ++ name)%string
    | NotIterable _ => "not iterable"
    | NotAFunction _ name => (name ++ " is not a function")%string
    end
|}.

Definition started : Agent Recorder :=
  {| server := {| calls := []; ticks := 0 |};
     config := {| spaceId := "main"; rootNodeToken := "root"; enableGenesis := false |};
     initialized := true;
     commandHistory := [] |}.

(** Three operations: an unknown command, [null], and a search. *)
Definition three_operations : list Json :=
  [JObj [("command", JStr "C6")]; JNull;
   JObj [("command", JStr "C4"); ("params", JObj [("query", JStr "foo")])]].

End CommandDoubles.

(** ** Regular expressions with [lastIndex] *)

(** [filterResults] once more, for any pattern arrays: a [RegExp] object
    with the [g] or [y] flag keeps [lastIndex] from one [test] to the next,
    and a pattern value that is no regular expression (a string read from a
    JSON file) has no [test] to call. *)

Module RegExps.
Import WikiIndex.

(** A [RegExp] object: [source] stands for the pattern and the flags other
    than [g] and [y]. *)
Record RegExp (Source : Type) := mkRegExp {
  source : Source;
  global : bool;
  sticky : bool;
  lastIndex : nat
}.
Arguments mkRegExp {Source}.
Arguments source {Source}.
Arguments global {Source}.
Arguments sticky {Source}.
Arguments lastIndex {Source}.

(** The engine: [find src anchored text i] is the end index of the first
    match of [src] in [text] that starts at the index [i] or, unless
    [anchored], after it, and [None] when there is no such match or [i] is
    beyond the end of [text]; [lowered] is [String.prototype.toLowerCase]. *)
Class Engine (Source : Type) := {
  find : Source -> bool -> string -> nat -> option nat;
  lowered : string -> string
}.

(** An element of a pattern array: a [RegExp] object, named by its place in
    the heap, or a value without a [test] method. *)
Inductive PatternValue : Type :=
  | RegExpAt (l : nat)
  | NoRegExp (v : string).

Section regexps.
Context {Source : Type} `{Engine Source}.

(** The [RegExp] objects, by place. *)
Definition Heap : Type := nat -> RegExp Source.

Definition found (r : option nat) : bool :=
  match r with Some _ => true | None => false end.

(** [re.test(text)]: with [g] or [y] the search starts at [lastIndex], which
    becomes the end of the match, or 0 when there is none; without them
    [lastIndex] is neither read nor written. *)
Definition test_object (re : RegExp Source) (text : string) : bool * RegExp Source :=
  if (global re || sticky re)%bool then
    match find (source re) (sticky re) text (lastIndex re) with
    | Some e =>
        (true, {| source := source re; global := global re; sticky := sticky re;
                  lastIndex := e |})
    | None =>
        (false, {| source := source re; global := global re; sticky := sticky re;
                   lastIndex := 0 |})
    end
  else (found (find (source re) false text 0), re).

Definition store (l : nat) (re : RegExp Source) (heap : Heap) : Heap :=
  fun l' => if Nat.eqb l' l then re else heap l'.

(** [pattern.test(text)]; [None] is the [TypeError] of calling what is not
    a function. *)
Definition test (pattern : PatternValue) (text : string) (heap : Heap)
    : option bool * Heap :=
  match pattern with
  | RegExpAt l =>
      if (global (heap l) || sticky (heap l))%bool
      then (Some (fst (test_object (heap l) text)),
            store l (snd (test_object (heap l) text)) heap)
      else (Some (fst (test_object (heap l) text)), heap)
  | NoRegExp _ => (None, heap)
  end.

(** [for (const pattern of patterns) if (pattern.test(text)) return ...]:
    whether the loop returned from inside; the patterns after the first
    that matches are not tested. *)
Fixpoint some (patterns : list PatternValue) (text : string) (heap : Heap)
    : option bool * Heap :=
  match patterns with
  | [] => (Some false, heap)
  | pattern :: rest =>
      match test pattern text heap with
      | (Some true, heap') => (Some true, heap')
      | (Some false, heap') => some rest text heap'
      | (None, heap') => (None, heap')
      end
  end.

(** The text the patterns are tested on. *)
Definition page_text (result : Page) : string :=
  lowered (or_empty (title result) ++ " " ++ or_empty (content result))%string.

(** The callback of [results.filter] in [filterResults]. *)
Definition accepts (topic : Topic PatternValue) (result : Page) (heap : Heap)
    : option bool * Heap :=
  let text := page_text result in
  match
    match excludePatterns topic with
    | Some patterns => some patterns text heap
    | None => (Some false, heap)
    end
  with
  | (Some true, heap1) => (Some false, heap1)
  | (Some false, heap1) =>
      match includePatterns topic with
      | Some patterns => some patterns text heap1
      | None => (Some true, heap1)
      end
  | (None, heap1) => (None, heap1)
  end.

(** [results.filter(...)]; [None] when the callback throws. *)
Fixpoint filterResults (results : list Page) (topic : Topic PatternValue)
    (heap : Heap) : option (list Page) * Heap :=
  match results with
  | [] => (Some [], heap)
  | result :: rest =>
      match accepts topic result heap with
      | (Some keep, heap1) =>
          match filterResults rest topic heap1 with
          | (Some kept, heap2) => (Some (if keep then result :: kept else kept), heap2)
          | (None, heap2) => (None, heap2)
          end
      | (None, heap1) => (None, heap1)
      end
  end.

(** *** Patterns without [g] and [y] *)

(** The pattern is a [RegExp] object without the [g] and [y] flags. *)
Definition flagless (heap : Heap) (pattern : PatternValue) : Prop :=
  match pattern with
  | RegExpAt l => global (heap l) = false /\ sticky (heap l) = false
  | NoRegExp _ => False
  end.

Definition flagless_list (heap : Heap) (patterns : option (list PatternValue)) : Prop :=
  match patterns with
  | Some l => Forall (flagless heap) l
  | None => True
  end.

(** Whether the pattern matches somewhere in the text. *)
Definition matches (heap : Heap) (pattern : PatternValue) (text : string) : bool :=
  match pattern with
  | RegExpAt l => found (find (source (heap l)) false text 0)
  | NoRegExp _ => false
  end.

(** The engine as [WikiIndex] has it, for the patterns of [heap]. *)
Definition stateless (heap : Heap) : RegExpOps PatternValue :=
  {| WikiIndex.test := matches heap; toLowerCase := lowered |}.
End regexps.

End RegExps.

(** ** Test doubles for patterns with flags *)

Module RegExpDoubles.
Import WikiIndex Doubles.

(** Words as patterns once more, with the place of the match: the
    texts are ASCII. *)
Fixpoint skip (i : nat) (text : string) : option string :=
  match i, text with
  | O, _ => Some text
  | S i', String _ rest => skip i' rest
  | S _, EmptyString => None
  end.

Fixpoint search_word (word text : string) (pos : nat) : option nat :=
  if String.prefix word text then Some (pos + String.length word)%nat
  else
    match text with
    | EmptyString => None
    | String _ rest => search_word word rest (S pos)
    end.

#[export] Instance word_engine : RegExps.Engine string := {|
  RegExps.find := fun word anchored text i =>
    match skip i text with
    | Some rest =>
        if anchored
        then if String.prefix word rest then Some (i + String.length word)%nat else None
        else search_word word rest i
    | None => None
    end;
  RegExps.lowered := ascii_toLowerCase
|}.

(** The heap whose objects are all [/bar/g], not used yet. *)
Definition bar_global : RegExps.Heap (Source := string) :=
  fun _ => {| RegExps.source := "bar"; RegExps.global := true;
              RegExps.sticky := false; RegExps.lastIndex := 0 |}.

(** The heap whose objects are all [/bar/]. *)
Definition bar_plain : RegExps.Heap (Source := string) :=
  fun _ => {| RegExps.source := "bar"; RegExps.global := false;
              RegExps.sticky := false; RegExps.lastIndex := 0 |}.

(** A topic that excludes what the object at place 0 matches. *)
Definition excluding : Topic RegExps.PatternValue :=
  {| id := "t"; name := "t"; keywords := ["foo"];
     includePatterns := None; excludePatterns := Some [RegExps.RegExpAt 0];
     priority := None |}.

(** The same, including what the object at place 1 matches. *)
Definition including_too : Topic RegExps.PatternValue :=
  {| id := "t"; name := "t"; keywords := ["foo"];
     includePatterns := Some [RegExps.RegExpAt 1];
     excludePatterns := Some [RegExps.RegExpAt 0];
     priority := None |}.

(** A topic as the command line reads it from its JSON file. *)
Definition from_json : Topic RegExps.PatternValue :=
  {| id := "t"; name := "t"; keywords := ["foo"];
     includePatterns := None; excludePatterns := Some [RegExps.NoRegExp "bar"];
     priority := None |}.

End RegExpDoubles.

(** ** More test doubles *)

Module MoreDoubles.
Import WikiIndex Session Doubles.
Local Open Scope js_scope.

(** A wiki where a collection id and a keyword with hyphens run together
    to the same text as another id and keyword. *)
Definition wiki_dashes : Remote :=
  {| corpus := [("a", "b-c", [doc "P" "p doc"]); ("a-b", "c", [doc "Q" "q doc"])];
     children := [];
     plan := [] |}.

(** Fresh managers over the two wikis. *)
Definition fresh_foo : World string Remote := newManager (wiki_foo []).
Definition fresh_dashes : World string Remote := newManager wiki_dashes.

(** A service that answers the registrations and refuses the rest. *)
Inductive Refusing : Type := refusing.

#[export] Instance refusing_agent : AgentOps Refusing := {|
  GET_SPACE_INFO := fun space r => (Returned (Some space), r);
  GET_NODE_INFO := fun token r => (Returned true, r);
  LIST_NODES := fun parent page_size r => (Thrown "no permission", r);
  SEARCH_WIKI := fun space keyword r => (Thrown "no permission", r);
  CREATE_NODE := fun parent origin space r => (Thrown "no permission", r)
|}.

Definition page_auto : IndexPage string :=
  {| nodeToken := "idx"; ip_spaceId := "main"; ip_title := "Index";
     topics := one_topic; autoUpdate := true |}.

Definition page_manual : IndexPage string :=
  {| nodeToken := "idx2"; ip_spaceId := "main"; ip_title := "Manual";
     topics := one_topic; autoUpdate := false |}.

Definition page_second : IndexPage string :=
  {| nodeToken := "idx3"; ip_spaceId := "main"; ip_title := "Second";
     topics := one_topic; autoUpdate := true |}.

(** The three pages registered, in this order, with the refusing
    service. *)
Definition refused_session : Session string Refusing :=
  snd (s_bind (lift (registerWiki "main" true)) (fun _ =>
       s_bind (Session.registerIndexPage page_auto) (fun _ =>
       s_bind (Session.registerIndexPage page_manual) (fun _ =>
       Session.registerIndexPage page_second)))
         (newSession refusing)).

End MoreDoubles.

(** ** The manager over the agent of lark-wiki-mcp-agent.ts *)

(** [WikiIndexManager] is constructed over a [LarkWikiMCPAgent]: the calls
    it awaits are the controllers of [Commands] with the parameter objects
    written in wiki-index-manager.ts, and what it reads of an answer is a
    property of the JSON value the controller returned. *)
Module Wiring.
Import WikiIndex.

(** A property that the manager uses as a string. A number, a boolean, an
    array or an object in its place has no counterpart in [JsStr]; the
    servers below send none. *)
Definition js_str (v : Commands.Json) : JsStr :=
  match v with
  | Commands.JStr s => Some s
  | _ => None
  end.

Definition json_of (v : JsStr) : Commands.Json :=
  match v with
  | Some s => Commands.JStr s
  | None => Commands.JUndefined
  end.

(** The properties of a search hit and of a listed child, which are
    objects (reading a property of an item that is [null] would throw; the
    servers below send none). *)
Definition page_of (v : Commands.Json) : Page :=
  {| node_token := js_str (Commands.member "node_token" v);
     obj_token := js_str (Commands.member "obj_token" v);
     title := js_str (Commands.member "title" v);
     content := js_str (Commands.member "content" v);
     space_id := js_str (Commands.member "space_id" v) |}.

Definition node_of (v : Commands.Json) : WikiNode :=
  {| node_type := js_str (Commands.member "node_type" v);
     origin_node_token := js_str (Commands.member "origin_node_token" v) |}.

(** [result.items] where it is an array; [None] stands for a falsy value,
    which [|| []] replaces (a truthy value that is no array is sent by none
    of the servers below). *)
Definition items_of {A} (f : Commands.Json -> A) (v : Commands.Json) : option (list A) :=
  match v with
  | Commands.JArr items => Some (map f items)
  | _ => None
  end.

Section wiring.
Context {R : Type} `{Commands.Runtime R}.

(** [answer.name] with the answer of a controller: reading a property of
    [undefined] throws. *)
Definition read_prop {A} (name : string) (f : Commands.Json -> A) (v : Commands.Json)
    : Commands.Result A :=
  match Commands.get v name with
  | Commands.Done x => Commands.Done (f x)
  | Commands.Raised e => Commands.Raised e
  | Commands.Unfinished => Commands.Unfinished
  end.

(** What awaiting gives the manager: the error it catches is shown by its
    message. [Outcome] has no place for a promise that is never settled;
    the servers below settle every call. *)
Definition awaited {A} (r : Commands.Result A) : Outcome A :=
  match r with
  | Commands.Done a => Returned a
  | Commands.Raised e => Thrown (Commands.message e)
  | Commands.Unfinished => Thrown "never settled"
  end.

(** [read (await run)] *)
Definition answer {A} (run : Commands.M Commands.Json)
    (read : Commands.Json -> Commands.Result A) (st : Commands.Agent R)
    : Outcome A * Commands.Agent R :=
  let '(r, st') := run st in
  (awaited match r with
           | Commands.Done v => read v
           | Commands.Raised e => Commands.Raised e
           | Commands.Unfinished => Commands.Unfinished
           end, st').

(** The calls of wiki-index-manager.ts to its agent. *)
#[export] Instance lark_agent : AgentOps (Commands.Agent R) := {|
  GET_SPACE_INFO := fun space =>
    answer (Commands.executeC1_WikiSpace "GET_SPACE_INFO"
              (Commands.JObj [("space_id", Commands.JStr space)]))
           (read_prop "name" js_str);
  GET_NODE_INFO := fun token =>
    answer (Commands.executeC2_NodeManagement "GET_NODE_INFO"
              (Commands.JObj [("node_token", Commands.JStr token)]))
           (fun v => Commands.Done (Commands.truthy_json v));
  LIST_NODES := fun parent page_size =>
    answer (Commands.executeC2_NodeManagement "LIST_NODES"
              (Commands.JObj [("parent_node_token", Commands.JStr parent);
                              ("page_size", Commands.JNum page_size)]))
           (read_prop "items" (items_of node_of));
  SEARCH_WIKI := fun space keyword =>
    answer (Commands.executeC4_ContentOperations "SEARCH_WIKI"
              (Commands.search_params (Commands.JStr space) (Commands.JStr keyword)))
           (read_prop "items" (items_of page_of));
  CREATE_NODE := fun parent origin space =>
    answer (Commands.executeC2_NodeManagement "CREATE_NODE"
              (Commands.shortcut_params (Commands.JStr parent) (json_of origin)
                 (json_of space)))
           (read_prop "node_token" js_str)
|}.
End wiring.

End Wiring.

(** ** A server that keeps what it is sent *)

Module StoreDoubles.
Import WikiIndex Doubles Commands Wiring.

(** The nodes created so far, each with the properties of its request, the
    hits of the searches by query, and the clock. *)
Record Store := mkStore {
  nodes : list Json;
  hits : list (string * list Json);
  ticks : Z
}.

Definition same_string (a b : Json) : bool :=
  match a, b with
  | JStr x, JStr y => String.eqb x y
  | _, _ => false
  end.

Definition properties (v : Json) : list (string * Json) :=
  match v with
  | JObj fields => fields
  | _ => []
  end.

(** The token of the next node: "n" and as many primes as there are nodes. *)
Fixpoint fresh_token (n : nat) : string :=
  match n with
  | O => "n"
  | S n' => (fresh_token n' ++ "'")%string
  end.

Definition found_for (query : Json) (r : Store) : list Json :=
  flat_map (fun entry => if same_string (JStr (fst entry)) query then snd entry else [])
    (hits r).

(** [wiki.v2.spaceNode.create] stores a node with a new token and every
    property of the request, [wiki.v2.spaceNode.list] answers with the
    stored children of the parent, [wiki.v1.node.search] with the hits of
    the query, and the other tools with a named object. *)
Definition serve (name : string) (args : Json) (r : Store) : Result Json * Store :=
  if String.eqb name "wiki.v2.spaceNode.create" then
    let node := JObj (("node_token", JStr (fresh_token (length (nodes r))))
                      :: properties args) in
    (Done node, {| nodes := (nodes r ++ [node])%list; hits := hits r; ticks := ticks r |})
  else if String.eqb name "wiki.v2.spaceNode.list" then
    (Done (JObj [("items",
                  JArr (List.filter
                          (fun node => same_string (member "parent_node_token" node)
                                         (member "parent_node_token" args))
                          (nodes r)))]), r)
  else if String.eqb name "wiki.v1.node.search" then
    (Done (JObj [("items", JArr (found_for (member "query" args) r))]), r)
  else (Done (JObj [("name", JStr "Main wiki")]), r).

#[export] Instance store_runtime : Runtime Store := {|
  callMCPTool := serve;
  Date_now := fun r => (ticks r, {| nodes := nodes r; hits := hits r; ticks := ticks r + 1 |});
  startServer := fun r => (Done tt, r);
  message_of := fun cause =>
    match cause with
    | ReadOf _ name => ("cannot read " ++ name)%string
    | NotIterable _ => "not iterable"
    | NotAFunction _ name => (name ++ " is not a function")%string
    end
|}.

(** The agent over a server where the query "foo" finds the document A. *)
Definition lark_started : Agent Store :=
  {| server := {| nodes := [];
                  hits := [("foo", [JObj [("node_token", JStr "A");
                                          ("title", JStr "foo doc");
                                          ("space_id", JStr "main")]])];
                  ticks := 0 |};
     config := {| spaceId := "main"; rootNodeToken := "root"; enableGenesis := false |};
     initialized := true;
     commandHistory := [] |}.

(** The index page "idx" with one topic for the keyword "foo". *)
Definition foo_page : IndexPage string :=
  {| nodeToken := "idx"; ip_spaceId := "main"; ip_title := "Index";
     topics := one_topic; autoUpdate := true |}.

(** The manager over the agent, with the wiki "main" and the page "idx"
    registered. *)
Definition lark_registered : World string (Agent Store) :=
  snd ((registerWiki "main" true;; registerIndexPage foo_page)%js
         (newManager lark_started)).

End StoreDoubles.

(** * Verification *)

(** ** Insertion-ordered maps *)

Section omap_facts.
Context {K V : Type} `{EqDecision K}.
Implicit Types (m : list (K * V)) (k : K) (v : V).

Lemma omap_get_None k m : OMap.get k m = None <-> ~ In k (OMap.keys m).
Proof.
  induction m as [|[k' v'] m IH]; simpl.
  - tauto.
  - destruct (decide (k = k')) as [->|Hne].
    + split; [discriminate | intros Hn; exfalso; apply Hn; now left].
    + rewrite IH. split.
      * intros Hn [Heq|Hin]; [congruence | tauto].
      * intros Hn Hin. apply Hn. now right.
Qed.

Lemma omap_has_false k m : OMap.has k m = false <-> ~ In k (OMap.keys m).
Proof.
  unfold OMap.has. rewrite <- omap_get_None.
  destruct (OMap.get k m); split; congruence.
Qed.

Lemma omap_has_true k m : OMap.has k m = true <-> In k (OMap.keys m).
Proof.
  destruct (OMap.has k m) eqn:E.
  - split; [intros _ | reflexivity].
    destruct (in_dec (fun a b => decide (a = b)) k (OMap.keys m)) as [Hin|Hn]; [assumption|].
    apply omap_has_false in Hn. congruence.
  - apply omap_has_false in E. split; [discriminate | tauto].
Qed.

(** Setting an absent key appends the entry. *)
Lemma omap_set_absent k v m :
  OMap.get k m = None -> OMap.set k v m = (m ++ [(k, v)])%list.
Proof.
  induction m as [|[k' v'] m IH]; simpl; [reflexivity|].
  destruct (decide (k = k')); [discriminate|].
  intros Hm. now rewrite IH.
Qed.

Lemma omap_get_set_eq k v m : OMap.get k (OMap.set k v m) = Some v.
Proof.
  induction m as [|[k' v'] m IH]; simpl.
  - now rewrite decide_True.
  - destruct (decide (k = k')) as [->|Hne]; simpl.
    + now rewrite decide_True.
    + now rewrite decide_False.
Qed.

Lemma omap_get_set_ne k k' v m :
  k <> k' -> OMap.get k' (OMap.set k v m) = OMap.get k' m.
Proof.
  intros Hne. induction m as [|[k1 v1] m IH]; simpl.
  - rewrite decide_False; [reflexivity | congruence].
  - destruct (decide (k = k1)) as [->|Hne1]; simpl.
    + rewrite !decide_False; congruence.
    + destruct (decide (k' = k1)); [reflexivity | apply IH].
Qed.
End omap_facts.

(** ** The pattern filter and the de-duplication *)

Section crawl_facts.
Import WikiIndex.
Context {Pattern : Type} `{RegExpOps Pattern}.

(** For patterns without the [g] and [y] flags: an item whose lower-cased
    "title content" text is matched by some exclude pattern of the topic is
    rejected by [filterResults], whatever the include patterns of the topic
    are and whether or not they match. *)
Theorem filterResults_exclude_dominates
    (topic : Topic Pattern) (results : list Page) (item : Page)
    (excludes : list Pattern) (pattern : Pattern) :
  excludePatterns topic = Some excludes ->
  In pattern excludes ->
  test pattern
    (toLowerCase (or_empty (title item) ++ " " ++ or_empty (content item))) = true ->
  accepts topic item = false /\ ~ In item (filterResults results topic).
Proof.
  intros Hex Hin Hmatch.
  assert (Hrej : accepts topic item = false).
  { unfold accepts, page_text. rewrite Hex.
    replace (existsb _ excludes) with true; [reflexivity|].
    symmetry. apply existsb_exists. eauto. }
  split; [exact Hrej|].
  unfold filterResults. intros Hkept.
  apply filter_In in Hkept. destruct Hkept as [_ Hacc]. congruence.
Qed.

(** *** [removeDuplicates] *)

Lemma find_app_cases {A} (f : A -> bool) (l l' : list A) :
  find f (l ++ l') = match find f l with Some x => Some x | None => find f l' end.
Proof.
  induction l as [|x l IH]; simpl; [reflexivity|].
  destruct (f x); [reflexivity | exact IH].
Qed.

Lemma first_with_key_None key pages :
  first_with_key key pages = None <-> ~ In key (map page_key pages).
Proof.
  unfold first_with_key. split.
  - intros Hnone Hin. apply in_map_iff in Hin. destruct Hin as (q & Hq & Hin).
    pose proof (find_none _ _ Hnone q Hin) as Hf. simpl in Hf.
    apply bool_decide_eq_false in Hf. congruence.
  - intros Hn. destruct (find _ pages) as [q|] eqn:E; [|reflexivity].
    apply find_some in E. destruct E as [Hin Hf].
    apply bool_decide_eq_true in Hf. exfalso. apply Hn.
    apply in_map_iff. eauto.
Qed.

(** What the [seen] map holds after the loop has read [pages]. *)
Lemma seen_after (pages : list Page) :
  let seen := fold_left seen_step pages [] in
  NoDup (OMap.keys seen) /\
  (forall k q, In (k, q) seen ->
     k = page_key q /\ truthy k = true /\ first_with_key k pages = Some q) /\
  (forall q, In q pages -> truthy (page_key q) = true ->
     In (page_key q) (OMap.keys seen)) /\
  sublist (OMap.values seen) pages.
Proof.
  induction pages as [|p pages IH] using rev_ind; simpl.
  - refine (conj _ (conj _ (conj _ _))); try constructor; intros; contradiction.
  - rewrite fold_left_app. simpl.
    set (seen := fold_left seen_step pages []) in *.
    destruct IH as (Hnd & Hent & Hcov & Hsub).
    assert (Hold : forall k q, In (k, q) seen ->
              k = page_key q /\ truthy k = true /\
              first_with_key k (pages ++ [p]) = Some q).
    { intros k q Hin. destruct (Hent k q Hin) as (Hk & Htr & Hfirst).
      refine (conj Hk (conj Htr _)).
      unfold first_with_key in *. now rewrite find_app_cases, Hfirst. }
    unfold seen_step.
    destruct (truthy (page_key p)) eqn:Htr; simpl;
      [destruct (OMap.has (page_key p) seen) eqn:Hhas; simpl|].
    + (* the key is already there: the later duplicate is dropped *)
      apply omap_has_true in Hhas.
      refine (conj Hnd (conj Hold (conj _ _))); [|now apply sublist_inserts_r].
      intros q Hin Hq. apply in_app_or in Hin. destruct Hin as [Hin|[<-|[]]].
      * now apply Hcov.
      * exact Hhas.
    + (* a new key: the page goes to the end *)
      pose proof Hhas as Hget. unfold OMap.has in Hget.
      destruct (OMap.get (page_key p) seen) eqn:Hg; [discriminate|].
      rewrite (omap_set_absent _ _ _ Hg).
      apply omap_has_false in Hhas.
      unfold OMap.keys, OMap.values in *. rewrite !map_app. simpl.
      refine (conj _ (conj _ (conj _ _))).
      * apply NoDup_app. refine (conj Hnd (conj _ _)); [|apply NoDup_singleton].
        intros x Hx Hx'. apply list_elem_of_In in Hx.
        apply list_elem_of_In in Hx'. destruct Hx' as [<-|[]]. tauto.
      * intros k q Hin. apply in_app_or in Hin. destruct Hin as [Hin|[Heq|[]]].
        -- now apply Hold.
        -- inversion Heq; subst. refine (conj eq_refl (conj Htr _)).
           unfold first_with_key. rewrite find_app_cases.
           replace (find _ pages) with (@None Page).
           ++ simpl. now rewrite bool_decide_eq_true_2.
           ++ symmetry. apply first_with_key_None. intros Hin.
              apply in_map_iff in Hin. destruct Hin as (q' & Hk & Hin).
              apply Hhas. rewrite <- Hk. apply Hcov; [exact Hin | congruence].
      * intros q Hin Hq. apply in_or_app.
        apply in_app_or in Hin. destruct Hin as [Hin|[<-|[]]].
        -- left. now apply Hcov.
        -- right. now left.
      * apply sublist_app; [exact Hsub | reflexivity].
    + (* no key: the page is dropped *)
      refine (conj Hnd (conj Hold (conj _ _))); [|now apply sublist_inserts_r].
      intros q Hin Hq. apply in_app_or in Hin. destruct Hin as [Hin|[<-|[]]].
      * now apply Hcov.
      * congruence.
Qed.


Lemma in_values_entry (seen : list (JsStr * Page)) (p : Page) :
  In p (OMap.values seen) -> exists k, In (k, p) seen.
Proof.
  unfold OMap.values. intros Hin. apply in_map_iff in Hin.
  destruct Hin as ([k q] & Heq & Hin). simpl in Heq. subst. eauto.
Qed.


Lemma removeDuplicates_first pages p :
  In p (removeDuplicates pages) ->
  truthy (page_key p) = true /\ first_with_key (page_key p) pages = Some p.
Proof.
  destruct (seen_after pages) as (_ & Hent & _ & _).
  intros Hin. apply in_values_entry in Hin. destruct Hin as (k & Hin).
  destruct (Hent k p Hin) as (-> & Htr & Hfirst). auto.
Qed.



Lemma page_key_falsy item :
  truthy (node_token item) = false -> truthy (obj_token item) = false ->
  truthy (page_key item) = false.
Proof. unfold page_key, js_or. intros -> Hobj. exact Hobj. Qed.

(** C10. An item with neither a [node_token] nor an [obj_token] (undefined,
    or empty) is never among the pages [removeDuplicates] returns, and the
    result is the one the list without the item gives. *)
Theorem removeDuplicates_drops_keyless (before after : list Page) (item : Page) :
  truthy (node_token item) = false ->
  truthy (obj_token item) = false ->
  ~ In item (removeDuplicates (before ++ item :: after)) /\
  removeDuplicates (before ++ item :: after) = removeDuplicates (before ++ after).
Proof.
  intros Hnode Hobj.
  pose proof (page_key_falsy item Hnode Hobj) as Hkey.
  split.
  - intros Hin. apply removeDuplicates_first in Hin. destruct Hin as [Htr _].
    congruence.
  - unfold removeDuplicates. rewrite !fold_left_app. simpl.
    unfold seen_step at 2. now rewrite Hkey.
Qed.

End crawl_facts.

(** ** Reasoning about manager programs *)

Section program_facts.
Import WikiIndex Spec MoreSpec.
Local Open Scope js_scope.
Context {Pattern : Type} `{RegExpOps Pattern} {R : Type} `{AgentOps R}.
Local Abbreviation M := (M Pattern R).
Local Abbreviation World := (World Pattern R).

Lemma wp_ret {A} (a : A) (Q : Outcome A -> World -> Prop) w :
  Q (Returned a) w -> wp (ret a) Q w.
Proof. exact (fun q => q). Qed.

Lemma wp_throw {A} e (Q : Outcome A -> World -> Prop) w :
  Q (Thrown e) w -> wp (throw e) Q w.
Proof. exact (fun q => q). Qed.

Lemma wp_bind {A B} (m : M A) (k : A -> M B) (Q : Outcome B -> World -> Prop) w :
  wp m (fun o w' =>
    match o with
    | Returned a => wp (k a) Q w'
    | Thrown e => Q (Thrown e) w'
    end) w ->
  wp (bind m k) Q w.
Proof. unfold wp, bind. destruct (m w) as [[a|e] w']; simpl; auto. Qed.

Lemma wp_try_catch {A} (m : M A) (handler : string -> M A)
    (Q : Outcome A -> World -> Prop) w :
  wp m (fun o w' =>
    match o with
    | Returned a => Q (Returned a) w'
    | Thrown e => wp (handler e) Q w'
    end) w ->
  wp (try_catch m handler) Q w.
Proof. unfold wp, try_catch. destruct (m w) as [[a|e] w']; simpl; auto. Qed.

Lemma wp_mono {A} (m : M A) (Q Q' : Outcome A -> World -> Prop) w :
  (forall o w', Q o w' -> Q' o w') -> wp m Q w -> wp m Q' w.
Proof. unfold wp. auto. Qed.

Lemma wp_and {A} (m : M A) (Q Q' : Outcome A -> World -> Prop) w :
  wp m Q w -> wp m Q' w -> wp m (fun o w' => Q o w' /\ Q' o w') w.
Proof. unfold wp. auto. Qed.

Lemma wp_run {A} (m : M A) (Q : Outcome A -> World -> Prop) w :
  wp m Q w -> forall o w', m w = (o, w') -> Q o w'.
Proof. unfold wp. intros HQ o w' E. now rewrite E in HQ. Qed.

Lemma wp_within {A} Rel (m : M A) w :
  within Rel m -> wp m (fun _ w' => Rel w w') w.
Proof. intros Hm. apply Hm. Qed.

(** The loop rule: [Inv done acc] holds after the elements [done]. *)
Lemma wp_for_of {X S} (Inv : list X -> S -> World -> Prop)
    (body : S -> X -> M S) (xs : list X) :
  (forall done x acc w, Inv done acc w ->
     wp (body acc x) (fun o w' =>
       exists acc', o = Returned acc' /\ Inv (done ++ [x])%list acc' w') w) ->
  forall done acc w, Inv done acc w ->
    wp (for_of xs acc body) (fun o w' =>
      exists acc', o = Returned acc' /\ Inv (done ++ xs)%list acc' w') w.
Proof.
  intros Hbody. induction xs as [|x xs IH]; intros done acc w HI; simpl.
  - apply wp_ret. exists acc. now rewrite app_nil_r.
  - apply wp_bind. eapply wp_mono; [|apply (Hbody done x acc w HI)].
    intros o w' (acc' & -> & HI'). simpl.
    eapply wp_mono; [|apply (IH _ _ _ HI')].
    intros o w'' (acc'' & -> & HI''). exists acc''.
    now rewrite <- app_assoc in HI''.
Qed.

Section frames.
Context (Rel : World -> World -> Prop) `{!PreOrder Rel}.

Lemma within_ret {A} (a : A) : within Rel (ret a).
Proof. intros w. reflexivity. Qed.

Lemma within_throw {A} e : within Rel (@throw Pattern R A e).
Proof. intros w. reflexivity. Qed.

Lemma within_bind {A B} (m : M A) (k : A -> M B) :
  within Rel m -> (forall a, within Rel (k a)) -> within Rel (bind m k).
Proof.
  intros Hm Hk w. unfold bind. specialize (Hm w).
  destruct (m w) as [[a|e] w']; simpl in *; [|exact Hm].
  etransitivity; [exact Hm | apply Hk].
Qed.

Lemma within_try_catch {A} (m : M A) (handler : string -> M A) :
  within Rel m -> (forall e, within Rel (handler e)) ->
  within Rel (try_catch m handler).
Proof.
  intros Hm Hh w. unfold try_catch. specialize (Hm w).
  destruct (m w) as [[a|e] w']; simpl in *; [exact Hm|].
  etransitivity; [exact Hm | apply Hh].
Qed.

Lemma within_for_of {X S} (body : S -> X -> M S) (xs : list X) :
  (forall acc x, within Rel (body acc x)) ->
  forall acc, within Rel (for_of xs acc body).
Proof.
  intros Hbody. induction xs as [|x xs IH]; intros acc; simpl.
  - apply within_ret.
  - apply within_bind; [apply Hbody | intros acc'; apply IH].
Qed.

Lemma within_this : within Rel this.
Proof. intros w. reflexivity. Qed.

Lemma within_now : within Rel now.
Proof. intros w. reflexivity. Qed.
End frames.

(** *** What the console readers see of one more entry *)

Lemma attempts_app l l' : attempts (l ++ l') = (attempts l ++ attempts l')%list.
Proof. apply List.filter_app. Qed.

Lemma item_failures_app l l' :
  item_failures (l ++ l') = item_failures l + item_failures l'.
Proof.
  unfold item_failures. rewrite List.filter_app, length_app. lia.
Qed.

Lemma topics_done_app l l' :
  topics_done (l ++ l') = (topics_done l ++ topics_done l')%list.
Proof. apply flat_map_app. Qed.

Lemma sum_log_app f l l' : sum_log f (l ++ l') = sum_log f l + sum_log f l'.
Proof.
  unfold sum_log. induction l as [|e l IH]; simpl; [reflexivity|].
  rewrite IH. lia.
Qed.

Lemma unaccounted_app l l' : unaccounted (l ++ l') = unaccounted l + unaccounted l'.
Proof. apply sum_log_app. Qed.

Lemma item_failures_cons e l :
  item_failures (e :: l) = (if is_item_failure e then 1 else 0) + item_failures l.
Proof.
  unfold item_failures. simpl. destruct (is_item_failure e); simpl length; lia.
Qed.

Lemma item_failures_nil : item_failures [] = 0.
Proof. reflexivity. Qed.




Lemma item_failures_nonneg l : 0 <= item_failures l.
Proof. unfold item_failures. lia. Qed.

(** *** [createShortcut] and the page loop, step by step *)

Lemma createShortcut_run index target space (w : World) :
  createShortcut index target space w =
  match CREATE_NODE index target space (agent w) with
  | (Returned result, r') =>
      (Returned result,
       {| agent := r'; mgr := mgr w;
          console := (console w ++ [LogCreating target index; LogCreated result])%list;
          clock := clock w |})
  | (Thrown e, r') =>
      (Thrown e,
       {| agent := r'; mgr := mgr w;
          console := (console w ++ [LogCreating target index; LogCreateFailed e])%list;
          clock := clock w |})
  end.
Proof.
  unfold createShortcut, bind, try_catch, log, call, ret, throw. simpl.
  destruct (CREATE_NODE index target space (agent w)) as [[result|e] r'];
    simpl; now rewrite <- app_assoc.
Qed.

Lemma process_page_run index (indexPage : IndexPage Pattern) existingTokens
    (topic : Topic Pattern) created skipped page (w : World) :
  process_page index indexPage existingTokens topic (created, skipped) page w =
  let target := page_key page in
  let space := js_or (space_id page) (Some (ip_spaceId indexPage)) in
  if bool_decide (target ∈ existingTokens) then (Returned (created, skipped + 1), w)
  else
    match CREATE_NODE index target space (agent w) with
    | (Returned result, r') =>
        (Returned (created + 1, skipped),
         {| agent := r';
            mgr :=
              {| wikis := wikis (mgr w);
                 indexPages := indexPages (mgr w);
                 shortcuts :=
                   push_shortcut target
                     {| targetNodeToken := target;
                        targetTitle := title page;
                        targetSpaceId := space;
                        indexNodeToken := index;
                        topicId := id topic;
                        createdAt := clock w;
                        matchedKeywords := keywords topic |}
                     (shortcuts (mgr w));
                 searchCache := searchCache (mgr w) |};
            console := (console w ++ [LogCreating target index; LogCreated result])%list;
            clock := clock w + 500 |})
    | (Thrown e, r') =>
        (Returned (created, skipped),
         {| agent := r'; mgr := mgr w;
            console := (console w ++ [LogCreating target index; LogCreateFailed e;
                                      LogItemFailed (title page) e])%list;
            clock := clock w |})
    end.
Proof.
  unfold process_page. simpl.
  destruct (bool_decide (page_key page ∈ existingTokens)); [reflexivity|].
  unfold try_catch at 1. unfold bind at 1. rewrite createShortcut_run.
  destruct (CREATE_NODE index _ _ (agent w)) as [[result|e] r']; simpl.
  - reflexivity.
  - unfold bind, log, ret. simpl. now rewrite <- app_assoc.
Qed.

(** *** The crawl leaves records and counted console entries alone *)

#[global] Instance crawled_preorder : PreOrder (@crawled Pattern R).
Proof.
  split.
  - intros w. repeat split. exists []. now rewrite app_nil_r.
  - intros w1 w2 w3 (Hw & Hi & Hs & e1 & Hc1 & He1) (Hw' & Hi' & Hs' & e2 & Hc2 & He2).
    repeat split; try congruence.
    exists (e1 ++ e2)%list. split.
    + now rewrite Hc2, Hc1, app_assoc.
    + rewrite forallb_app, He1, He2. reflexivity.
Qed.

Lemma neutral_readers extra :
  forallb neutral extra = true ->
  attempts extra = [] /\ item_failures extra = 0 /\
  topics_done extra = [] /\ unaccounted extra = 0.
Proof.
  unfold attempts, item_failures, topics_done, unaccounted, sum_log.
  induction extra as [|e extra IH]; simpl; [auto|].
  intros Hn. apply andb_prop in Hn. destruct Hn as [He Hn].
  destruct (IH Hn) as (Ha & Hf & Ht & Hu).
  destruct e; simpl in *; try discriminate; rewrite ?Ha, ?Ht, ?Hu; auto.
Qed.

Lemma crawled_readers (w w' : World) :
  crawled w w' ->
  attempts (console w') = attempts (console w) /\
  item_failures (console w') = item_failures (console w) /\
  topics_done (console w') = topics_done (console w) /\
  unaccounted (console w') = unaccounted (console w).
Proof.
  intros (_ & _ & _ & extra & -> & Hn).
  destruct (neutral_readers extra Hn) as (Ha & Hf & Ht & Hu).
  rewrite attempts_app, item_failures_app, topics_done_app, unaccounted_app.
  rewrite Ha, Hf, Ht, Hu, !app_nil_r. repeat split; lia.
Qed.

Lemma crawled_log e : neutral e = true -> within crawled (log e : M unit).
Proof.
  intros He w. repeat split. exists [e]. simpl. now rewrite He.
Qed.







(** Only pages the topic's filter accepts are gathered. *)
Lemma gatherTopicPages_accepted (topic : Topic Pattern) (w : World) :
  wp (gatherTopicPages topic) (fun o _ =>
    forall allPages, o = Returned allPages ->
      forall q, In q allPages -> accepts topic q = true) w.
Proof.
  set (Inv := fun (_ : list WikiInfo) (acc : list Page) (_ : World) =>
                forall q, In q acc -> accepts topic q = true).
  unfold gatherTopicPages. apply wp_bind. unfold wp at 1, this. simpl.
  eapply wp_mono; [|apply (wp_for_of Inv) with (done := [])].
  - intros o w' (acc & -> & Hacc) allPages Heq. inversion Heq; subst. exact Hacc.
  - clear w. intros done wiki acc w Hacc. unfold gather_wiki.
    destruct (negb (searchEnabled wiki)); [apply wp_ret; eauto|].
    apply wp_bind. unfold wp at 1, log. simpl.
    set (Inv2 := fun (_ : list string) (acc : list Page) (_ : World) =>
                   forall q, In q acc -> accepts topic q = true).
    eapply wp_mono; [|apply (wp_for_of Inv2) with (done := [])].
    + intros o w' (acc' & -> & Hacc'). eauto.
    + clear. intros done keyword acc w Hacc. unfold gather_keyword.
      apply wp_try_catch. apply wp_bind.
      unfold wp at 1. destruct (searchWiki (spaceId wiki) keyword w) as [[results|e] w'].
      * simpl. apply wp_bind. unfold wp at 1, log. simpl. apply wp_ret.
        eexists. split; [reflexivity|]. intros q Hin.
        apply in_app_or in Hin. destruct Hin as [Hin|Hin]; [now apply Hacc|].
        unfold filterResults in Hin. apply filter_In in Hin. tauto.
      * simpl. apply wp_bind. unfold wp at 1, log. simpl. apply wp_ret. eauto.
    + exact Hacc.
  - intros q [].
Qed.


(** *** The crawl gathers what its searches find *)









(** *** The bulk attach *)

Lemma addToMultipleIndexes_loop target space (indexNodeTokens : list string) :
  forall w : World, exists w',
    for_of indexNodeTokens tt (fun _ indexToken =>
      try_catch
        (createShortcut indexToken (Some target) (Some space);; delay 500)
        (fun e => log (LogAddFailed indexToken e))) w = (Returned tt, w') /\
    mgr w' = mgr w /\
    attempts (console w') =
      (attempts (console w) ++
       map (fun i => LogCreating (Some target) i) indexNodeTokens)%list.
Proof.
  induction indexNodeTokens as [|i rest IH]; intros w; simpl.
  - exists w. now rewrite app_nil_r.
  - unfold bind at 1, try_catch, bind at 1. rewrite createShortcut_run.
    destruct (CREATE_NODE i (Some target) (Some space) (agent w)) as [[result|e] r'];
      simpl;
      match goal with |- context [for_of rest tt _ ?w1] =>
        destruct (IH w1) as (w' & Hrun & Hmgr & Hatt) end;
      exists w'; (split; [exact Hrun|]); (split; [exact Hmgr|]).
      all: rewrite Hatt; cbn [console]; rewrite !attempts_app; cbn;
        rewrite <- ?app_assoc, ?app_nil_r; reflexivity.
Qed.

(** C9. [addToMultipleIndexes] starts one link creation per index token and
    returns, and leaves the manager's fields as they were: no [ShortcutInfo]
    is recorded, and [getStatistics] answers as before. *)
Theorem addToMultipleIndexes_records_nothing
    (target space : string) (indexNodeTokens : list string) (w : World) :
  exists w',
    addToMultipleIndexes target space indexNodeTokens w = (Returned tt, w') /\
    attempts (console w') =
      (attempts (console w) ++
       map (fun i => LogCreating (Some target) i) indexNodeTokens)%list /\
    shortcuts (mgr w') = shortcuts (mgr w) /\
    getStatistics (mgr w') = getStatistics (mgr w).
Proof.
  unfold addToMultipleIndexes, bind at 1. simpl.
  match goal with |- context [for_of _ tt _ ?w1] =>
    destruct (addToMultipleIndexes_loop target space indexNodeTokens w1)
      as (w' & Hrun & Hmgr & Hatt) end.
  exists w'. split; [exact Hrun|]. simpl in Hmgr, Hatt.
  rewrite Hatt, attempts_app, Hmgr. simpl. now rewrite app_nil_r.
Qed.

(** *** The page loop and the topic loop of [updateIndexPage] *)


(** Within one topic the page loop starts at most one creation per target:
    the candidates of a topic have pairwise different identities. *)
Lemma page_loop_targets_distinct (index : string) (existingTokens : list JsStr)
    (pages : list Page) :
  NoDup (map page_key pages) ->
  NoDup (map (fun p => LogCreating (page_key p) index)
           (List.filter (fun p => negb (bool_decide (page_key p ∈ existingTokens)))
              pages)).
Proof.
  induction pages as [|page pages IH]; cbn [map List.filter]; intros Hnd.
  - constructor.
  - apply NoDup_cons in Hnd. destruct Hnd as [Hnotin Hnd].
    destruct (negb (bool_decide (page_key page ∈ existingTokens))); [|auto].
    cbn [map]. apply NoDup_cons. split; [|auto].
    intros Hin. apply Hnotin. apply list_elem_of_In in Hin.
    apply in_map_iff in Hin. destruct Hin as (q & [= Hq] & Hqin).
    apply filter_In in Hqin. apply list_elem_of_In, in_map_iff.
    exists q. tauto.
Qed.

Lemma process_topic_unfold index (indexPage : IndexPage Pattern) existingTokens
    (topic : Topic Pattern) (w : World) :
  process_topic index indexPage existingTokens tt topic w =
  match gatherTopicPages topic
          (snd (log (LogCollecting (name topic))
             (snd (log (LogProcessingTopic (name topic)) w)))) with
  | (Returned allPages, w1) =>
      match for_of (removeDuplicates allPages) (0, 0)
              (process_page index indexPage existingTokens topic)
              (snd (log (LogTotalUnique
                 (Z.of_nat (length (removeDuplicates allPages)))) w1)) with
      | (Returned counters, wc) =>
          (Returned tt,
           snd (log (LogTopicDone (name topic) (fst counters) (snd counters)) wc))
      | (Thrown e, wc) => (Thrown e, wc)
      end
  | (Thrown e, w1) => (Thrown e, w1)
  end.
Proof.
  unfold process_topic, collectTopicPages, bind. cbn [log fst snd].
  destruct (gatherTopicPages topic _) as [[allPages|e] w1]; [|reflexivity].
  cbn [log fst snd ret].
  destruct (for_of (removeDuplicates allPages) _ _ _) as [[counters|e] wc];
    reflexivity.
Qed.

Lemma attempts_snoc l e : is_attempt e = false -> attempts (l ++ [e]) = attempts l.
Proof. intros He. rewrite attempts_app. cbn. rewrite He. apply app_nil_r. Qed.



(** *** Every candidate of every topic gets its turn *)

#[global] Instance same_counts_preorder : PreOrder (@same_counts Pattern R).
Proof.
  split.
  - intros w. repeat split.
  - intros w1 w2 w3 (Ha & Hf & Hc) (Ha' & Hf' & Hc'). repeat split; congruence.
Qed.








End program_facts.

(** ** A second pass over an unchanged wiki *)

Section replay_facts.
Import WikiIndex Spec.
Local Open Scope js_scope.
Context {Pattern : Type} `{RegExpOps Pattern} {R : Type} `{AgentOps R}.
Local Abbreviation M := (M Pattern R).
Local Abbreviation World := (World Pattern R).

#[global] Instance evolves_preorder : PreOrder (@evolves Pattern R _).
Proof.
  split.
  - intros w. unfold evolves. repeat split; reflexivity.
  - intros w1 w2 w3 (Hw & Hi & Hc & Hf & Hr) (Hw' & Hi' & Hc' & Hf' & Hr').
    unfold evolves. repeat split; try congruence.
    + etransitivity; eassumption.
    + lia.
    + eapply rtc_trans; eassumption.
Qed.

Lemma evolves_log e (w : World) : evolves w (snd (log e w)).
Proof.
  unfold evolves. simpl. repeat split; try reflexivity.
  rewrite item_failures_app. pose proof (item_failures_nonneg [e]). lia.
Qed.

Lemma stable_ret {A} (a : A) (w : World) : stable (ret a) w a w.
Proof.
  split; [reflexivity|]. split; [reflexivity|]. split; [reflexivity|].
  intros wb _ _. exists wb. split; [reflexivity|].
  split; [reflexivity|]. split; [reflexivity|]. split; reflexivity.
Qed.

Lemma stable_log e (w : World) :
  neutral e = true -> stable (log e) w tt (snd (log e w)).
Proof.
  intros He. split; [reflexivity|]. split; [apply evolves_log|].
  split; [now apply (crawled_log e)|].
  intros wb _ _. eexists. split; [reflexivity|].
  split; [reflexivity|]. split; [reflexivity|]. split; [reflexivity|].
  now apply (crawled_log e).
Qed.

Lemma stable_bind {A B} (m : M A) (k : A -> M B) (w w1 w2 : World) a b :
  stable m w a w1 -> stable (k a) w1 b w2 -> stable (bind m k) w b w2.
Proof.
  intros (Hrun & Hev & Hcr & Hrep) (Hrun' & Hev' & Hcr' & Hrep').
  split; [unfold bind; now rewrite Hrun|].
  split; [etransitivity; eassumption|].
  split; [etransitivity; eassumption|].
  intros wb Hwikis Hcache.
  destruct Hev' as (Hw' & _ & Hc' & _).
  destruct (Hrep wb) as (wb1 & Hb1 & Hm1 & Ha1 & Hk1 & Hcr1).
  { congruence. }
  { etransitivity; eassumption. }
  destruct (Hrep' wb1) as (wb2 & Hb2 & Hm2 & Ha2 & Hk2 & Hcr2).
  { now rewrite Hm1. }
  { now rewrite Hm1. }
  exists wb2. split; [unfold bind; now rewrite Hb1|].
  split; [congruence|]. split; [congruence|]. split; [congruence|].
  etransitivity; eassumption.
Qed.

Lemma stable_try_catch {A} (m : M A) handler (w w' : World) a :
  stable m w a w' -> stable (try_catch m handler) w a w'.
Proof.
  intros (Hrun & Hev & Hcr & Hrep).
  split; [unfold try_catch; now rewrite Hrun|].
  split; [exact Hev|]. split; [exact Hcr|].
  intros wb Hwikis Hcache.
  destruct (Hrep wb Hwikis Hcache) as (wb' & Hb & Hrest).
  exists wb'. split; [unfold try_catch; now rewrite Hb | exact Hrest].
Qed.

(** A loop whose body is stable from every world in [P] is stable. *)
Lemma stable_for_of {X S} (P : World -> Prop) (body : S -> X -> M S) (xs : list X) :
  (forall w w', P w -> evolves w w' -> P w') ->
  (forall acc x w, P w -> exists acc' w', stable (body acc x) w acc' w') ->
  forall acc w, P w -> exists acc' w', stable (for_of xs acc body) w acc' w'.
Proof.
  intros HP Hbody. induction xs as [|x xs IH]; intros acc w Hw; simpl.
  - exists acc, w. apply stable_ret.
  - destruct (Hbody acc x w Hw) as (acc1 & w1 & Hst1).
    destruct (IH acc1 w1) as (acc2 & w2 & Hst2).
    { eapply HP; [exact Hw | apply Hst1]. }
    exists acc2, w2. eapply stable_bind; eassumption.
Qed.

(** *** The remote answers searches as before and lists what it links *)

Section unchanged_wiki.
Variable index : string.
Variable source : string -> string -> option (list Page).
Variable r0 : R.

Hypothesis searches_answered : forall r, reach r0 r ->
  forall space keyword, fst (SEARCH_WIKI space keyword r) = Returned (source space keyword).

Hypothesis links_listed : forall r, reach r0 r ->
  forall target space result r',
    CREATE_NODE index target space r = (Returned result, r') ->
    listed index r' target.

Hypothesis listing_kept : forall r r', reach r0 r -> agent_step r r' ->
  forall target, listed index r target -> listed index r' target.

Lemma listing_kept_reach r r' :
  reach r0 r -> reach r r' ->
  forall target, listed index r target -> listed index r' target.
Proof.
  intros Hr Hstep. induction Hstep as [r|r r1 r2 Hs Hsteps IH]; [auto|].
  intros target Hl. apply IH.
  - eapply rtc_trans; [exact Hr | now apply rtc_once].
  - now apply (listing_kept r r1).
Qed.

Lemma reach_evolves (w w' : World) :
  reach r0 (agent w) -> evolves w w' -> reach r0 (agent w').
Proof. intros Hr (_ & _ & _ & _ & Hstep). eapply rtc_trans; eassumption. Qed.

Lemma stable_searchWiki space keyword (w : World) :
  reach r0 (agent w) ->
  exists items w', stable (searchWiki space keyword) w items w'.
Proof.
  intros Hr. unfold stable, searchWiki, bind at 1. cbn [this fst snd].
  destruct (searchCache (mgr w) !! cacheKey space keyword) as [items|] eqn:Hhit.
  - exists items, w. split; [reflexivity|]. split; [reflexivity|].
    split; [reflexivity|]. intros wb _ Hcache.
    exists wb. unfold bind at 1. cbn [this fst snd].
    rewrite (lookup_weaken _ _ _ _ Hhit Hcache).
    split; [reflexivity|]. split; [reflexivity|]. split; [reflexivity|].
    split; reflexivity.
  - pose proof (searches_answered _ Hr space keyword) as Hans.
    unfold bind at 1, call.
    destruct (SEARCH_WIKI space keyword (agent w)) as [o r'] eqn:Hcall.
    simpl in Hans. subst o. cbn [fst snd bind set_this ret mgr].
    eexists. eexists. split; [reflexivity|].
    split; [|split].
    + unfold evolves. cbn. split; [reflexivity|]. split; [reflexivity|].
      split; [now apply insert_subseteq|]. split; [lia|].
      apply rtc_once.
      replace r' with (snd (SEARCH_WIKI space keyword (agent w)))
        by now rewrite Hcall.
      constructor.
    + unfold crawled. cbn. repeat split. exists []. now rewrite app_nil_r.
    + intros wb _ Hcache. cbn in Hcache.
      exists wb. unfold bind at 1. cbn [this fst snd].
      assert (Hin : searchCache (mgr wb) !! cacheKey space keyword =
                    Some (match source space keyword with Some l => l | None => [] end)).
      { eapply lookup_weaken; [|exact Hcache]. apply lookup_insert_eq. }
      rewrite Hin.
      split; [reflexivity|]. split; [reflexivity|]. split; [reflexivity|].
      split; reflexivity.
Qed.

Lemma stable_gather_keyword (topic : Topic Pattern) wiki allPages keyword (w : World) :
  reach r0 (agent w) ->
  exists allPages' w', stable (gather_keyword topic wiki allPages keyword) w allPages' w'.
Proof.
  intros Hr. destruct (stable_searchWiki (spaceId wiki) keyword w Hr)
    as (items & w1 & Hst).
  eexists. eexists. unfold gather_keyword. apply stable_try_catch.
  eapply stable_bind; [exact Hst|]. cbv beta zeta.
  eapply stable_bind; [now apply stable_log|]. apply stable_ret.
Qed.

Lemma stable_gather_wiki (topic : Topic Pattern) allPages wiki (w : World) :
  reach r0 (agent w) ->
  exists allPages' w', stable (gather_wiki topic allPages wiki) w allPages' w'.
Proof.
  intros Hr. unfold gather_wiki.
  destruct (negb (searchEnabled wiki)).
  - eexists. eexists. apply stable_ret.
  - destruct (stable_for_of (fun w => reach r0 (agent w))
                (gather_keyword topic wiki) (keywords topic)
                reach_evolves
                (fun acc x w Hw => stable_gather_keyword topic wiki acc x w Hw)
                allPages (snd (log (LogSearchingIn (spaceName wiki)) w)) Hr)
      as (acc' & w' & Hst).
    exists acc', w'. eapply stable_bind; [now apply stable_log | exact Hst].
Qed.

Lemma stable_gatherTopicPages (topic : Topic Pattern) (w : World) :
  reach r0 (agent w) ->
  exists allPages w', stable (gatherTopicPages topic) w allPages w'.
Proof.
  intros Hr.
  destruct (stable_for_of (fun w => reach r0 (agent w))
              (gather_wiki topic) (wikis (mgr w)) reach_evolves
              (fun acc x w Hw => stable_gather_wiki topic acc x w Hw) [] w Hr)
    as (allPages & w' & Hrun & Hev & Hcr & Hrep).
  exists allPages, w'. split; [exact Hrun|]. split; [exact Hev|].
  split; [exact Hcr|]. intros wb Hwikis Hcache.
  unfold gatherTopicPages, bind at 1. cbn [this fst snd].
  destruct Hev as (Hw & _). rewrite Hwikis, Hw. now apply Hrep.
Qed.

(** The page loop when every candidate is linked already. *)
Lemma second_pass_pages (indexPage : IndexPage Pattern) existingTokens
    (topic : Topic Pattern) (pages : list Page) :
  (forall p, In p pages -> page_key p ∈ existingTokens) ->
  forall created skipped (w : World),
    for_of pages (created, skipped)
      (process_page index indexPage existingTokens topic) w =
    (Returned (created, skipped + Z.of_nat (length pages)), w).
Proof.
  induction pages as [|page pages IH]; intros Hall created skipped w.
  - simpl. unfold ret. do 3 f_equal. lia.
  - cbn [for_of]. unfold bind at 1. rewrite process_page_run. cbv zeta.
    rewrite bool_decide_eq_true_2 by (apply Hall; now left).
    rewrite IH by (intros; apply Hall; now right).
    do 3 f_equal. cbn [length]. lia.
Qed.

(** The page loop of a first pass: unless a creation fails, every
    candidate is listed once the loop is over. *)
Lemma first_pass_pages (indexPage : IndexPage Pattern) existingTokens
    (topic : Topic Pattern) (pages : list Page) :
  forall created skipped (w : World),
    reach r0 (agent w) ->
    (forall target, target ∈ existingTokens -> listed index (agent w) target) ->
    exists created' skipped' w',
      for_of pages (created, skipped)
        (process_page index indexPage existingTokens topic) w =
        (Returned (created', skipped'), w') /\
      evolves w w' /\
      (item_failures (console w') = item_failures (console w) ->
       forall p, In p pages -> listed index (agent w') (page_key p)).
Proof.
  induction pages as [|page pages IH]; intros created skipped w Hr Hex.
  - exists created, skipped, w. split; [reflexivity|]. split; [reflexivity|].
    intros _ p [].
  - cbn [for_of]. unfold bind at 1. rewrite process_page_run. cbv zeta.
    destruct (bool_decide (page_key page ∈ existingTokens)) eqn:Hskip.
    + apply bool_decide_eq_true in Hskip.
      destruct (IH created (skipped + 1) w Hr Hex) as (c' & s' & w' & Hrun & Hev & Hl).
      exists c', s', w'. split; [exact Hrun|]. split; [exact Hev|].
      intros Hf p [<-|Hin]; [|now apply Hl].
      apply (listing_kept_reach (agent w)); [exact Hr | apply Hev | now apply Hex].
    + destruct (CREATE_NODE index (page_key page)
                  (js_or (space_id page) (Some (ip_spaceId indexPage))) (agent w))
        as [[result|e] r'] eqn:Hcall.
      * assert (Hstep : agent_step (agent w) r').
        { replace r' with (snd (CREATE_NODE index (page_key page)
            (js_or (space_id page) (Some (ip_spaceId indexPage))) (agent w)))
            by now rewrite Hcall.
          constructor. }
        assert (Hr' : reach r0 r').
        { eapply rtc_trans; [exact Hr | now apply rtc_once]. }
        match goal with |- context [for_of pages ?acc _ ?w1] =>
          destruct (IH (fst acc) (snd acc) w1) as (c' & s' & w' & Hrun & Hev & Hl);
          [exact Hr' | | assert (Hev1 : evolves w w1)] end.
        { intros target Hin. cbn [agent].
          apply (listing_kept (agent w)); auto. }
        { unfold evolves. cbn. split; [reflexivity|]. split; [reflexivity|].
          split; [reflexivity|]. split; [|now apply rtc_once].
          rewrite item_failures_app, !item_failures_cons, item_failures_nil.
          cbn. lia. }
        exists c', s', w'. split; [exact Hrun|].
        split; [etransitivity; eassumption|].
        cbn [console agent] in *.
        rewrite item_failures_app, !item_failures_cons, item_failures_nil in Hl.
        cbn in Hl.
        intros Hf p [<-|Hin].
        -- apply (listing_kept_reach r'); [exact Hr' | apply Hev |].
           eapply links_listed; [exact Hr | exact Hcall].
        -- apply Hl; [lia | exact Hin].
      * assert (Hstep : agent_step (agent w) r').
        { replace r' with (snd (CREATE_NODE index (page_key page)
            (js_or (space_id page) (Some (ip_spaceId indexPage))) (agent w)))
            by now rewrite Hcall.
          constructor. }
        assert (Hr' : reach r0 r').
        { eapply rtc_trans; [exact Hr | now apply rtc_once]. }
        match goal with |- context [for_of pages ?acc _ ?w1] =>
          destruct (IH (fst acc) (snd acc) w1) as (c' & s' & w' & Hrun & Hev & Hl);
          [exact Hr' | | assert (Hev1 : evolves w w1)] end.
        { intros target Hin. cbn [agent].
          apply (listing_kept (agent w)); auto. }
        { unfold evolves. cbn. split; [reflexivity|]. split; [reflexivity|].
          split; [reflexivity|]. split; [|now apply rtc_once].
          rewrite item_failures_app, !item_failures_cons, item_failures_nil.
          cbn. lia. }
        exists c', s', w'. split; [exact Hrun|].
        split; [etransitivity; eassumption|].
        destruct Hev as (_ & _ & _ & Hmono & _). cbn [console] in Hmono.
        rewrite item_failures_app, !item_failures_cons, item_failures_nil in Hmono.
        cbn in Hmono. intros Hf. exfalso. lia.
Qed.

(** A topic of a first pass: unless a creation fails, a later pass over
    the topic skips every candidate. *)
Lemma first_pass_topic (indexPage : IndexPage Pattern) existingTokens
    (topic : Topic Pattern) (w : World) :
  reach r0 (agent w) ->
  (forall target, target ∈ existingTokens -> listed index (agent w) target) ->
  exists w',
    process_topic index indexPage existingTokens tt topic w = (Returned tt, w') /\
    evolves w w' /\
    (item_failures (console w') = item_failures (console w) ->
     skips_all index (fun ex => process_topic index indexPage ex tt topic) w').
Proof.
  intros Hr Hex. rewrite process_topic_unfold.
  set (wa := snd (log (LogCollecting (name topic))
                (snd (log (LogProcessingTopic (name topic)) w)))).
  assert (Hwa : evolves w wa).
  { etransitivity; apply evolves_log. }
  destruct (stable_gatherTopicPages topic wa Hr) as (allPages & w1 & Hrun & Hev1 & Hcr1 & Hrep).
  rewrite Hrun. set (pages := removeDuplicates allPages).
  set (wb1 := snd (log (LogTotalUnique (Z.of_nat (length pages))) w1)).
  assert (Hr1 : reach r0 (agent w1)) by (apply (reach_evolves wa w1 Hr Hev1)).
  assert (Hwb1 : evolves w1 wb1) by apply evolves_log.
  destruct (first_pass_pages indexPage existingTokens topic pages 0 0 wb1)
    as (c' & s' & wc & Hloop & Hev2 & Hl).
  { exact Hr1. }
  { intros target Hin. apply (listing_kept_reach (agent w)); [exact Hr | apply Hev1 | auto]. }
  rewrite Hloop. cbn [fst snd].
  set (w' := snd (log (LogTopicDone (name topic) c' s') wc)).
  assert (Hw' : evolves wc w') by apply evolves_log.
  exists w'. split; [reflexivity|].
  assert (Hall : evolves w1 w').
  { etransitivity; [exact Hwb1|]. etransitivity; eassumption. }
  split; [etransitivity; [exact Hwa|]; etransitivity; eassumption|].
  intros Hf.
  assert (Hlisted : forall p, In p pages -> listed index (agent w') (page_key p)).
  { apply Hl.
    destruct Hwa as (_ & _ & _ & Hm0 & _). destruct Hev1 as (_ & _ & _ & Hm1 & _).
    destruct Hwb1 as (_ & _ & _ & Hm2 & _). destruct Hev2 as (_ & _ & _ & Hm3 & _).
    destruct Hw' as (_ & _ & _ & Hm4 & _). lia. }
  intros ex wb Hwikis Hcache Hin. rewrite process_topic_unfold.
  destruct Hall as (Hw1 & _ & Hc1 & _).
  destruct (Hrep (snd (log (LogCollecting (name topic))
                    (snd (log (LogProcessingTopic (name topic)) wb)))))
    as (wb1' & Hrunb & Hmgr & Hagent & _ & Hcrb).
  { cbn. congruence. }
  { cbn. etransitivity; eassumption. }
  rewrite Hrunb. fold pages.
  rewrite second_pass_pages by (intros p Hp; apply Hin; now apply Hlisted).
  eexists. split; [reflexivity|]. cbn [log fst snd mgr agent console] in *.
  split; [exact Hmgr|]. split; [exact Hagent|].
  apply crawled_readers in Hcrb. destruct Hcrb as (Hatt & _).
  cbn [console] in Hatt.
  rewrite !attempts_snoc by reflexivity. rewrite Hatt.
  now rewrite !attempts_snoc by reflexivity.
Qed.

Lemma skips_all_later prog (w1 w2 : World) :
  reach r0 (agent w1) -> evolves w1 w2 ->
  skips_all index prog w1 -> skips_all index prog w2.
Proof.
  intros Hr Hev Hskip ex wb Hwikis Hcache Hin.
  pose proof Hev as (Hw & _ & Hc & _ & Hstep).
  apply Hskip.
  - congruence.
  - etransitivity; eassumption.
  - intros target Hl. apply Hin.
    now apply (listing_kept_reach (agent w1)).
Qed.

(** The topic loop of a first pass. *)
Lemma first_pass_topics (indexPage : IndexPage Pattern) existingTokens
    (tps : list (Topic Pattern)) :
  forall w : World,
    reach r0 (agent w) ->
    (forall target, target ∈ existingTokens -> listed index (agent w) target) ->
    exists w',
      for_of tps tt (process_topic index indexPage existingTokens) w =
        (Returned tt, w') /\
      evolves w w' /\
      (item_failures (console w') = item_failures (console w) ->
       skips_all index
         (fun ex => for_of tps tt (process_topic index indexPage ex)) w').
Proof.
  induction tps as [|topic tps IH]; intros w Hr Hex.
  - exists w. split; [reflexivity|]. split; [reflexivity|].
    intros _ ex wb _ _ _. exists wb. repeat split; reflexivity.
  - destruct (first_pass_topic indexPage existingTokens topic w Hr Hex)
      as (w1 & Hrun1 & Hev1 & Hskip1).
    assert (Hr1 : reach r0 (agent w1)) by (apply (reach_evolves w w1 Hr Hev1)).
    destruct (IH w1 Hr1) as (w' & Hrun' & Hev' & Hskip').
    { intros target Hin.
      apply (listing_kept_reach (agent w)); [exact Hr | apply Hev1 | auto]. }
    exists w'. split; [cbn [for_of]; unfold bind at 1; now rewrite Hrun1|].
    split; [etransitivity; eassumption|].
    intros Hf.
    assert (Hf1 : item_failures (console w1) = item_failures (console w)).
    { destruct Hev1 as (_ & _ & _ & Hm1 & _). destruct Hev' as (_ & _ & _ & Hm2 & _). lia. }
    assert (Hf2 : item_failures (console w') = item_failures (console w1)) by lia.
    pose proof (skips_all_later _ w1 w' Hr1 Hev' (Hskip1 Hf1)) as Hs1.
    pose proof (Hskip' Hf2) as Hs2.
    intros ex wb Hwikis Hcache Hin.
    destruct (Hs1 ex wb Hwikis Hcache Hin) as (wb1 & Hb1 & Hm1 & Ha1 & Hatt1).
    destruct (Hs2 ex wb1) as (wb2 & Hb2 & Hm2 & Ha2 & Hatt2).
    { now rewrite Hm1. }
    { now rewrite Hm1. }
    { exact Hin. }
    exists wb2. split; [cbn [for_of]; unfold bind at 1; now rewrite Hb1|].
    repeat split; congruence.
Qed.

(** The manager by itself, for patterns whose [test] depends on the text
    alone: over a remote service that answers every search as before and
    lists, among the children of the index page, the links it has created
    with their origins, after a pass of [updateIndexPage] that returned
    without logging a failed link creation, a second pass starts no link
    creation and records nothing, so that [getStatistics] answers as
    before. The agent of the repository gives no such listing: see
    [Wiring] and the run over the server of [StoreDoubles]. *)
Theorem second_pass_creates_nothing (w0 w1 : World) :
  reach r0 (agent w0) ->
  updateIndexPage index w0 = (Returned tt, w1) ->
  item_failures (console w1) = item_failures (console w0) ->
  exists o w2,
    updateIndexPage index w1 = (o, w2) /\
    attempts (console w2) = attempts (console w1) /\
    shortcuts (mgr w2) = shortcuts (mgr w1) /\
    totalShortcuts (getStatistics (mgr w2)) = totalShortcuts (getStatistics (mgr w1)) /\
    getStatistics (mgr w2) = getStatistics (mgr w1).
Proof.
  intros Hr0 Hrun1 Hf.
  (* the first pass *)
  unfold updateIndexPage, bind at 1 in Hrun1. cbn [this fst snd] in Hrun1.
  destruct (indexPages (mgr w0) !! index) as [indexPage|] eqn:Hpage;
    [|discriminate].
  unfold bind at 1 in Hrun1. cbn [log fst snd] in Hrun1.
  unfold bind at 1, getExistingShortcuts, bind at 1, call in Hrun1.
  cbn [agent] in Hrun1.
  destruct (LIST_NODES index 500 (agent w0)) as [[items|e] rl] eqn:Hlist;
    [|discriminate].
  cbn [ret fst snd mgr console clock] in Hrun1.
  set (existing := map origin_node_token _) in Hrun1.
  assert (Hstep : agent_step (agent w0) rl).
  { replace rl with (snd (LIST_NODES index 500 (agent w0))) by now rewrite Hlist.
    constructor. }
  assert (Hrl : reach r0 rl).
  { eapply rtc_trans; [exact Hr0 | now apply rtc_once]. }
  unfold bind at 1 in Hrun1.
  match type of Hrun1 with context [for_of _ tt _ ?wl] =>
    destruct (first_pass_topics indexPage existing (topics indexPage) wl)
      as (wt & Hloop & Hev & Hskip) end.
  { exact Hrl. }
  { intros target Hin. cbn [agent].
    apply (listing_kept (agent w0)); [exact Hr0 | exact Hstep |].
    apply list_elem_of_In in Hin. apply in_map_iff in Hin.
    destruct Hin as (node & Horigin & Hnode). apply filter_In in Hnode.
    destruct Hnode as [Hnode Hshortcut]. apply bool_decide_eq_true in Hshortcut.
    destruct items as [l|]; [|destruct Hnode].
    exists l, node. rewrite Hlist. auto. }
  rewrite Hloop in Hrun1.
  cbn [log fst snd] in Hrun1. injection Hrun1 as <-.
  cbn [console] in Hf, Hskip.
  rewrite !item_failures_app, !item_failures_cons, item_failures_nil in Hf.
  cbn in Hf. rewrite item_failures_app, !item_failures_cons, item_failures_nil in Hskip.
  cbn in Hskip. specialize (Hskip ltac:(lia)).
  destruct Hev as (Hwikis & Hpages & _). cbn [mgr] in Hwikis, Hpages.
  (* the second pass *)
  unfold updateIndexPage, bind at 1. cbn [this fst snd mgr].
  rewrite Hpages, Hpage.
  unfold bind at 1. cbn [log fst snd].
  unfold bind at 1, getExistingShortcuts, bind at 1, call. cbn [agent].
  destruct (LIST_NODES index 500 (agent wt)) as [[items2|e] rl2] eqn:Hlist2.
  - cbn [ret fst snd mgr console clock].
    set (existing2 := map origin_node_token _).
    unfold bind at 1.
    match goal with |- context [for_of _ tt _ ?wb] =>
      destruct (Hskip existing2 wb) as (wb' & Hb & Hm & Ha & Hatt) end.
    { reflexivity. }
    { reflexivity. }
    { intros target (l & node & Hl & Hin & Hshortcut & Horigin).
      rewrite Hlist2 in Hl. injection Hl as ->.
      apply list_elem_of_In, in_map_iff. exists node. split; [exact Horigin|].
      apply filter_In. split; [exact Hin|]. now apply bool_decide_eq_true. }
    rewrite Hb. cbn [log fst snd].
    eexists. eexists. split; [reflexivity|]. cbn [console mgr] in *.
    rewrite attempts_snoc by reflexivity. rewrite Hatt.
    rewrite attempts_snoc by reflexivity. rewrite Hm.
    repeat split; reflexivity.
  - cbn [fst snd]. eexists. eexists. split; [reflexivity|]. cbn [console mgr].
    rewrite attempts_snoc by reflexivity. repeat split; reflexivity.
Qed.

End unchanged_wiki.

End replay_facts.

(** ** The correlator *)

Section correlator_facts.
Import MCP.
Context {Payload : Type} `{JsonOps Payload}.
Local Abbreviation Agent := (Agent Payload).
Implicit Types (st : Agent) (h : nat) (i j : Z).

Lemma settle_pendingRequests h s st :
  pendingRequests (settle h s st) = pendingRequests st.
Proof. unfold settle. now destruct (promises st !! h) as [[| |]|]. Qed.

Lemma settle_requestId h s st : requestId (settle h s st) = requestId st.
Proof. unfold settle. now destruct (promises st !! h) as [[| |]|]. Qed.

Lemma settle_stdin h s st : stdin (settle h s st) = stdin st.
Proof. unfold settle. now destruct (promises st !! h) as [[| |]|]. Qed.

Lemma settle_length h s st :
  length (promises (settle h s st)) = length (promises st).
Proof.
  unfold settle. destruct (promises st !! h) as [[| |]|]; simpl;
    now rewrite ?length_insert.
Qed.

(** Settling a pending promise gives it its state ... *)
Lemma settle_pending h s st :
  promises st !! h = Some Pending -> promises (settle h s st) !! h = Some s.
Proof.
  intros Hp. unfold settle. rewrite Hp. simpl.
  apply list_lookup_insert_eq. now apply lookup_lt_Some in Hp.
Qed.

(** ... a settled promise stays as it is ... *)
Lemma settle_settled h s st :
  promises st !! h <> Some Pending -> settle h s st = st.
Proof.
  intros Hp. unfold settle. destruct (promises st !! h) as [[| |]|]; congruence.
Qed.

(** ... and no other promise is touched. *)
Lemma settle_other h h' s st :
  h <> h' -> promises (settle h s st) !! h' = promises st !! h'.
Proof.
  intros Hne. unfold settle. destruct (promises st !! h) as [[| |]|]; simpl;
    try reflexivity.
  now apply list_lookup_insert_ne.
Qed.

Lemma wf_truthy_id st i h :
  wf st -> pendingRequests st !! i = Some h -> truthy_id (Some i) = true.
Proof.
  intros (_ & Hb & _) Hi. destruct (Hb i h Hi) as [Hpos _].
  unfold truthy_id. apply negb_true_iff. lia.
Qed.

(** A response whose id is pending: its entry is removed and its promise
    settled. *)
Lemma handle_response_pending st (response : MCPResponse Payload) i h :
  wf st -> resp_id response = Some i -> pendingRequests st !! i = Some h ->
  handle_response st response =
    settle h (settlement_of response)
      {| stdin := stdin st;
         requestId := requestId st;
         pendingRequests := delete i (pendingRequests st);
         promises := promises st |}.
Proof.
  intros Hwf Hid Hi. unfold handle_response, settlement_of.
  rewrite Hid, (wf_truthy_id st i h Hwf Hi), Hi.
  now destruct (error response).
Qed.

(** A response whose id is missing, zero or not pending is dropped. *)
Lemma handle_response_stray st (response : MCPResponse Payload) :
  (forall i, resp_id response = Some i -> i <> 0 -> pendingRequests st !! i = None) ->
  handle_response st response = st.
Proof.
  intros Hstray. unfold handle_response.
  destruct (resp_id response) as [i|] eqn:Hid; [|reflexivity].
  unfold truthy_id. destruct (Z.eqb_spec i 0); simpl; [reflexivity|].
  now rewrite (Hstray i eq_refl).
Qed.

Lemma handleMCPResponse_one data line (response : MCPResponse Payload) st :
  List.filter trim_truthy (split_lines data) = [line] ->
  JSON_parse line = Some response ->
  handleMCPResponse data st = handle_response st response.
Proof.
  intros Hlines Hparse. unfold handleMCPResponse. rewrite Hlines. simpl.
  unfold handle_line. now rewrite Hparse.
Qed.

(** *** Every agent the code builds is well formed *)

Lemma wf_newAgent : wf (@newAgent Payload).
Proof.
  unfold wf, newAgent. simpl. split; [lia|].
  split; intros *; rewrite lookup_empty; discriminate.
Qed.

Lemma wf_spawn st : wf st -> wf (spawn st).
Proof. exact (fun Hwf => Hwf). Qed.

Lemma wf_settle h s st : wf st -> wf (settle h s st).
Proof.
  unfold wf. rewrite settle_pendingRequests, settle_requestId, settle_length.
  exact (fun Hwf => Hwf).
Qed.

Lemma js_succ_pos n : 1 <= n -> 1 <= js_succ n.
Proof. unfold js_succ. destruct (n <? 2 ^ 53); lia. Qed.

Lemma wf_sendMCPRequest meth args st :
  wf st -> wf (snd (sendMCPRequest meth args st)).
Proof.
  intros (Hid & Hb & Hinj).
  assert (Hwf1 : wf {| stdin := stdin st;
                       requestId := js_succ (requestId st);
                       pendingRequests :=
                         <[requestId st := length (promises st)]> (pendingRequests st);
                       promises := (promises st ++ [Pending])%list |}).
  { unfold wf. simpl. rewrite length_app. simpl.
    split; [now apply js_succ_pos|]. split.
    - intros i h. rewrite lookup_insert. case_decide as Hi.
      + intros [= <-]. subst. lia.
      + intros Hl. destruct (Hb i h Hl). lia.
    - intros i j h. rewrite !lookup_insert.
      case_decide as Hi; case_decide as Hj; try congruence.
      + intros [= <-] Hl. destruct (Hb j _ Hl). lia.
      + intros Hl [= <-]. destruct (Hb i _ Hl). lia.
      + apply Hinj. }
  unfold sendMCPRequest. simpl. destruct (stdin st); simpl.
  - exact Hwf1.
  - now apply wf_settle.
Qed.

Lemma wf_handle_response st (response : MCPResponse Payload) :
  wf st -> wf (handle_response st response).
Proof.
  intros Hwf. unfold handle_response.
  destruct (resp_id response) as [i|]; [|exact Hwf].
  destruct (truthy_id (Some i)); [|exact Hwf].
  destruct (pendingRequests st !! i) as [h|] eqn:Hi; [|exact Hwf].
  assert (Hwf1 : wf {| stdin := stdin st; requestId := requestId st;
                       pendingRequests := delete i (pendingRequests st);
                       promises := promises st |}).
  { destruct Hwf as (Hid & Hb & Hinj). unfold wf. simpl.
    split; [exact Hid|]. split.
    - intros k h' Hk. apply lookup_delete_Some in Hk. apply (Hb k h'), Hk.
    - intros k l h' Hk Hl. apply lookup_delete_Some in Hk, Hl.
      apply (Hinj k l h'); tauto. }
  destruct (error response); now apply wf_settle.
Qed.

Lemma wf_handleMCPResponse data st : wf st -> wf (handleMCPResponse data st).
Proof.
  unfold handleMCPResponse.
  generalize (List.filter trim_truthy (split_lines data)). intros lines.
  revert st. induction lines as [|line lines IH]; intros st Hwf; simpl.
  - exact Hwf.
  - apply IH. unfold handle_line. destruct (JSON_parse line); [|exact Hwf].
    now apply wf_handle_response.
Qed.

(** A call leaves its request pending, behind a fresh pending promise. *)
Lemma sendMCPRequest_pending meth args st written :
  stdin st = Some written ->
  let '(h, st') := sendMCPRequest meth args st in
  pendingRequests st' !! requestId st = Some h /\
  promises st' !! h = Some Pending /\
  stdin st' =
    Some (written ++ [ {| method := meth; params := args; req_id := requestId st |} ])%list.
Proof.
  intros Hin. unfold sendMCPRequest. simpl. rewrite Hin. simpl.
  rewrite lookup_insert_eq. split; [reflexivity|]. split; [|reflexivity].
  rewrite lookup_app_r by lia. now rewrite Nat.sub_diag.
Qed.

(** Two requests sent one after the other are both outstanding, under
    different ids and behind different pending promises. *)
Lemma two_requests_outstanding meth1 args1 meth2 args2 st written :
  wf st -> stdin st = Some written -> requestId st < 2 ^ 53 ->
  let '(h1, st1) := sendMCPRequest meth1 args1 st in
  let '(h2, st2) := sendMCPRequest meth2 args2 st1 in
  requestId st <> requestId st1 /\
  pendingRequests st2 !! requestId st = Some h1 /\
  pendingRequests st2 !! requestId st1 = Some h2 /\
  promises st2 !! h1 = Some Pending /\
  promises st2 !! h2 = Some Pending.
Proof.
  intros Hwf Hin Hid. unfold sendMCPRequest. cbn. rewrite Hin. cbn.
  unfold js_succ. destruct (Z.ltb_spec (requestId st) (2 ^ 53)); [|lia].
  split; [lia|]. split.
  - rewrite lookup_insert_ne by lia. apply lookup_insert_eq.
  - split; [apply lookup_insert_eq|]. rewrite !length_app. cbn. split.
    + rewrite lookup_app_l by (rewrite length_app; cbn; lia).
      rewrite lookup_app_r by lia. now rewrite Nat.sub_diag.
    + rewrite lookup_app_r by (rewrite length_app; cbn; lia).
      rewrite length_app. cbn.
      now replace (length (promises st) + 1 - (length (promises st) + 1))%nat
        with 0%nat by lia.
Qed.

(** C3. With the requests [i] and [j] both outstanding, in whichever order
    they were sent, the response for [j] removes the entry of [j] only and
    settles the promise of [j] only: the entry of [i] is still there and its
    promise still pending. The response for [i], when it comes, settles the
    promise of [i] and leaves that of [j] as its own response settled it. *)
Theorem responses_correlate_by_id
    (st : Agent) (i j : Z) (hi hj : nat)
    (data_j line_j : string) (response_j : MCPResponse Payload)
    (data_i line_i : string) (response_i : MCPResponse Payload) :
  wf st ->
  i <> j ->
  pendingRequests st !! i = Some hi ->
  pendingRequests st !! j = Some hj ->
  promises st !! hi = Some Pending ->
  promises st !! hj = Some Pending ->
  List.filter trim_truthy (split_lines data_j) = [line_j] ->
  JSON_parse line_j = Some response_j ->
  resp_id response_j = Some j ->
  List.filter trim_truthy (split_lines data_i) = [line_i] ->
  JSON_parse line_i = Some response_i ->
  resp_id response_i = Some i ->
  let st1 := handleMCPResponse data_j st in
  let st2 := handleMCPResponse data_i st1 in
  (pendingRequests st1 = delete j (pendingRequests st) /\
   pendingRequests st1 !! i = Some hi /\
   promises st1 !! hj = Some (settlement_of response_j) /\
   promises st1 !! hi = Some Pending /\
   (forall h, h <> hj -> promises st1 !! h = promises st !! h)) /\
  (pendingRequests st2 = delete i (delete j (pendingRequests st)) /\
   promises st2 !! hi = Some (settlement_of response_i) /\
   promises st2 !! hj = Some (settlement_of response_j)).
Proof.
  intros Hwf Hne Hi Hj Hpi Hpj Hlj Hparsej Hidj Hli Hparsei Hidi st1 st2.
  assert (Hh : hj <> hi).
  { intros ->. destruct Hwf as (_ & _ & Hinj). apply Hne. now apply (Hinj i j hi). }
  assert (Est1 : st1 = settle hj (settlement_of response_j)
            {| stdin := stdin st; requestId := requestId st;
               pendingRequests := delete j (pendingRequests st);
               promises := promises st |}).
  { unfold st1. rewrite (handleMCPResponse_one _ _ _ _ Hlj Hparsej).
    now apply handle_response_pending with (h := hj). }
  assert (Hpend1 : pendingRequests st1 = delete j (pendingRequests st)).
  { rewrite Est1. now rewrite settle_pendingRequests. }
  assert (Hi1 : pendingRequests st1 !! i = Some hi).
  { rewrite Hpend1, lookup_delete_ne; [exact Hi | congruence]. }
  assert (Hother : forall h, h <> hj -> promises st1 !! h = promises st !! h).
  { intros h Hneq. rewrite Est1, settle_other; [reflexivity | congruence]. }
  assert (Hpj1 : promises st1 !! hj = Some (settlement_of response_j)).
  { rewrite Est1. now apply settle_pending. }
  assert (Hpi1 : promises st1 !! hi = Some Pending).
  { rewrite Hother; [exact Hpi | congruence]. }
  split; [now repeat split|].
  assert (Hwf1 : wf st1) by now apply wf_handleMCPResponse.
  assert (Est2 : st2 = settle hi (settlement_of response_i)
            {| stdin := stdin st1; requestId := requestId st1;
               pendingRequests := delete i (pendingRequests st1);
               promises := promises st1 |}).
  { unfold st2. rewrite (handleMCPResponse_one _ _ _ _ Hli Hparsei).
    now apply handle_response_pending with (h := hi). }
  rewrite Est2. rewrite settle_pendingRequests. simpl.
  split; [now rewrite Hpend1|]. split.
  - now apply settle_pending.
  - rewrite settle_other; [exact Hpj1 | congruence].
Qed.

(** C4 (amended). A tool call returns a pending promise. When the response
    to its request carries an error envelope, the promise is rejected with an
    [Error] made of the envelope's message alone; when it carries none, the
    promise is resolved with the [result] member as it came. *)
Theorem callMCPTool_settlement
    (st : Agent) (written : list (MCPRequest Payload)) (toolName : string)
    (args : Payload) (data line : string) (response : MCPResponse Payload) :
  wf st ->
  stdin st = Some written ->
  List.filter trim_truthy (split_lines data) = [line] ->
  JSON_parse line = Some response ->
  resp_id response = Some (requestId st) ->
  let '(h, st1) := callMCPTool toolName args st in
  let st2 := handleMCPResponse data st1 in
  promises st1 !! h = Some Pending /\
  (forall err, error response = Some err ->
     promises st2 !! h = Some (Rejected (mkError (message err)))) /\
  (error response = None ->
     promises st2 !! h = Some (Resolved (result response))).
Proof.
  intros Hwf Hin Hlines Hparse Hid.
  pose proof (wf_sendMCPRequest "tools/call" (tool_call toolName args) st Hwf) as Hwf1.
  pose proof (sendMCPRequest_pending "tools/call" (tool_call toolName args) st
                written Hin) as Hsent.
  unfold callMCPTool.
  destruct (sendMCPRequest "tools/call" (tool_call toolName args) st) as [h st1].
  simpl in Hwf1. destruct Hsent as (Hpend & Hprom & _).
  split; [exact Hprom|].
  rewrite (handleMCPResponse_one _ _ _ _ Hlines Hparse).
  rewrite (handle_response_pending st1 response _ h Hwf1 Hid Hpend).
  unfold settlement_of. split.
  - intros err ->. now apply settle_pending.
  - intros ->. now apply settle_pending.
Qed.

End correlator_facts.

(** ** The in-memory wiki is a faithful remote service *)

Section doubles_facts.
Import WikiIndex Spec Doubles.

Lemma remote_corpus_kept (r r' : Remote) : reach r r' -> corpus r' = corpus r.
Proof.
  induction 1 as [r|r r1 r2 Hstep _ IH]; [reflexivity|].
  rewrite IH. destruct Hstep; try reflexivity.
  cbn. unfold remote_create. now destruct (plan r) as [|[] rest].
Qed.

Lemma remote_searches_answered (r0 r : Remote) :
  reach r0 r ->
  forall space keyword,
    fst (SEARCH_WIKI space keyword r) = Returned (Some (remote_search space keyword r0)).
Proof.
  intros Hr space keyword. cbn. unfold remote_search.
  now rewrite (remote_corpus_kept r0 r Hr).
Qed.

Lemma remote_listed index (r : Remote) target :
  listed index r target <->
  In (index, {| node_type := Some "shortcut"; origin_node_token := target |})
     (children r).
Proof.
  unfold listed. cbn. unfold remote_list. split.
  - intros (items & node & [= <-] & Hin & Htype & Horigin).
    apply in_map_iff in Hin. destruct Hin as ([parent n] & Heq & Hin).
    apply filter_In in Hin. destruct Hin as [Hin Hparent].
    cbn in Heq, Hparent. subst n. apply String.eqb_eq in Hparent. subst parent.
    destruct node as [ty origin]. cbn in Htype, Horigin. now subst.
  - intros Hin.
    exists (remote_list index 500 r),
           {| node_type := Some "shortcut"; origin_node_token := target |}.
    split; [reflexivity|]. split; [|split; reflexivity].
    unfold remote_list. apply in_map_iff. eexists.
    split; [|apply filter_In; split; [exact Hin|]].
    + reflexivity.
    + cbn. apply String.eqb_refl.
Qed.

Lemma remote_links_listed index (r : Remote) target space result r' :
  CREATE_NODE index target space r = (Returned result, r') ->
  listed index r' target.
Proof.
  cbn. unfold remote_create. intros Hcall. apply remote_listed.
  destruct (plan r) as [|[] rest]; inversion Hcall; subst; cbn;
    apply in_or_app; right; now left.
Qed.

Lemma remote_listing_kept index (r r' : Remote) :
  agent_step r r' ->
  forall target, listed index r target -> listed index r' target.
Proof.
  intros Hstep target Hl. destruct Hstep; try exact Hl.
  apply remote_listed. apply remote_listed in Hl.
  cbn. unfold remote_create. destruct (plan r) as [|[] rest]; cbn;
    try exact Hl; apply in_or_app; now left.
Qed.

End doubles_facts.

(** ** Statistics *)

Section statistics_facts.
Import WikiIndex Spec.
Context {Pattern : Type}.

Lemma stats_fold_duplicatePages (entries : list (JsStr * list ShortcutInfo)) stats :
  duplicatePages (fold_left stats_step entries stats) =
  (duplicatePages stats ++
   map fst (List.filter (fun e => Z.of_nat (length (snd e)) >? 1) entries))%list.
Proof.
  revert stats. induction entries as [|[token infos] entries IH]; intros stats.
  - simpl. now rewrite app_nil_r.
  - cbn [fold_left List.filter]. rewrite IH. cbn [stats_step duplicatePages snd].
    destruct (Z.of_nat (length infos) >? 1); cbn [map fst];
      now rewrite <- ?app_assoc.
Qed.

(** [duplicatePages] lists, in insertion order, the targets that have more
    than one record. *)
Lemma getStatistics_duplicatePages (m : Manager Pattern) :
  duplicatePages (getStatistics m) =
  map fst (List.filter (fun e => Z.of_nat (length (snd e)) >? 1) (shortcuts m)).
Proof. unfold getStatistics. now rewrite stats_fold_duplicatePages. Qed.

Lemma stats_fold_totalShortcuts (entries : list (JsStr * list ShortcutInfo)) stats :
  totalShortcuts (fold_left stats_step entries stats) =
  totalShortcuts stats + Z.of_nat (length (concat (map snd entries))).
Proof.
  revert stats. induction entries as [|[token infos] entries IH]; intros stats.
  - simpl. lia.
  - cbn [fold_left map concat snd]. rewrite IH. cbn [stats_step totalShortcuts].
    rewrite length_app. lia.
Qed.

(** [totalShortcuts] is the number of records. *)
Lemma getStatistics_totalShortcuts (m : Manager Pattern) :
  totalShortcuts (getStatistics m) =
  Z.of_nat (length (concat (OMap.values (shortcuts m)))).
Proof. unfold getStatistics. now rewrite stats_fold_totalShortcuts. Qed.

(** Records that are attached to pairwise different index pages are more
    than one exactly when two of them differ in their index page. *)
Lemma records_on_different_indexes (infos : list ShortcutInfo) :
  NoDup (map indexNodeToken infos) ->
  (Z.of_nat (length infos) >? 1) = true <->
  exists a b, In a infos /\ In b infos /\ indexNodeToken a <> indexNodeToken b.
Proof.
  intros Hnd. rewrite Z.gtb_lt. split.
  - intros Hlen. destruct infos as [|a [|b rest]]; cbn [length] in Hlen;
      [lia | lia |].
    exists a, b. split; [now left|]. split; [right; now left|].
    cbn in Hnd. apply NoDup_cons in Hnd. destruct Hnd as [Hnotin _].
    intros Heq. apply Hnotin. rewrite Heq. apply list_elem_of_In. now left.
  - intros (a & b & Ha & Hb & Hne).
    destruct infos as [|x [|y rest]]; cbn [length].
    + destruct Ha.
    + destruct Ha as [<-|[]]. destruct Hb as [<-|[]]. congruence.
    + lia.
Qed.

End statistics_facts.

(** ** The claims on concrete runs *)

Section manager_runs.
Import WikiIndex Spec Doubles.
Local Open Scope js_scope.

(** On a concrete run: the topic "bar" includes and excludes the texts
    with "bar"; the hit titled "FooBar" is rejected. *)
Lemma filterResults_exclude_dominates_witness :
  accepts bar_topic (doc "X" "FooBar") = false /\
  ~ In (doc "X" "FooBar") (filterResults [doc "X" "FooBar"] bar_topic).
Proof.
  apply (filterResults_exclude_dominates bar_topic [doc "X" "FooBar"]
           (doc "X" "FooBar") ["bar"] "bar").
  - reflexivity.
  - now left.
  - reflexivity.
Defined.

(** C10, on a concrete run: a hit without any token between two documents. *)
Lemma removeDuplicates_drops_keyless_witness :
  ~ In tokenless (removeDuplicates ([doc "A" "a"] ++ tokenless :: [doc "B" "b"])) /\
  removeDuplicates ([doc "A" "a"] ++ tokenless :: [doc "B" "b"]) =
  removeDuplicates ([doc "A" "a"] ++ [doc "B" "b"]).
Proof.
  apply (removeDuplicates_drops_keyless [doc "A" "a"] [doc "B" "b"] tokenless);
    reflexivity.
Defined.


(** C1, on the code: the page "idx" declares two topics that both find the
    document A, which is not linked yet. One pass of [updateIndexPage] starts
    two link creations for the pair (idx, A), the remote service ends up with
    two shortcuts to A under idx, and two records for the pair are kept. *)
Theorem updateIndexPage_links_twice_across_topics :
  let w := run (setup two_topics;; updateIndexPage "idx") (wiki_foo []) in
  attempts (console w) =
    [LogCreating (Some "A") "idx"; LogCreating (Some "A") "idx"] /\
  map (fun c => (fst c, origin_node_token (snd c))) (children (agent w)) =
    [("idx", Some "A"); ("idx", Some "A")] /\
  map (fun s => (indexNodeToken s, targetNodeToken s, topicId s))
    (concat (OMap.values (shortcuts (mgr w)))) =
    [("idx", Some "A", "t1"); ("idx", Some "A", "t2")].
Proof. vm_compute. repeat split; reflexivity. Qed.

(** C5, on the code: after the pass above the document A is reported in
    [duplicatePages], although its two records are attached to the one index
    page idx. *)
Theorem duplicatePages_counts_records :
  let w := run (setup two_topics;; updateIndexPage "idx") (wiki_foo []) in
  duplicatePages (getStatistics (mgr w)) = [Some "A"] /\
  map indexNodeToken (default [] (OMap.get (Some "A") (shortcuts (mgr w)))) =
    ["idx"; "idx"].
Proof. vm_compute. split; reflexivity. Qed.

(** A creation that was refused is tried again by the next pass: the first
    pass is refused its only creation and still completes; the second pass,
    over the same wiki, is served and adds a record, so [totalShortcuts]
    goes from 0 to 1. *)
Lemma second_pass_after_refused_creation :
  let w0 := run (setup one_topic) (wiki_foo [false]) in
  let w1 := snd (updateIndexPage "idx" w0) in
  let w2 := snd (updateIndexPage "idx" w1) in
  fst (updateIndexPage "idx" w0) = Returned tt /\
  last (console w1) = Some (LogUpdateCompleted "Index") /\
  corpus (agent w1) = corpus (agent w0) /\
  fst (updateIndexPage "idx" w1) = Returned tt /\
  totalShortcuts (getStatistics (mgr w1)) = 0 /\
  totalShortcuts (getStatistics (mgr w2)) = 1 /\
  length (concat (OMap.values (shortcuts (mgr w2)))) =
    S (length (concat (OMap.values (shortcuts (mgr w1))))).
Proof. vm_compute. repeat split; reflexivity. Qed.

(** On a concrete run over the in-memory wiki, which lists the origin of
    every link: every creation of the first pass is served. *)
Lemma second_pass_creates_nothing_witness :
  let w0 := run (setup one_topic) (wiki_foo []) in
  let w1 := snd (updateIndexPage "idx" w0) in
  exists o w2,
    updateIndexPage "idx" w1 = (o, w2) /\
    attempts (console w2) = attempts (console w1) /\
    shortcuts (mgr w2) = shortcuts (mgr w1) /\
    totalShortcuts (getStatistics (mgr w2)) = totalShortcuts (getStatistics (mgr w1)) /\
    getStatistics (mgr w2) = getStatistics (mgr w1).
Proof.
  apply (second_pass_creates_nothing "idx"
           (fun space keyword => Some (remote_search space keyword (wiki_foo [])))
           (wiki_foo [])
           (remote_searches_answered (wiki_foo []))
           (fun r _ => remote_links_listed "idx" r)
           (fun r r' _ => remote_listing_kept "idx" r r')
           (run (setup one_topic) (wiki_foo []))).
  - apply rtc_refl.
  - vm_compute. reflexivity.
  - vm_compute. reflexivity.
Defined.

End manager_runs.

Section correlator_runs.
Import MCP Doubles.

(** C3, on a concrete run: "initialize" (id 1) and "tools/list" (id 2) are
    on their way; the answer to 2 comes first. *)
Lemma responses_correlate_by_id_witness :
  let st1 := handleMCPResponse "2+tools" two_sent in
  let st2 := handleMCPResponse "1+ready" st1 in
  (pendingRequests st1 = delete 2 (pendingRequests two_sent) /\
   pendingRequests st1 !! 1 = Some 0%nat /\
   promises st1 !! 1%nat = Some (Resolved "tools") /\
   promises st1 !! 0%nat = Some Pending /\
   (forall h, h <> 1%nat -> promises st1 !! h = promises two_sent !! h)) /\
  (pendingRequests st2 = delete 1 (delete 2 (pendingRequests two_sent)) /\
   promises st2 !! 0%nat = Some (Resolved "ready") /\
   promises st2 !! 1%nat = Some (Resolved "tools")).
Proof.
  apply (responses_correlate_by_id two_sent 1 2 0 1
           "2+tools" "2+tools"
           {| result := "tools"; error := None; resp_id := Some 2 |}
           "1+ready" "1+ready"
           {| result := "ready"; error := None; resp_id := Some 1 |}).
  - unfold two_sent. apply wf_sendMCPRequest, wf_sendMCPRequest, wf_spawn, wf_newAgent.
  - lia.
  - reflexivity.
  - reflexivity.
  - reflexivity.
  - reflexivity.
  - reflexivity.
  - reflexivity.
  - reflexivity.
  - reflexivity.
  - reflexivity.
  - reflexivity.
Defined.

(** C4, as stated, fails: two answers to the same call that differ in the
    error code alone reject the caller's promise with the same [Error], made
    of the message. *)
Lemma rejection_drops_the_code :
  let st := snd (callMCPTool "wiki.v2.space.get" "" (spawn newAgent)) in
  (code <$> (JSON_parse "1-7boom" ≫= error)) = Some 7 /\
  (code <$> (JSON_parse "1-8boom" ≫= error)) = Some 8 /\
  promises (handleMCPResponse "1-7boom" st) !! 0%nat =
    Some (Rejected (mkError "boom")) /\
  promises (handleMCPResponse "1-8boom" st) !! 0%nat =
    Some (Rejected (mkError "boom")).
Proof. vm_compute. repeat split; reflexivity. Qed.

(** C4 (amended), on a concrete run: a tool call answered by an error. *)
Lemma callMCPTool_settlement_witness :
  let '(h, st1) := callMCPTool "wiki.v2.space.get" "" (spawn newAgent) in
  let st2 := handleMCPResponse "1-7boom" st1 in
  promises st1 !! h = Some Pending /\
  (forall err,
     Some {| code := 7; message := "boom" |} = Some err ->
     promises st2 !! h = Some (Rejected (mkError (message err)))) /\
  (Some {| code := 7; message := "boom" |} = None ->
   promises st2 !! h = Some (Resolved "")).
Proof.
  apply (callMCPTool_settlement (spawn newAgent) [] "wiki.v2.space.get" ""
           "1-7boom" "1-7boom"
           {| result := ""; error := Some {| code := 7; message := "boom" |};
              resp_id := Some 1 |}).
  - apply wf_spawn, wf_newAgent.
  - reflexivity.
  - reflexivity.
  - reflexivity.
  - reflexivity.
Defined.

End correlator_runs.

(** * Further properties *)

(** ** The filter and the search cache *)

Section filter_cache_facts.
Import WikiIndex Spec MoreSpec.
Local Open Scope js_scope.
Context {Pattern : Type} `{RegExpOps Pattern} {R : Type} `{AgentOps R}.
Local Abbreviation World := (World Pattern R).

(** For patterns without the [g] and [y] flags, [filterResults] keeps an
    item exactly when no exclude pattern of the topic matches its text and,
    if the topic declares include patterns, one of them does; the kept
    items stay in their order, and an empty include array keeps nothing. *)
Lemma stateless_filter_keeps_iff (topic : Topic Pattern) (results : list Page) :
  (forall item,
     In item (filterResults results topic) <->
     In item results /\
     (forall excludes pattern, excludePatterns topic = Some excludes ->
        In pattern excludes -> test pattern (page_text item) = false) /\
     (forall includes, includePatterns topic = Some includes ->
        exists pattern, In pattern includes /\ test pattern (page_text item) = true)) /\
  sublist (filterResults results topic) results /\
  (includePatterns topic = Some [] -> filterResults results topic = []).
Proof.
  split; [|split].
  - intros item. unfold filterResults. rewrite filter_In. unfold accepts.
    split.
    + intros [Hin Hacc]. split; [exact Hin|].
      destruct (excludePatterns topic) as [excludes|] eqn:Hex.
      * destruct (existsb _ excludes) eqn:Hany; [discriminate|].
        split.
        -- intros ex pattern [= <-] Hp.
           destruct (test pattern (page_text item)) eqn:Ht; [|reflexivity].
           assert (existsb (fun p => test p (page_text item)) excludes = true)
             by (apply existsb_exists; eauto).
           congruence.
        -- intros includes Hinc. rewrite Hinc in Hacc.
           apply existsb_exists in Hacc. exact Hacc.
      * split; [intros ? ? [=]|].
        intros includes Hinc. rewrite Hinc in Hacc.
        apply existsb_exists in Hacc. exact Hacc.
    + intros (Hin & Hex & Hinc). split; [exact Hin|].
      replace (match excludePatterns topic with
               | Some pats => existsb (fun pattern => test pattern (page_text item)) pats
               | None => false
               end) with false.
      * destruct (includePatterns topic) as [includes|]; [|reflexivity].
        apply existsb_exists. now apply Hinc.
      * destruct (excludePatterns topic) as [excludes|]; [|reflexivity].
        symmetry. apply not_true_is_false. intros Hany.
        apply existsb_exists in Hany. destruct Hany as (pattern & Hp & Ht).
        rewrite (Hex excludes pattern eq_refl Hp) in Ht. discriminate.
  - unfold filterResults. induction results as [|r results IH]; simpl.
    + constructor.
    + destruct (accepts topic r); now constructor.
  - intros Hinc. unfold filterResults.
    induction results as [|r results IH]; simpl; [reflexivity|].
    rewrite IH. unfold accepts. rewrite Hinc. simpl.
    now destruct (match excludePatterns topic with Some _ => _ | None => _ end).
Qed.

(** X2. [searchWiki] keeps what it has found: once it has returned items for
    a collection and keyword they are in the cache, and from any world whose
    cache still has that entry it returns them again without calling the
    agent or changing anything. A search that throws caches nothing and
    leaves the manager as it was. *)
Theorem searchWiki_memoizes (space keyword : string) (w w1 : World)
    (o : Outcome (list Page)) :
  searchWiki space keyword w = (o, w1) ->
  match o with
  | Returned items =>
      searchCache (mgr w1) !! cacheKey space keyword = Some items /\
      forall w2 : World,
        searchCache (mgr w2) !! cacheKey space keyword = Some items ->
        searchWiki space keyword w2 = (Returned items, w2)
  | Thrown e =>
      mgr w1 = mgr w /\ console w1 = console w /\
      searchCache (mgr w1) !! cacheKey space keyword = None
  end.
Proof.
  unfold searchWiki, bind at 1. cbn [this fst snd].
  assert (Hhit : forall (w2 : World) items,
            searchCache (mgr w2) !! cacheKey space keyword = Some items ->
            searchWiki space keyword w2 = (Returned items, w2)).
  { intros w2 items Hl. unfold searchWiki, bind at 1. cbn [this fst snd].
    now rewrite Hl. }
  destruct (searchCache (mgr w) !! cacheKey space keyword) as [cached|] eqn:Hl.
  - intros [= <- <-]. split; [exact Hl | exact (fun w2 => Hhit w2 cached)].
  - unfold bind at 1, call.
    destruct (SEARCH_WIKI space keyword (agent w)) as [[results|e] r'].
    + cbn. intros [= <- <-]. cbn. split; [apply lookup_insert_eq|].
      exact (fun w2 => Hhit w2 _).
    + cbn. intros [= <- <-]. cbn. auto.
Qed.

(** X3. The cache key is the collection id, a hyphen and the keyword run
    together: two searches whose ids and keywords run together to the same
    text share one entry, and the second is answered from the cache with the
    items of the first. *)
Theorem searchWiki_key_collision (space1 keyword1 space2 keyword2 : string)
    (w w1 : World) (items : list Page) :
  (space1 ++ "-" ++ keyword1 = space2 ++ "-" ++ keyword2)%string ->
  searchWiki space1 keyword1 w = (Returned items, w1) ->
  searchWiki space2 keyword2 w1 = (Returned items, w1).
Proof.
  intros Hkey Hrun.
  assert (Hc : searchCache (mgr w1) !! cacheKey space2 keyword2 = Some items).
  { unfold cacheKey. rewrite <- Hkey. fold (cacheKey space1 keyword1).
    revert Hrun. unfold searchWiki, bind at 1. cbn [this fst snd].
    destruct (searchCache (mgr w) !! cacheKey space1 keyword1) as [cached|] eqn:Hl.
    - now intros [= <- <-].
    - unfold bind at 1, call.
      destruct (SEARCH_WIKI space1 keyword1 (agent w)) as [[results|e] r'];
        cbn; intros [= <- <-]. cbn. apply lookup_insert_eq. }
  unfold searchWiki, bind at 1. cbn [this fst snd]. now rewrite Hc.
Qed.

(** X4. [updateIndexPage] gives up before any crawl when the index page is
    not registered or when listing its children throws. For a page that is
    not registered it throws "Index page not found" and nothing has
    changed. For a registered page whose listing throws, it throws the
    error of the listing, after its first line and that one call. In both
    cases the manager is as it was, and no search or creation line is
    written. *)
Theorem updateIndexPage_gives_up_early (index : string) (w : World) :
  indexPages (mgr w) !! index = None \/
  (exists e, fst (LIST_NODES index 500 (agent w)) = Thrown e) ->
  exists e w',
    updateIndexPage index w = (Thrown e, w') /\
    match indexPages (mgr w) !! index with
    | None => e = ("Index page not found: " ++ index)%string /\ w' = w
    | Some indexPage =>
        fst (LIST_NODES index 500 (agent w)) = Thrown e /\
        w' = {| agent := snd (LIST_NODES index 500 (agent w));
                mgr := mgr w;
                console := (console w ++ [LogUpdating (ip_title indexPage)])%list;
                clock := clock w |}
    end /\
    mgr w' = mgr w /\
    List.filter (fun l => negb (pass_line l)) (console w') =
    List.filter (fun l => negb (pass_line l)) (console w).
Proof.
  intros Hcase. unfold updateIndexPage, bind at 1. cbn [this fst snd].
  destruct (indexPages (mgr w) !! index) as [indexPage|] eqn:Hpage.
  - destruct Hcase as [[=]|[e He]].
    unfold bind at 1. cbn [log fst snd].
    unfold bind at 1, getExistingShortcuts, bind at 1, call. cbn [agent].
    destruct (LIST_NODES index 500 (agent w)) as [o r']. cbn in He. subst o.
    eexists. eexists. split; [reflexivity|]. cbn.
    split; [now split|]. split; [reflexivity|].
    rewrite List.filter_app. cbn. apply app_nil_r.
  - eexists. eexists. split; [reflexivity|]. auto.
Qed.

End filter_cache_facts.

(** ** Statistics and records over a pass *)

Section omap_more_facts.
Context {K V : Type} `{EqDecision K}.
Implicit Types (m : list (K * V)) (k : K) (v : V).

Lemma omap_set_keys k v m :
  OMap.keys (OMap.set k v m) =
  if OMap.has k m then OMap.keys m else (OMap.keys m ++ [k])%list.
Proof.
  unfold OMap.has, OMap.keys.
  induction m as [|[k' v'] m IH]; simpl; [reflexivity|].
  destruct (decide (k = k')) as [->|Hne]; simpl; [reflexivity|].
  rewrite IH. now destruct (OMap.get k m).
Qed.

Lemma omap_set_keys_NoDup k v m :
  NoDup (OMap.keys m) -> NoDup (OMap.keys (OMap.set k v m)).
Proof.
  intros Hnd. rewrite omap_set_keys. destruct (OMap.has k m) eqn:Hhas; [exact Hnd|].
  apply omap_has_false in Hhas. apply NoDup_app. split; [exact Hnd|].
  split; [|apply NoDup_singleton].
  intros x Hx Hx'. apply list_elem_of_In in Hx, Hx'.
  destruct Hx' as [<-|[]]. contradiction.
Qed.
End omap_more_facts.

Section statistics_more_facts.
Import WikiIndex Spec MoreSpec.
Context {Pattern : Type}.

Lemma count_topic_get (byTopic : list (string * Z)) (s : ShortcutInfo) (t : string) :
  OMap.get t (count_topic byTopic s) =
  if decide (topicId s = t)
  then Some (default 0 (OMap.get t byTopic) + 1)
  else OMap.get t byTopic.
Proof.
  unfold count_topic. case_decide as Ht.
  - subst t. apply omap_get_set_eq.
  - now apply omap_get_set_ne.
Qed.

Lemma count_topic_fold_get (infos : list ShortcutInfo) (byTopic : list (string * Z))
    (t : string) :
  OMap.get t (fold_left count_topic infos byTopic) =
  let n := Z.of_nat (length (List.filter (fun s => String.eqb (topicId s) t) infos)) in
  match OMap.get t byTopic with
  | Some c => Some (c + n)
  | None => if n =? 0 then None else Some n
  end.
Proof.
  revert byTopic. induction infos as [|s infos IH]; intros byTopic; cbn [fold_left].
  - cbn. destruct (OMap.get t byTopic); [f_equal; lia | reflexivity].
  - rewrite IH, count_topic_get. cbv zeta. cbn [List.filter].
    destruct (String.eqb_spec (topicId s) t) as [Heq|Hne].
    + rewrite decide_True by exact Heq. cbn [length].
      set (n := length (List.filter (fun s0 => String.eqb (topicId s0) t) infos)).
      destruct (OMap.get t byTopic) as [c|]; cbn [default Datatypes.id from_option].
      * f_equal. lia.
      * destruct (Z.eqb_spec (Z.of_nat (S n)) 0); [lia|].
        f_equal. lia.
    + now rewrite decide_False by exact Hne.
Qed.

Lemma count_topic_fold_keys (infos : list ShortcutInfo) (byTopic : list (string * Z)) :
  NoDup (OMap.keys byTopic) ->
  NoDup (OMap.keys (fold_left count_topic infos byTopic)).
Proof.
  revert byTopic. induction infos as [|s infos IH]; intros byTopic Hnd; [exact Hnd|].
  cbn [fold_left]. apply IH. unfold count_topic. now apply omap_set_keys_NoDup.
Qed.

Lemma omap_set_sum (k : string) (c : Z) (byTopic : list (string * Z)) :
  sumZ (OMap.values (OMap.set k c byTopic)) =
  sumZ (OMap.values byTopic) + c - default 0 (OMap.get k byTopic).
Proof.
  unfold sumZ, OMap.values.
  induction byTopic as [|[k' c'] byTopic IH]; cbn; [lia|].
  destruct (decide (k = k')) as [->|Hne]; cbn; [lia|]. rewrite IH. lia.
Qed.

Lemma count_topic_fold_sum (infos : list ShortcutInfo) (byTopic : list (string * Z)) :
  sumZ (OMap.values (fold_left count_topic infos byTopic)) =
  sumZ (OMap.values byTopic) + Z.of_nat (length infos).
Proof.
  revert byTopic. induction infos as [|s infos IH]; intros byTopic; cbn [fold_left length].
  - lia.
  - rewrite IH. unfold count_topic. rewrite omap_set_sum. lia.
Qed.

Lemma stats_fold_shortcutsByTopic (entries : list (JsStr * list ShortcutInfo)) stats :
  shortcutsByTopic (fold_left stats_step entries stats) =
  fold_left count_topic (concat (map snd entries)) (shortcutsByTopic stats).
Proof.
  revert stats. induction entries as [|[token infos] entries IH]; intros stats;
    [reflexivity|].
  cbn [fold_left map concat snd]. rewrite IH, fold_left_app. reflexivity.
Qed.

(** X5. [getStatistics] counts every record once: [totalShortcuts] is the
    number of records, [shortcutsByTopic] has one entry for each topic that
    has records, holding the number of them, and no entry for other topics;
    the per-topic counts add up to [totalShortcuts]. *)
Theorem getStatistics_counts_by_topic (m : Manager Pattern) :
  let stats := getStatistics m in
  totalShortcuts stats = Z.of_nat (length (records m)) /\
  NoDup (OMap.keys (shortcutsByTopic stats)) /\
  (forall t,
     OMap.get t (shortcutsByTopic stats) =
     match records_of_topic t m with
     | [] => None
     | found => Some (Z.of_nat (length found))
     end) /\
  sumZ (OMap.values (shortcutsByTopic stats)) = totalShortcuts stats.
Proof.
  cbv zeta. unfold getStatistics.
  rewrite stats_fold_shortcutsByTopic, stats_fold_totalShortcuts.
  cbn [shortcutsByTopic totalShortcuts]. fold (records m).
  split; [unfold records, OMap.values; lia|].
  split; [apply count_topic_fold_keys; constructor|].
  split.
  - intros t. rewrite count_topic_fold_get. cbn.
    unfold records_of_topic, records, OMap.values.
    destruct (List.filter _ (concat (map snd (shortcuts m)))) as [|s found];
      [reflexivity|].
    cbn [length]. destruct (Z.eqb_spec (Z.of_nat (S (length found))) 0); [lia|].
    reflexivity.
  - rewrite count_topic_fold_sum. cbn. unfold records, OMap.values. lia.
Qed.

End statistics_more_facts.

Section pass_frames.
Import WikiIndex Spec MoreSpec.
Local Open Scope js_scope.
Context {Pattern : Type} `{RegExpOps Pattern} {R : Type} `{AgentOps R}.
Local Abbreviation M := (M Pattern R).
Local Abbreviation World := (World Pattern R).

(** A relation that every step of a pass keeps is kept by the pass. *)
Section kept_by_steps.
Context (Rel : World -> World -> Prop) `{!PreOrder Rel}.

Hypothesis kept_by_line : forall e (w : World),
  body_line e = true -> Rel w (snd (log e w)).

Hypothesis kept_by_call : forall {A} (op : R -> Outcome A * R) (w : World),
  Rel w (snd (call op w)).

Hypothesis kept_by_caching : forall key items (w : World),
  searchCache (mgr w) !! key = None ->
  Rel w {| agent := agent w;
           mgr := {| wikis := wikis (mgr w);
                     indexPages := indexPages (mgr w);
                     shortcuts := shortcuts (mgr w);
                     searchCache := <[key := items]> (searchCache (mgr w)) |};
           console := console w;
           clock := clock w |}.

Hypothesis kept_by_page : forall index (indexPage : IndexPage Pattern)
    existingTokens (topic : Topic Pattern) counters page,
  within Rel (process_page index indexPage existingTokens topic counters page).

Lemma kept_by_log e : body_line e = true -> within Rel (log e : M unit).
Proof. intros He w. now apply kept_by_line. Qed.

Lemma kept_by_searchWiki space keyword :
  within Rel (searchWiki space keyword : M (list Page)).
Proof.
  intros w. unfold searchWiki, bind at 1. cbn [this fst snd].
  destruct (searchCache (mgr w) !! cacheKey space keyword) eqn:Hl; [reflexivity|].
  pose proof (kept_by_call (SEARCH_WIKI space keyword) w) as Hc.
  unfold bind at 1. unfold call in *.
  destruct (SEARCH_WIKI space keyword (agent w)) as [[results|e] r']; cbn in *;
    [|exact Hc].
  etransitivity; [exact Hc|].
  apply (kept_by_caching (cacheKey space keyword) _
           {| agent := r'; mgr := mgr w; console := console w; clock := clock w |}).
  exact Hl.
Qed.

Lemma kept_by_collectTopicPages (topic : Topic Pattern) :
  within Rel (collectTopicPages topic).
Proof.
  unfold collectTopicPages.
  apply within_bind; [apply _ | now apply kept_by_log |]. intros _.
  apply within_bind; [apply _ | | intros allPages].
  - unfold gatherTopicPages.
    apply within_bind; [apply _ | apply within_this; apply _ |]. intros m.
    apply within_for_of; [apply _|]. intros allPages wiki. unfold gather_wiki.
    destruct (negb (searchEnabled wiki)); [apply within_ret; apply _|].
    apply within_bind; [apply _ | now apply kept_by_log |]. intros _.
    apply within_for_of; [apply _|]. intros acc keyword. unfold gather_keyword.
    apply within_try_catch; [apply _ | |].
    + apply within_bind; [apply _ | apply kept_by_searchWiki |]. intros results.
      apply within_bind; [apply _ | now apply kept_by_log |]. intros _.
      apply within_ret; apply _.
    + intros e. apply within_bind; [apply _ | now apply kept_by_log |]. intros _.
      apply within_ret; apply _.
  - apply within_bind; [apply _ | now apply kept_by_log |]. intros _.
    apply within_ret; apply _.
Qed.

(** What [updateIndexPage] does once its first line is written. *)
Lemma kept_by_pass_body index (indexPage : IndexPage Pattern) :
  within Rel
    (let* existingNodes := getExistingShortcuts index in
     let existingTokens := map origin_node_token existingNodes in
     for_of (topics indexPage) tt
       (process_topic index indexPage existingTokens);;
     log (LogUpdateCompleted (ip_title indexPage))).
Proof.
  apply within_bind; [apply _ | | intros existingNodes].
  - unfold getExistingShortcuts.
    apply within_bind; [apply _ | intros w; apply kept_by_call |]. intros result.
    apply within_ret; apply _.
  - apply within_bind; [apply _ | | intros _; now apply kept_by_log].
    apply within_for_of; [apply _|]. intros [] topic. unfold process_topic.
    apply within_bind; [apply _ | now apply kept_by_log |]. intros _.
    apply within_bind; [apply _ | apply kept_by_collectTopicPages |]. intros pages.
    apply within_bind; [apply _ | | intros counters; now apply kept_by_log].
    apply within_for_of; [apply _|]. intros counters page. apply kept_by_page.
Qed.

Lemma kept_by_updateIndexPage index :
  (forall ttl (w : World), Rel w (snd (log (LogUpdating ttl) w))) ->
  within Rel (updateIndexPage index).
Proof.
  intros kept_by_start. unfold updateIndexPage.
  apply within_bind; [apply _ | apply within_this; apply _ |]. intros m.
  destruct (indexPages m !! index) as [indexPage|]; [|apply within_throw; apply _].
  apply within_bind; [apply _ | intros w; apply kept_by_start |]. intros _.
  apply kept_by_pass_body.
Qed.
End kept_by_steps.

(** *** Pushing a record *)

Lemma push_shortcut_get target info (sc : list (JsStr * list ShortcutInfo)) target' :
  OMap.get target' (push_shortcut target info sc) =
  if decide (target = target')
  then Some (default [] (OMap.get target sc) ++ [info])%list
  else OMap.get target' sc.
Proof.
  unfold push_shortcut, OMap.has.
  destruct (OMap.get target sc) as [infos|] eqn:Hg.
  - rewrite Hg. case_decide as Ht.
    + subst. apply omap_get_set_eq.
    + now apply omap_get_set_ne.
  - rewrite omap_get_set_eq. case_decide as Ht.
    + subst. apply omap_get_set_eq.
    + rewrite !omap_get_set_ne by exact Ht. reflexivity.
Qed.

Lemma omap_set_records (target : JsStr) (infos : list ShortcutInfo)
    (sc : list (JsStr * list ShortcutInfo)) :
  (length (concat (OMap.values (OMap.set target infos sc))) +
   length (default [] (OMap.get target sc)) =
   length (concat (OMap.values sc)) + length infos)%nat.
Proof.
  unfold OMap.values.
  induction sc as [|[k v] sc IH]; cbn.
  - rewrite length_app. cbn. lia.
  - destruct (decide (target = k)) as [->|Hne]; cbn; rewrite !length_app; lia.
Qed.

Lemma push_shortcut_records target info (sc : list (JsStr * list ShortcutInfo)) :
  length (concat (OMap.values (push_shortcut target info sc))) =
  S (length (concat (OMap.values sc))).
Proof.
  unfold push_shortcut, OMap.has.
  destruct (OMap.get target sc) as [infos|] eqn:Hg.
  - rewrite Hg. pose proof (omap_set_records target (infos ++ [info]) sc) as Hs.
    rewrite Hg, length_app in Hs. cbn in Hs. lia.
  - rewrite omap_get_set_eq.
    pose proof (omap_set_records target [] sc) as Hs1.
    pose proof (omap_set_records target ([] ++ [info]) (OMap.set target [] sc)) as Hs2.
    rewrite Hg in Hs1. rewrite omap_get_set_eq in Hs2. cbn in Hs1, Hs2.
    change ([] ++ [info])%list with [info]. lia.
Qed.

(** *** Nothing is taken away *)

#[global] Instance grown_preorder : PreOrder (@grown Pattern R).
Proof.
  split.
  - intros w. unfold grown. split; [reflexivity|]. split; [reflexivity|].
    split; [reflexivity|]. split; [|split; [|lia]].
    + intros target infos Hg. exists []. now rewrite app_nil_r.
    + exists []. now rewrite app_nil_r.
  - intros w1 w2 w3 (Hw & Hi & Hc & Hr & [e1 He1] & Hk)
      (Hw' & Hi' & Hc' & Hr' & [e2 He2] & Hk').
    unfold grown. split; [congruence|]. split; [congruence|].
    split; [etransitivity; eassumption|]. split; [|split; [|lia]].
    + intros target infos Hg. destruct (Hr _ _ Hg) as [x1 Hx1].
      destruct (Hr' _ _ Hx1) as [x2 Hx2]. exists (x1 ++ x2)%list.
      now rewrite app_assoc.
    + exists (e1 ++ e2)%list. now rewrite He2, He1, app_assoc.
Qed.

Lemma grown_same_manager (w w' : World) l :
  mgr w' = mgr w -> console w' = (console w ++ l)%list -> clock w <= clock w' ->
  grown w w'.
Proof.
  intros Hm Hc Hk. unfold grown. rewrite Hm.
  split; [reflexivity|]. split; [reflexivity|]. split; [reflexivity|].
  split; [|split; [eauto | exact Hk]].
  intros target infos Hg. exists []. now rewrite app_nil_r.
Qed.

Lemma grown_line e (w : World) : grown w (snd (log e w)).
Proof. apply (grown_same_manager _ _ [e]); cbn; [reflexivity..|lia]. Qed.

Lemma grown_call {A} (op : R -> Outcome A * R) (w : World) :
  grown w (snd (call op w)).
Proof.
  unfold call. destruct (op (agent w)) as [o r'].
  apply (grown_same_manager _ _ []); cbn; [reflexivity|now rewrite app_nil_r|lia].
Qed.

Lemma grown_caching key items (w : World) :
  searchCache (mgr w) !! key = None ->
  grown w {| agent := agent w;
             mgr := {| wikis := wikis (mgr w);
                       indexPages := indexPages (mgr w);
                       shortcuts := shortcuts (mgr w);
                       searchCache := <[key := items]> (searchCache (mgr w)) |};
             console := console w;
             clock := clock w |}.
Proof.
  intros Hnone. unfold grown. cbn.
  split; [reflexivity|]. split; [reflexivity|].
  split; [now apply insert_subseteq|]. split; [|split; [|lia]].
  - intros target infos Hg. exists []. now rewrite app_nil_r.
  - exists []. now rewrite app_nil_r.
Qed.

Lemma grown_page index (indexPage : IndexPage Pattern) existingTokens
    (topic : Topic Pattern) counters page :
  within grown (process_page index indexPage existingTokens topic counters page).
Proof.
  destruct counters as [created skipped]. intros w0.
  rewrite process_page_run. cbv zeta.
  destruct (bool_decide _); [reflexivity|].
  destruct (CREATE_NODE index _ _ (agent w0)) as [[result|e] r']; cbn [snd].
  - unfold grown. cbn. split; [reflexivity|]. split; [reflexivity|].
    split; [reflexivity|]. split; [|split; [eauto | lia]].
    intros target infos Hg. rewrite push_shortcut_get. case_decide as Ht.
    + subst. rewrite Hg. cbn. eauto.
    + exists []. now rewrite app_nil_r.
  - eapply grown_same_manager; cbn; [reflexivity..|lia].
Qed.

(** X6. A pass of [updateIndexPage] takes nothing away, whether it returns
    or throws: the registered wikis and index pages are the same, every
    cache entry is kept, every target keeps its records with the new ones
    after them, and the console keeps its lines. *)
Theorem updateIndexPage_only_adds (index : string) (w : World) :
  grown w (snd (updateIndexPage index w)).
Proof.
  apply (kept_by_updateIndexPage grown).
  - intros e w0 _. apply grown_line.
  - intros A op w0. apply grown_call.
  - apply grown_caching.
  - apply grown_page.
  - intros ttl w0. apply grown_line.
Qed.

(** *** One record for each creation that returned *)

Lemma creations_app l l' : creations (l ++ l') = creations l + creations l'.
Proof. unfold creations. rewrite List.filter_app, length_app. lia. Qed.

#[global] Instance balanced_preorder : PreOrder (@balanced Pattern R).
Proof.
  split.
  - intros w. unfold balanced. lia.
  - intros w1 w2 w3. unfold balanced. lia.
Qed.

Lemma balanced_same_records (w w' : World) l :
  shortcuts (mgr w') = shortcuts (mgr w) ->
  console w' = (console w ++ l)%list -> creations l = 0 ->
  balanced w w'.
Proof.
  intros Hs Hc Hl. unfold balanced, records. rewrite Hs, Hc, creations_app. lia.
Qed.

Lemma balanced_line e (w : World) :
  is_creation e = false -> balanced w (snd (log e w)).
Proof.
  intros He. apply (balanced_same_records _ _ [e]); cbn; [reflexivity..|].
  unfold creations. cbn. now rewrite He.
Qed.

Lemma balanced_call {A} (op : R -> Outcome A * R) (w : World) :
  balanced w (snd (call op w)).
Proof.
  unfold call. destruct (op (agent w)) as [o r'].
  apply (balanced_same_records _ _ []); cbn;
    [reflexivity | now rewrite app_nil_r | reflexivity].
Qed.

Lemma balanced_page index (indexPage : IndexPage Pattern) existingTokens
    (topic : Topic Pattern) counters page :
  within balanced (process_page index indexPage existingTokens topic counters page).
Proof.
  destruct counters as [created skipped]. intros w0.
  rewrite process_page_run. cbv zeta.
  destruct (bool_decide _); [reflexivity|].
  destruct (CREATE_NODE index _ _ (agent w0)) as [[result|e] r']; cbn [snd].
  - unfold balanced, records. cbn [mgr shortcuts console].
    rewrite push_shortcut_records, creations_app.
    change (creations [LogCreating (page_key page) index; LogCreated result]) with 1.
    lia.
  - eapply balanced_same_records; cbn; [reflexivity..|]. reflexivity.
Qed.

Lemma body_line_no_creation e : body_line e = true -> is_creation e = false.
Proof. now destruct e. Qed.

(** X7. Over a pass of [updateIndexPage], whether it returns or throws,
    [totalShortcuts] grows by exactly the number of link creations that
    returned: a creation that throws, a skipped candidate and a failed search
    add nothing. *)
Theorem updateIndexPage_records_each_creation (index : string) (w : World) :
  let w' := snd (updateIndexPage index w) in
  totalShortcuts (getStatistics (mgr w')) - totalShortcuts (getStatistics (mgr w)) =
  creations (console w') - creations (console w).
Proof.
  cbv zeta. rewrite !getStatistics_totalShortcuts.
  change (balanced w (snd (updateIndexPage index w))).
  apply (kept_by_updateIndexPage balanced).
  - intros e w0 He. now apply balanced_line, body_line_no_creation.
  - intros A op w0. apply balanced_call.
  - intros key items w0 _.
    apply (balanced_same_records _ _ []); cbn;
      [reflexivity | now rewrite app_nil_r | reflexivity].
  - apply balanced_page.
  - intros ttl w0. now apply balanced_line.
Qed.

End pass_frames.

(** ** More of the correlator *)

Section correlator_more_facts.
Import MCP Lifecycle.
Context {Payload : Type} `{JsonOps Payload}.
Local Abbreviation Agent := (Agent Payload).
Implicit Types (st : Agent) (h : nat) (i j : Z).

Lemma split_lines_nonempty s : split_lines s <> [].
Proof.
  induction s as [|c s IH]; simpl; [discriminate|].
  destruct (Ascii.eqb c newline); [discriminate|].
  destruct (split_lines s); [contradiction | discriminate].
Qed.

Lemma split_lines_app (a b : string) :
  split_lines (a ++ String newline b) = (split_lines a ++ split_lines b)%list.
Proof.
  induction a as [|c a IH]; simpl.
  - reflexivity.
  - rewrite IH. destruct (Ascii.eqb c newline); [reflexivity|].
    pose proof (split_lines_nonempty a) as Hne.
    destruct (split_lines a); [contradiction | reflexivity].
Qed.

Lemma handle_line_stray st line :
  (forall response, JSON_parse line = Some response ->
     forall i, resp_id response = Some i -> i <> 0 ->
     pendingRequests st !! i = None) ->
  handle_line st line = st.
Proof.
  intros Hstray. unfold handle_line.
  destruct (JSON_parse line) as [response|] eqn:Hp; [|reflexivity].
  apply handle_response_stray. now apply Hstray.
Qed.

(** X8. A chunk none of whose lines answers a pending request leaves the
    agent exactly as it was: lines that do not parse, responses without an
    id or with the id 0, and responses to ids that are not pending are all
    dropped, and nothing is thrown. *)
Theorem handleMCPResponse_drops_strays (data : string) (st : Agent) :
  (forall line response,
     In line (List.filter trim_truthy (split_lines data)) ->
     JSON_parse line = Some response ->
     forall i, resp_id response = Some i -> i <> 0 ->
     pendingRequests st !! i = None) ->
  handleMCPResponse data st = st.
Proof.
  unfold handleMCPResponse.
  induction (List.filter trim_truthy (split_lines data)) as [|line lines IH];
    intros Hstray; simpl; [reflexivity|].
  rewrite handle_line_stray.
  - apply IH. intros l r Hin. apply Hstray. now right.
  - intros r Hp. apply (Hstray line r); [now left | exact Hp].
Qed.

(** X9. A response is taken once: after the response to a pending request
    has been handled, a second response with the same id, whatever it
    carries, changes nothing; the promise keeps its first settlement. *)
Theorem duplicate_response_is_dropped
    (st : Agent) (i : Z) (h : nat)
    (data1 line1 : string) (response1 : MCPResponse Payload)
    (data2 line2 : string) (response2 : MCPResponse Payload) :
  wf st ->
  pendingRequests st !! i = Some h ->
  promises st !! h = Some Pending ->
  List.filter trim_truthy (split_lines data1) = [line1] ->
  JSON_parse line1 = Some response1 ->
  resp_id response1 = Some i ->
  List.filter trim_truthy (split_lines data2) = [line2] ->
  JSON_parse line2 = Some response2 ->
  resp_id response2 = Some i ->
  let st1 := handleMCPResponse data1 st in
  handleMCPResponse data2 st1 = st1 /\
  promises st1 !! h = Some (settlement_of response1).
Proof.
  intros Hwf Hi Hp Hl1 Hp1 Hid1 Hl2 Hp2 Hid2 st1.
  assert (Est1 : st1 = settle h (settlement_of response1)
            {| stdin := stdin st; requestId := requestId st;
               pendingRequests := delete i (pendingRequests st);
               promises := promises st |}).
  { unfold st1. rewrite (handleMCPResponse_one _ _ _ _ Hl1 Hp1).
    now apply handle_response_pending with (h := h). }
  split.
  - rewrite (handleMCPResponse_one _ _ _ _ Hl2 Hp2).
    apply handle_response_stray. intros i' Hid' _.
    assert (i' = i) by congruence. subst i'.
    rewrite Est1, settle_pendingRequests. cbn. apply lookup_delete_eq.
  - rewrite Est1. now apply settle_pending.
Qed.

(** X10. Chunks are handled line by line: a chunk made of two chunks joined
    by a newline does what handling the first and then the second does. *)
Theorem handleMCPResponse_joins_chunks (data1 data2 : string) (st : Agent) :
  handleMCPResponse (data1 ++ String newline data2) st =
  handleMCPResponse data2 (handleMCPResponse data1 st).
Proof.
  unfold handleMCPResponse.
  now rewrite split_lines_app, List.filter_app, fold_left_app.
Qed.

(** X11. Nothing is kept between chunks: when a response line arrives cut
    in two chunks, neither of which parses, both pieces are dropped and the
    request stays pending, although the same line in one chunk settles it. *)
Theorem response_cut_in_two_is_lost
    (st : Agent) (i : Z) (h : nat) (part1 part2 : string)
    (response : MCPResponse Payload) :
  wf st ->
  pendingRequests st !! i = Some h ->
  promises st !! h = Some Pending ->
  List.filter trim_truthy (split_lines part1) = [part1] ->
  List.filter trim_truthy (split_lines part2) = [part2] ->
  List.filter trim_truthy (split_lines (part1 ++ part2)) = [(part1 ++ part2)%string] ->
  JSON_parse part1 = None ->
  JSON_parse part2 = None ->
  JSON_parse (part1 ++ part2) = Some response ->
  resp_id response = Some i ->
  handleMCPResponse part2 (handleMCPResponse part1 st) = st /\
  promises (handleMCPResponse (part1 ++ part2) st) !! h =
    Some (settlement_of response) /\
  pendingRequests (handleMCPResponse (part1 ++ part2) st) !! i = None.
Proof.
  intros Hwf Hi Hp Hl1 Hl2 Hl Hp1 Hp2 Hparse Hid.
  assert (Hdrop : forall part, List.filter trim_truthy (split_lines part) = [part] ->
            JSON_parse part = None -> handleMCPResponse part st = st).
  { intros part Hlp Hpp. unfold handleMCPResponse. rewrite Hlp. cbn.
    unfold handle_line. now rewrite Hpp. }
  split; [now rewrite (Hdrop part1), (Hdrop part2)|].
  rewrite (handleMCPResponse_one _ _ _ _ Hl Hparse).
  rewrite (handle_response_pending st response i h Hwf Hid Hi).
  rewrite settle_pendingRequests. cbn. split.
  - now apply settle_pending.
  - apply lookup_delete_eq.
Qed.

End correlator_more_facts.

(** ** Requests over the life of the process *)

Section lifecycle_facts.
Import MCP Lifecycle.
Context {Payload : Type} `{JsonOps Payload}.
Local Abbreviation Agent := (Agent Payload).
Implicit Types (st : Agent) (h : nat) (i j : Z).

Lemma sendMCPRequest_no_process meth args st :
  stdin st = None ->
  sendMCPRequest meth args st =
    (length (promises st),
     {| stdin := None;
        requestId := js_succ (requestId st);
        pendingRequests := <[requestId st := length (promises st)]> (pendingRequests st);
        promises := (promises st ++ [not_initialized])%list |}).
Proof.
  intros Hnone. unfold sendMCPRequest, settle. cbn. rewrite Hnone. cbn.
  rewrite lookup_app_r by lia. rewrite Nat.sub_diag. cbn.
  f_equal. f_equal.
  rewrite insert_app_r_alt by lia. now rewrite Nat.sub_diag.
Qed.

(** X12. Without a server process (before [initialize], or after [close])
    a request is rejected at once with "MCP process not initialized" and
    nothing is written; it still takes the next id and leaves an entry in
    the table of pending requests. A response that later carries this id
    removes the entry and changes no promise. *)
Theorem sendMCPRequest_without_process
    (meth : string) (args : Payload) (st : Agent)
    (data line : string) (response : MCPResponse Payload) :
  wf st ->
  stdin st = None ->
  List.filter trim_truthy (split_lines data) = [line] ->
  JSON_parse line = Some response ->
  resp_id response = Some (requestId st) ->
  let h := fst (sendMCPRequest meth args st) in
  let st1 := snd (sendMCPRequest meth args st) in
  let st2 := handleMCPResponse data st1 in
  (promises st1 = (promises st ++ [not_initialized])%list /\
   promises st1 !! h = Some not_initialized /\
   stdin st1 = None /\
   requestId st1 = js_succ (requestId st) /\
   pendingRequests st1 = <[requestId st := h]> (pendingRequests st)) /\
  (promises st2 = promises st1 /\
   pendingRequests st2 = delete (requestId st) (pendingRequests st1)).
Proof.
  intros Hwf Hnone Hlines Hparse Hid h st1 st2.
  pose proof (wf_sendMCPRequest meth args st Hwf) as Hwf1. fold st1 in Hwf1.
  assert (Eh : h = length (promises st))
    by (unfold h; now rewrite sendMCPRequest_no_process).
  assert (Est1 : st1 =
    {| stdin := None;
       requestId := js_succ (requestId st);
       pendingRequests := <[requestId st := length (promises st)]> (pendingRequests st);
       promises := (promises st ++ [not_initialized])%list |})
    by (unfold st1; now rewrite sendMCPRequest_no_process).
  assert (Hslot : promises st1 !! h = Some not_initialized).
  { rewrite Est1, Eh. cbn. rewrite lookup_app_r by lia.
    now rewrite Nat.sub_diag. }
  split.
  - refine (conj _ (conj Hslot _)); rewrite Est1, ?Eh; cbn; [reflexivity|].
    now repeat split.
  - assert (Hentry : pendingRequests st1 !! requestId st = Some h).
    { rewrite Est1, Eh. cbn. apply lookup_insert_eq. }
    unfold st2. rewrite (handleMCPResponse_one _ _ _ _ Hlines Hparse).
    rewrite (handle_response_pending st1 response _ h Hwf1 Hid Hentry).
    rewrite settle_settled.
    + split; reflexivity.
    + cbn. rewrite Hslot. discriminate.
Qed.

Lemma handle_response_requestId st (response : MCPResponse Payload) :
  requestId (handle_response st response) = requestId st.
Proof.
  unfold handle_response.
  destruct (resp_id response) as [i|]; [|reflexivity].
  destruct (truthy_id (Some i)); [|reflexivity].
  destruct (pendingRequests st !! i); [|reflexivity].
  destruct (error response); now rewrite settle_requestId.
Qed.

Lemma handleMCPResponse_requestId data st :
  requestId (handleMCPResponse data st) = requestId st.
Proof.
  unfold handleMCPResponse.
  revert st. induction (List.filter trim_truthy (split_lines data)) as [|l ls IH];
    intros st; cbn; [reflexivity|].
  rewrite IH. unfold handle_line.
  destruct (JSON_parse l); [apply handle_response_requestId | reflexivity].
Qed.

(** What a response does to the table and to the promises: either nothing,
    or one entry goes and its promise is settled. *)
Lemma handle_response_cases st (response : MCPResponse Payload) :
  handle_response st response = st \/
  exists i h s,
    pendingRequests st !! i = Some h /\
    s <> Pending /\
    handle_response st response =
      settle h s
        {| stdin := stdin st;
           requestId := requestId st;
           pendingRequests := delete i (pendingRequests st);
           promises := promises st |}.
Proof.
  unfold handle_response.
  destruct (resp_id response) as [i|]; [|now left].
  destruct (truthy_id (Some i)); [|now left].
  destruct (pendingRequests st !! i) as [h|] eqn:Hi; [|now left].
  right. exists i, h.
  destruct (error response) as [err|].
  - exists (Rejected (mkError (message err))). now repeat split.
  - exists (Resolved (result response)). now repeat split.
Qed.

Lemma sendMCPRequest_shape meth args st :
  exists sin s,
    (s = Pending \/ s = not_initialized) /\
    sendMCPRequest meth args st =
      (length (promises st),
       {| stdin := sin;
          requestId := js_succ (requestId st);
          pendingRequests := <[requestId st := length (promises st)]> (pendingRequests st);
          promises := (promises st ++ [s])%list |}).
Proof.
  destruct (stdin st) as [written|] eqn:Hs.
  - eexists _, Pending. split; [now left|].
    unfold sendMCPRequest. cbn. rewrite Hs. reflexivity.
  - eexists _, not_initialized. split; [now right|].
    now apply sendMCPRequest_no_process.
Qed.

Lemma tracked_newAgent : tracked (@newAgent Payload).
Proof.
  split; [apply wf_newAgent|]. cbn. split; [lia|]. split.
  - intros _. split.
    + intros i h. rewrite lookup_empty. discriminate.
    + intros h. rewrite lookup_nil. discriminate.
  - intros i h. rewrite lookup_empty. discriminate.
Qed.

Lemma tracked_push st s sin :
  tracked st -> s = Pending \/ s = not_initialized ->
  tracked
    {| stdin := sin;
       requestId := js_succ (requestId st);
       pendingRequests := <[requestId st := length (promises st)]> (pendingRequests st);
       promises := (promises st ++ [s])%list |}.
Proof.
  intros (Hwf & Hle & Hbelow & Hstate) Hs.
  pose proof Hwf as (Hid & Hb & Hinj).
  unfold tracked, wf. cbn. rewrite length_app. cbn.
  assert (Hsucc : js_succ (requestId st) < 2 ^ 53 ->
            requestId st < 2 ^ 53 /\ js_succ (requestId st) = requestId st + 1).
  { unfold js_succ. destruct (Z.ltb_spec (requestId st) (2 ^ 53)); lia. }
  split; [|split; [|split]].
  - split; [now apply js_succ_pos|]. split.
    + intros i h. rewrite lookup_insert. case_decide as Hi.
      * intros [= <-]. subst. lia.
      * intros Hl. destruct (Hb i h Hl). lia.
    + intros i j h. rewrite !lookup_insert.
      case_decide as Hi; case_decide as Hj; try congruence.
      * intros [= <-] Hl. destruct (Hb j _ Hl). lia.
      * intros Hl [= <-]. destruct (Hb i _ Hl). lia.
      * apply Hinj.
  - unfold js_succ. destruct (Z.ltb_spec (requestId st) (2 ^ 53)); lia.
  - intros Hlt. destruct (Hsucc Hlt) as [Hr Esucc].
    destruct (Hbelow Hr) as [Hold Hreg]. split.
    + intros i h. rewrite lookup_insert. case_decide as Hi.
      * intros _. subst. lia.
      * intros Hl. specialize (Hold i h Hl). lia.
    + intros h Hp. destruct (decide (h < length (promises st))%nat) as [Hin|Hout].
      * rewrite lookup_app_l in Hp by exact Hin.
        destruct (Hreg h Hp) as [i Hi]. exists i.
        rewrite lookup_insert_ne; [exact Hi|].
        specialize (Hold i h Hi). lia.
      * apply lookup_lt_Some in Hp as Hlen. rewrite length_app in Hlen. cbn in Hlen.
        assert (h = length (promises st)) by lia. subst h.
        exists (requestId st). apply lookup_insert_eq.
  - intros i h. rewrite lookup_insert. case_decide as Hi.
    + intros [= <-]. rewrite lookup_app_r by lia. rewrite Nat.sub_diag. cbn.
      destruct Hs as [-> | ->]; [now left | now right].
    + intros Hl. destruct (Hb i h Hl) as [_ Hlen].
      rewrite lookup_app_l by exact Hlen. now apply (Hstate i).
Qed.

Lemma tracked_sendMCPRequest meth args st :
  tracked st -> tracked (snd (sendMCPRequest meth args st)).
Proof.
  intros Ht. destruct (sendMCPRequest_shape meth args st) as (sin & s & Hs & ->).
  now apply tracked_push.
Qed.

Lemma tracked_handle_response st (response : MCPResponse Payload) :
  tracked st -> tracked (handle_response st response).
Proof.
  intros Ht. pose proof Ht as (Hwf & Hle & Hbelow & Hstate).
  pose proof Hwf as (Hid & Hb & Hinj).
  destruct (handle_response_cases st response) as [-> | (i & h & s & Hi & Hs & E)];
    [exact Ht|].
  split; [now apply wf_handle_response|].
  rewrite E, settle_requestId, settle_pendingRequests. cbn.
  set (st' := {| stdin := stdin st; requestId := requestId st;
                 pendingRequests := delete i (pendingRequests st);
                 promises := promises st |}).
  assert (Hother : forall h', promises (settle h s st') !! h' = Some Pending ->
            h' <> h /\ promises st !! h' = Some Pending).
  { intros h' Hp. destruct (decide (h' = h)) as [->|Hne].
    - exfalso. destruct (promises st !! h) as [[| |]|] eqn:Hh.
      + rewrite (settle_pending h s st') in Hp by exact Hh. congruence.
      + rewrite settle_settled in Hp by (cbn; rewrite Hh; discriminate).
        cbn in Hp. congruence.
      + rewrite settle_settled in Hp by (cbn; rewrite Hh; discriminate).
        cbn in Hp. congruence.
      + rewrite settle_settled in Hp by (cbn; rewrite Hh; discriminate).
        cbn in Hp. congruence.
    - split; [exact Hne|]. rewrite settle_other in Hp by congruence. exact Hp. }
  split; [exact Hle|]. split.
  - intros Hlt. destruct (Hbelow Hlt) as [Hold Hreg]. split.
    + intros i' h' Hl. apply lookup_delete_Some in Hl as [_ Hl]. now apply (Hold i' h').
    + intros h' Hp. destruct (Hother h' Hp) as [Hne Hp'].
      destruct (Hreg h' Hp') as [i' Hi']. exists i'.
      apply lookup_delete_Some. split; [|exact Hi'].
      intros ->. congruence.
  - intros i' h' Hl. apply lookup_delete_Some in Hl as [Hne Hl].
    assert (h <> h') by (intros ->; apply Hne; now apply (Hinj i i' h')).
    rewrite settle_other by assumption. now apply (Hstate i').
Qed.

Lemma tracked_handleMCPResponse data st :
  tracked st -> tracked (handleMCPResponse data st).
Proof.
  unfold handleMCPResponse.
  revert st. induction (List.filter trim_truthy (split_lines data)) as [|l ls IH];
    intros st Ht; cbn; [exact Ht|].
  apply IH. unfold handle_line.
  destruct (JSON_parse l); [now apply tracked_handle_response | exact Ht].
Qed.

Lemma built_tracked st : built st -> tracked st.
Proof.
  induction 1 as [|st _ IH|meth args st _ IH|data st _ IH|st _ IH].
  - apply tracked_newAgent.
  - exact IH.
  - now apply tracked_sendMCPRequest.
  - now apply tracked_handleMCPResponse.
  - exact IH.
Qed.

(** X13. Ids are fresh: while fewer than [2^53] requests have been made,
    a request sent by an agent the code has built takes neither the id nor
    the promise of an outstanding request, and every outstanding request
    stays registered with its promise as it was. *)
Theorem built_requests_never_collide
    (st : Agent) (meth : string) (args : Payload) (i : Z) (h : nat) :
  built st ->
  requestId st < 2 ^ 53 ->
  pendingRequests st !! i = Some h ->
  let h' := fst (sendMCPRequest meth args st) in
  let st' := snd (sendMCPRequest meth args st) in
  1 <= i < requestId st /\
  h' <> h /\
  requestId st < requestId st' /\
  pendingRequests st' !! requestId st = Some h' /\
  pendingRequests st' !! i = Some h /\
  promises st' !! h = promises st !! h.
Proof.
  intros Hb Hlt Hi h' st'.
  destruct (built_tracked st Hb) as ((Hid & Hbound & Hinj) & Hle & Hbelow & Hstate).
  destruct (Hbelow Hlt) as [Hold _].
  destruct (Hbound i h Hi) as [Hpos Hlen]. specialize (Hold i h Hi).
  unfold h', st'.
  destruct (sendMCPRequest_shape meth args st) as (sin & s & Hs & ->). cbn.
  split; [lia|]. split; [lia|]. split.
  { unfold js_succ. destruct (Z.ltb_spec (requestId st) (2 ^ 53)); lia. }
  split; [apply lookup_insert_eq|]. split.
  - rewrite lookup_insert_ne by lia. exact Hi.
  - now apply lookup_app_l.
Qed.

(** X14. No continuation is lost, and none is kept for nothing: in an agent
    the code has built (fewer than [2^53] requests made) every promise that
    is still pending is registered under exactly one id, so that a response
    can settle it; and every entry of the table belongs to a promise that is
    pending or was rejected for want of a process. *)
Theorem built_agents_track_unsettled_promises (st : Agent) :
  built st ->
  requestId st < 2 ^ 53 ->
  (forall h, promises st !! h = Some Pending ->
     exists i, pendingRequests st !! i = Some h /\
       1 <= i < requestId st /\
       forall j, pendingRequests st !! j = Some h -> j = i) /\
  (forall i h, pendingRequests st !! i = Some h ->
     promises st !! h = Some Pending \/ promises st !! h = Some not_initialized).
Proof.
  intros Hb Hlt.
  destruct (built_tracked st Hb) as ((Hid & Hbound & Hinj) & Hle & Hbelow & Hstate).
  destruct (Hbelow Hlt) as [Hold Hreg]. split; [|exact Hstate].
  intros h Hp. destruct (Hreg h Hp) as [i Hi]. exists i.
  split; [exact Hi|]. split.
  - destruct (Hbound i h Hi). specialize (Hold i h Hi). lia.
  - intros j Hj. now apply (Hinj j i h).
Qed.

End lifecycle_facts.

(** ** All index pages *)

Section all_pages_facts.
Import WikiIndex Spec MoreSpec Session.
Local Open Scope js_scope.
Context {Pattern : Type} `{RegExpOps Pattern} {R : Type} `{AgentOps R}.
Local Abbreviation World := (World Pattern R).
Local Abbreviation Session := (Session Pattern R).
Local Abbreviation IndexPage := (IndexPage Pattern).

#[global] Instance same_starts_preorder : PreOrder (@same_starts Pattern R).
Proof.
  split.
  - intros w. reflexivity.
  - intros w1 w2 w3. unfold same_starts. congruence.
Qed.

Lemma passes_started_app l l' :
  passes_started (l ++ l') = (passes_started l ++ passes_started l')%list.
Proof. apply flat_map_app. Qed.

Lemma same_starts_lines (w w' : World) l :
  console w' = (console w ++ l)%list -> forallb (fun e => negb (is_start e)) l = true ->
  same_starts w w'.
Proof.
  intros Hc Hl. unfold same_starts. rewrite Hc, passes_started_app.
  enough (passes_started l = []) as -> by apply app_nil_r.
  clear Hc. induction l as [|e l IH]; [reflexivity|].
  cbn in Hl. apply andb_true_iff in Hl as [He Hl].
  destruct e; cbn in He; try discriminate; cbn; now apply IH.
Qed.

Lemma same_starts_page index (indexPage : IndexPage) existingTokens
    (topic : Topic Pattern) counters page :
  within same_starts (process_page index indexPage existingTokens topic counters page).
Proof.
  destruct counters as [created skipped]. intros w0.
  rewrite process_page_run. cbv zeta.
  destruct (bool_decide _); [reflexivity|].
  destruct (CREATE_NODE index _ _ (agent w0)) as [[result|e] r']; cbn [snd];
    eapply same_starts_lines; cbn; reflexivity.
Qed.

(** A pass over a registered page writes its first line, once. *)
Lemma updateIndexPage_starts index (indexPage : IndexPage) (w : World) :
  indexPages (mgr w) !! index = Some indexPage ->
  passes_started (console (snd (updateIndexPage index w))) =
    (passes_started (console w) ++ [ip_title indexPage])%list.
Proof.
  intros Hl. unfold updateIndexPage, bind at 1. cbn [this]. rewrite Hl.
  unfold bind at 1. cbn [log].
  set (w1 := {| agent := agent w; mgr := mgr w;
                console := (console w ++ [LogUpdating (ip_title indexPage)])%list;
                clock := clock w |}).
  transitivity (passes_started (console w1));
    [|unfold w1; cbn; now rewrite passes_started_app].
  apply (kept_by_pass_body same_starts).
  - intros e w0 He. apply (same_starts_lines _ _ [e]); [reflexivity|].
    cbn. unfold body_line in He. apply andb_true_iff in He as [_ ->]. reflexivity.
  - intros A op w0. unfold call. destruct (op (agent w0)) as [o r'].
    apply (same_starts_lines _ _ []); cbn; [now rewrite app_nil_r | reflexivity].
  - intros key items w0 _.
    apply (same_starts_lines _ _ []); cbn; [now rewrite app_nil_r | reflexivity].
  - apply same_starts_page.
Qed.

Lemma updateIndexPage_grown index : within grown (updateIndexPage index).
Proof.
  apply (kept_by_updateIndexPage grown).
  - intros e w0 _. apply grown_line.
  - intros A op w0. apply grown_call.
  - apply grown_caching.
  - apply grown_page.
  - intros ttl w0. apply grown_line.
Qed.

Lemma updateIndexPage_balanced index : within balanced (updateIndexPage index).
Proof.
  apply (kept_by_updateIndexPage balanced).
  - intros e w0 He. now apply balanced_line, body_line_no_creation.
  - intros A op w0. apply balanced_call.
  - intros key items w0 _.
    apply (balanced_same_records _ _ []); cbn;
      [reflexivity | now rewrite app_nil_r | reflexivity].
  - apply balanced_page.
  - intros ttl w0. now apply balanced_line.
Qed.

Lemma skipped_pages_app l l' :
  skipped_pages (l ++ l') = (skipped_pages l ++ skipped_pages l')%list.
Proof. apply flat_map_app. Qed.

(** One turn of the loop of [updateAllIndexPages]. *)
Lemma update_entry_run token (indexPage : IndexPage) (s : Session) :
  exists s',
    update_entry (token, indexPage) s = (Returned tt, s') /\
    grown (world s) (world s') /\
    balanced (world s) (world s') /\
    (indexPages (mgr (world s)) !! token = Some indexPage ->
     passes_started (console (world s')) =
       (passes_started (console (world s)) ++
        (if autoUpdate indexPage then [ip_title indexPage] else []))%list) /\
    skipped_pages (notices s') =
      (skipped_pages (notices s) ++
       (if autoUpdate indexPage then [] else [ip_title indexPage]))%list /\
    (autoUpdate indexPage = false -> world s' = world s).
Proof.
  unfold update_entry. destruct (autoUpdate indexPage) eqn:Hauto; cbn [negb].
  - unfold s_try_catch, lift, bind.
    pose proof (updateIndexPage_grown token (world s)) as Hg.
    pose proof (updateIndexPage_balanced token (world s)) as Hb.
    pose proof (updateIndexPage_starts token indexPage (world s)) as Hs.
    destruct (updateIndexPage token (world s)) as [[[]|e] w1]; cbn [snd] in *.
    + eexists. split; [reflexivity|]. cbn [world notices delay].
      split; [|split; [|split; [|split]]].
      * etransitivity; [exact Hg|].
        apply (grown_same_manager _ _ []); cbn; [reflexivity|now rewrite app_nil_r|lia].
      * etransitivity; [exact Hb|].
        apply (balanced_same_records _ _ []); cbn;
          [reflexivity | now rewrite app_nil_r | reflexivity].
      * exact Hs.
      * now rewrite app_nil_r.
      * discriminate.
    + eexists. split; [reflexivity|]. cbn [world notices].
      split; [exact Hg|]. split; [exact Hb|]. split; [exact Hs|]. split.
      * rewrite skipped_pages_app. reflexivity.
      * discriminate.
  - eexists. split; [reflexivity|]. cbn [world notices].
    split; [reflexivity|]. split; [reflexivity|]. split; [|split].
    + intros _. now rewrite app_nil_r.
    + rewrite skipped_pages_app. reflexivity.
    + reflexivity.
Qed.

Lemma all_loop_run (pages : list (string * IndexPage)) (s : Session) :
  exists s',
    s_for_of pages update_entry s = (Returned tt, s') /\
    grown (world s) (world s') /\
    balanced (world s) (world s') /\
    (entries_of pages (mgr (world s)) ->
     passes_started (console (world s')) =
       (passes_started (console (world s)) ++
        map (fun entry => ip_title (snd entry))
          (List.filter (fun entry => autoUpdate (snd entry)) pages))%list) /\
    skipped_pages (notices s') =
      (skipped_pages (notices s) ++
       map (fun entry => ip_title (snd entry))
         (List.filter (fun entry => negb (autoUpdate (snd entry))) pages))%list /\
    (forallb (fun entry => negb (autoUpdate (snd entry))) pages = true ->
     world s' = world s).
Proof.
  revert s. induction pages as [|[token indexPage] pages IH]; intros s.
  - exists s. cbn. split; [reflexivity|]. split; [reflexivity|].
    split; [reflexivity|]. now rewrite !app_nil_r.
  - destruct (update_entry_run token indexPage s)
      as (s1 & E1 & Hg1 & Hb1 & Hs1 & Hk1 & Hq1).
    destruct (IH s1) as (s2 & E2 & Hg2 & Hb2 & Hs2 & Hk2 & Hq2).
    exists s2. cbn [s_for_of]. unfold s_bind at 1. rewrite E1.
    split; [exact E2|]. split; [etransitivity; eassumption|].
    split; [etransitivity; eassumption|]. split; [|split].
    + intros Hent. rewrite Hs2, Hs1.
      * cbn [List.filter snd]. destruct (autoUpdate indexPage); cbn;
          now rewrite <- ?app_assoc, ?app_nil_r.
      * apply Hent. now left.
      * intros t p Hin. destruct Hg1 as (_ & -> & _). apply Hent. now right.
    + rewrite Hk2, Hk1. cbn [List.filter snd].
      destruct (autoUpdate indexPage); cbn; now rewrite <- ?app_assoc, ?app_nil_r.
    + cbn [forallb snd]. intros Hall. apply andb_true_iff in Hall as [Ha Hall].
      rewrite (Hq2 Hall). apply Hq1. now apply negb_true_iff.
Qed.

Lemma updateAllIndexPages_run (s : Session) :
  updateAllIndexPages s =
  match s_for_of (entries s) update_entry (snd (notice NoticeStartingAll s)) with
  | (Returned _, s1) => notice NoticeAllUpdated s1
  | (Thrown e, s1) => (Thrown e, s1)
  end.
Proof. reflexivity. Qed.

(** *** The order of the index pages *)

Lemma entries_registered (s : Session) : entries_of (entries s) (mgr (world s)).
Proof.
  intros token indexPage Hin. unfold entries in Hin.
  apply list_elem_of_In, list_elem_of_omap in Hin.
  destruct Hin as (token' & _ & Heq).
  destruct (indexPages (mgr (world s)) !! token') eqn:Hl; [|discriminate].
  now injection Heq as -> ->.
Qed.

Lemma entries_keys (s : Session) :
  (forall token, token ∈ order s -> is_Some (indexPages (mgr (world s)) !! token)) ->
  map fst (entries s) = order s.
Proof.
  unfold entries. induction (order s) as [|token tokens IH]; intros Hall;
    [reflexivity|].
  cbn [omap list_omap]. destruct (Hall token) as [indexPage Hl]; [left|].
  rewrite Hl. cbn [map fst]. f_equal. apply IH.
  intros token' Hin. apply Hall. now right.
Qed.

Lemma ordered_entries (s : Session) :
  ordered s ->
  map fst (entries s) = order s /\
  NoDup (map fst (entries s)) /\
  forall token indexPage,
    In (token, indexPage) (entries s) <->
    indexPages (mgr (world s)) !! token = Some indexPage.
Proof.
  intros [Hnd Hdom].
  assert (Hkeys : map fst (entries s) = order s).
  { apply entries_keys. intros token. apply Hdom. }
  split; [exact Hkeys|]. split; [now rewrite Hkeys|].
  intros token indexPage. split; [apply entries_registered|].
  intros Hl. apply list_elem_of_In. unfold entries. apply list_elem_of_omap.
  exists token. split; [|now rewrite Hl].
  apply Hdom. now rewrite Hl.
Qed.

Lemma ordered_newSession (r : R) : ordered (newSession r : Session).
Proof.
  split; [constructor|]. intros token. cbn. rewrite lookup_empty. split.
  - intros Hin. inversion Hin.
  - intros [x Hx]. discriminate.
Qed.

Lemma ordered_same_pages (s s' : Session) :
  order s' = order s ->
  indexPages (mgr (world s')) = indexPages (mgr (world s)) ->
  ordered s -> ordered s'.
Proof. unfold ordered. intros -> ->. trivial. Qed.

Lemma registerIndexPage_sets (cfg : IndexPage) (w : World) :
  match WikiIndex.registerIndexPage cfg w with
  | (Returned _, w') =>
      indexPages (mgr w') = <[nodeToken cfg := cfg]> (indexPages (mgr w))
  | (Thrown _, w') => indexPages (mgr w') = indexPages (mgr w)
  end.
Proof.
  unfold WikiIndex.registerIndexPage, bind, log, call, set_this.
  cbn [fst snd mgr agent].
  destruct (GET_NODE_INFO (nodeToken cfg) (agent w)) as [[[|]|e] r'];
    reflexivity.
Qed.

Lemma ordered_registerIndexPage (cfg : IndexPage) (s : Session) :
  ordered s -> ordered (snd (Session.registerIndexPage cfg s)).
Proof.
  intros [Hnd Hdom]. unfold Session.registerIndexPage.
  pose proof (registerIndexPage_sets cfg (world s)) as Hset.
  destruct (WikiIndex.registerIndexPage cfg (world s)) as [[[]|e] w'];
    cbn [snd]; split; cbn [order world]; try rewrite Hset; try assumption.
  - destruct (bool_decide_reflect (nodeToken cfg ∈ order s)); [exact Hnd|].
    apply NoDup_app. split; [exact Hnd|]. split; [|apply NoDup_singleton].
    intros token Hin Hin'. apply list_elem_of_singleton in Hin'. now subst.
  - intros token.
    destruct (decide (token = nodeToken cfg)) as [->|Hne].
    + rewrite lookup_insert_eq. split; [eauto|]. intros _.
      destruct (bool_decide_reflect (nodeToken cfg ∈ order s)); [assumption|].
      apply elem_of_app. right. now left.
    + rewrite lookup_insert_ne by congruence. rewrite <- Hdom.
      destruct (bool_decide_reflect (nodeToken cfg ∈ order s)); [reflexivity|].
      rewrite elem_of_app, list_elem_of_singleton. tauto.
Qed.

(** X15. From a session whose index pages were registered through
    [registerIndexPage], [updateAllIndexPages] goes through every registered
    page once, in the order in which the pages were first registered, and
    does not throw (an agent call of this model returns or throws): a pass
    that fails does not keep the later index pages from their own. The pass
    of every page with [autoUpdate] is started exactly once, in that order;
    every other page is reported skipped; the last line is the closing
    one. *)
Theorem updateAllIndexPages_isolates_page_failures (s : Session) :
  ordered s ->
  let pages := entries s in
  map fst pages = order s /\
  NoDup (map fst pages) /\
  (forall token indexPage,
     In (token, indexPage) pages <->
     indexPages (mgr (world s)) !! token = Some indexPage) /\
  exists s',
    updateAllIndexPages s = (Returned tt, s') /\
    passes_started (console (world s')) =
      (passes_started (console (world s)) ++
       map (fun entry => ip_title (snd entry))
         (List.filter (fun entry => autoUpdate (snd entry)) pages))%list /\
    skipped_pages (notices s') =
      (skipped_pages (notices s) ++
       map (fun entry => ip_title (snd entry))
         (List.filter (fun entry => negb (autoUpdate (snd entry))) pages))%list /\
    last (notices s') = Some (length (console (world s')), NoticeAllUpdated).
Proof.
  intros Hord. cbv zeta.
  destruct (ordered_entries s Hord) as (Hkeys & Hnd & Hin).
  split; [exact Hkeys|]. split; [exact Hnd|]. split; [exact Hin|].
  rewrite updateAllIndexPages_run.
  destruct (all_loop_run (entries s) (snd (notice NoticeStartingAll s)))
    as (s1 & E1 & _ & _ & Hs1 & Hk1 & _).
  rewrite E1. eexists. split; [reflexivity|]. cbn [world notices].
  split; [apply Hs1; apply (entries_registered s)|]. split.
  - rewrite skipped_pages_app, Hk1. cbn [notice snd notices].
    rewrite skipped_pages_app. cbn. now rewrite !app_nil_r.
  - apply last_snoc.
Qed.

(** X16. [updateAllIndexPages] only adds: whatever the passes meet, it
    does not throw (an agent call of this model returns or throws), nothing
    registered, cached or recorded is taken away, and [totalShortcuts] grows
    by the number of link creations that returned. When no page has
    [autoUpdate] the world is left as it was. *)
Theorem updateAllIndexPages_only_adds (s : Session) :
  let s' := snd (updateAllIndexPages s) in
  fst (updateAllIndexPages s) = Returned tt /\
  grown (world s) (world s') /\
  totalShortcuts (getStatistics (mgr (world s'))) -
    totalShortcuts (getStatistics (mgr (world s))) =
    creations (console (world s')) - creations (console (world s)) /\
  (forallb (fun entry => negb (autoUpdate (snd entry))) (entries s) = true ->
   world s' = world s).
Proof.
  cbv zeta. rewrite updateAllIndexPages_run.
  destruct (all_loop_run (entries s) (snd (notice NoticeStartingAll s)))
    as (s1 & E1 & Hg & Hb & _ & _ & Hq).
  rewrite E1. cbn [fst snd notice world] in *.
  split; [reflexivity|]. split; [exact Hg|]. split; [|exact Hq].
  rewrite !getStatistics_totalShortcuts. exact Hb.
Qed.

End all_pages_facts.

(** ** Clearing the cache *)

Section cache_facts.
Import WikiIndex Spec MoreSpec Session.
Local Open Scope js_scope.
Context {Pattern : Type} `{RegExpOps Pattern} {R : Type} `{AgentOps R}.
Local Abbreviation World := (World Pattern R).
Local Abbreviation Session := (Session Pattern R).

(** X17. [clearCache] forgets every search and nothing else: the wikis,
    index pages, records and statistics are as they were, and the next
    search, whatever was cached for it, goes to the agent again. *)
Theorem clearCache_forgets_results (s : Session) (space keyword : string) :
  let s' := snd (clearCache s) in
  fst (clearCache s) = Returned tt /\
  searchCache (mgr (world s')) = ∅ /\
  (wikis (mgr (world s')) = wikis (mgr (world s)) /\
   indexPages (mgr (world s')) = indexPages (mgr (world s)) /\
   shortcuts (mgr (world s')) = shortcuts (mgr (world s)) /\
   getStatistics (mgr (world s')) = getStatistics (mgr (world s))) /\
  last (notices s') = Some (length (console (world s)), NoticeCacheCleared) /\
  fst (searchWiki space keyword (world s')) =
    match fst (SEARCH_WIKI space keyword (agent (world s))) with
    | Returned results => Returned (default [] results)
    | Thrown e => Thrown e
    end /\
  agent (snd (searchWiki space keyword (world s'))) =
    snd (SEARCH_WIKI space keyword (agent (world s))).
Proof.
  cbv zeta. unfold clearCache, s_bind, lift, set_this, notice. cbn.
  split; [reflexivity|]. split; [reflexivity|].
  split; [now repeat split|]. split; [apply last_snoc|].
  unfold searchWiki, bind at 1. cbn [this fst snd mgr searchCache].
  rewrite lookup_empty. unfold bind at 1, bind at 1, call. cbn [agent].
  destruct (SEARCH_WIKI space keyword (agent (world s))) as [[results|e] r']; cbn;
    [|now split].
  split; [|reflexivity]. now destruct results.
Qed.

End cache_facts.

(** ** Concrete runs of the properties above *)

Section more_manager_runs.
Import WikiIndex Spec MoreSpec Session Doubles MoreDoubles.
Local Open Scope js_scope.

(** X2, on a concrete run: the first search of "foo" in "main". *)
Lemma searchWiki_memoizes_witness :
  let w1 := snd (searchWiki "main" "foo" fresh_foo) in
  searchCache (mgr w1) !! cacheKey "main" "foo" = Some [doc "A" "foo doc"] /\
  forall w2 : World string Remote,
    searchCache (mgr w2) !! cacheKey "main" "foo" = Some [doc "A" "foo doc"] ->
    searchWiki "main" "foo" w2 = (Returned [doc "A" "foo doc"], w2).
Proof.
  apply (searchWiki_memoizes "main" "foo" fresh_foo
           (snd (searchWiki "main" "foo" fresh_foo))
           (Returned [doc "A" "foo doc"])).
  reflexivity.
Defined.

(** X3, on a concrete run: the wiki answers ("a", "b-c") with the document
    P and ("a-b", "c") with the document Q; after the first search the
    second is answered with P. *)
Lemma searchWiki_key_collision_witness :
  let w1 := snd (searchWiki "a" "b-c" fresh_dashes) in
  remote_search "a-b" "c" wiki_dashes = [doc "Q" "q doc"] /\
  searchWiki "a-b" "c" w1 = (Returned [doc "P" "p doc"], w1).
Proof.
  split; [reflexivity|].
  apply (searchWiki_key_collision "a" "b-c" "a-b" "c" fresh_dashes).
  - reflexivity.
  - reflexivity.
Defined.

(** X4, on a concrete run: the page is registered and the listing is
    refused. *)
Lemma updateIndexPage_gives_up_early_witness :
  exists e w',
    updateIndexPage "idx" (world refused_session) = (Thrown e, w') /\
    (fst (LIST_NODES "idx" 500 (agent (world refused_session))) = Thrown e /\
     w' = {| agent := snd (LIST_NODES "idx" 500 (agent (world refused_session)));
             mgr := mgr (world refused_session);
             console := (console (world refused_session) ++ [LogUpdating "Index"])%list;
             clock := clock (world refused_session) |}) /\
    mgr w' = mgr (world refused_session) /\
    List.filter (fun l => negb (pass_line l)) (console w') =
    List.filter (fun l => negb (pass_line l)) (console (world refused_session)).
Proof.
  apply (updateIndexPage_gives_up_early "idx" (world refused_session)).
  right. exists "no permission". reflexivity.
Defined.

(** X15, on a concrete run: the pages "Index", "Manual" and "Second" were
    registered in this order; the passes of "Index" and "Second" both fail
    at the listing; both are started, and "Manual" is skipped. *)
Lemma updateAllIndexPages_isolates_page_failures_witness :
  map fst (entries refused_session) = ["idx"; "idx2"; "idx3"] /\
  NoDup (map fst (entries refused_session)) /\
  (forall token indexPage,
     In (token, indexPage) (entries refused_session) <->
     indexPages (mgr (world refused_session)) !! token = Some indexPage) /\
  exists s',
    updateAllIndexPages refused_session = (Returned tt, s') /\
    passes_started (console (world s')) =
      (passes_started (console (world refused_session)) ++ ["Index"; "Second"])%list /\
    skipped_pages (notices s') =
      (skipped_pages (notices refused_session) ++ ["Manual"])%list /\
    last (notices s') = Some (length (console (world s')), NoticeAllUpdated).
Proof.
  apply (updateAllIndexPages_isolates_page_failures refused_session).
  change (ordered
    (snd (Session.registerIndexPage page_second
       (snd (Session.registerIndexPage page_manual
          (snd (Session.registerIndexPage page_auto
             (snd (lift (registerWiki "main" true) (newSession refusing)))))))))).
  do 3 apply ordered_registerIndexPage.
  apply (ordered_same_pages (newSession refusing)); [reflexivity|reflexivity|].
  apply ordered_newSession.
Defined.

End more_manager_runs.

Section more_correlator_runs.
Import MCP Lifecycle Doubles.

(** X8, on a concrete run: with the requests 1 and 2 outstanding, a chunk
    holding a line that is no response, a response to the id 9 and a
    response with the id 0. *)
Lemma handleMCPResponse_drops_strays_witness :
  handleMCPResponse
    ("server ready" ++ String newline ("9+late" ++ String newline "0+zero"))
    two_sent = two_sent.
Proof.
  apply (handleMCPResponse_drops_strays
           ("server ready" ++ String newline ("9+late" ++ String newline "0+zero"))
           two_sent).
  intros line response [<-|[<-|[<-|[]]]]; cbn; intros [= <-] i [= <-] Hne;
    [reflexivity | contradiction].
Defined.

(** X9, on a concrete run: the request 1 is answered twice, first with a
    result and then with an error. *)
Lemma duplicate_response_is_dropped_witness :
  let st1 := handleMCPResponse "1+ready" two_sent in
  handleMCPResponse "1-7boom" st1 = st1 /\
  promises st1 !! 0%nat =
    Some (settlement_of {| result := "ready"; error := None; resp_id := Some 1 |}).
Proof.
  apply (duplicate_response_is_dropped two_sent 1 0
           "1+ready" "1+ready"
           {| result := "ready"; error := None; resp_id := Some 1 |}
           "1-7boom" "1-7boom"
           {| result := ""; error := Some {| code := 7; message := "boom" |};
              resp_id := Some 1 |}).
  - unfold two_sent. apply wf_sendMCPRequest, wf_sendMCPRequest, wf_spawn, wf_newAgent.
  - reflexivity.
  - reflexivity.
  - reflexivity.
  - reflexivity.
  - reflexivity.
  - reflexivity.
  - reflexivity.
  - reflexivity.
Defined.

(** X11, on a concrete run: the answer to the request 1 arrives as "1" and
    "+ready". *)
Lemma response_cut_in_two_is_lost_witness :
  handleMCPResponse "+ready" (handleMCPResponse "1" two_sent) = two_sent /\
  promises (handleMCPResponse ("1" ++ "+ready") two_sent) !! 0%nat =
    Some (settlement_of {| result := "ready"; error := None; resp_id := Some 1 |}) /\
  pendingRequests (handleMCPResponse ("1" ++ "+ready") two_sent) !! 1 = None.
Proof.
  apply (response_cut_in_two_is_lost two_sent 1 0 "1" "+ready"
           {| result := "ready"; error := None; resp_id := Some 1 |}).
  - unfold two_sent. apply wf_sendMCPRequest, wf_sendMCPRequest, wf_spawn, wf_newAgent.
  - reflexivity.
  - reflexivity.
  - reflexivity.
  - reflexivity.
  - reflexivity.
  - reflexivity.
  - reflexivity.
  - reflexivity.
  - reflexivity.
Defined.

(** X12, on a concrete run: a request made before the process is started,
    and a line that later carries its id. *)
Lemma sendMCPRequest_without_process_witness :
  let h := fst (sendMCPRequest "tools/list" "" (@newAgent string)) in
  let st1 := snd (sendMCPRequest "tools/list" "" (@newAgent string)) in
  let st2 := handleMCPResponse "1+late" st1 in
  (promises st1 = ([] ++ [not_initialized])%list /\
   promises st1 !! h = Some not_initialized /\
   stdin st1 = None /\
   requestId st1 = js_succ 1 /\
   pendingRequests st1 = <[1 := h]> ∅) /\
  (promises st2 = promises st1 /\
   pendingRequests st2 = delete 1 (pendingRequests st1)).
Proof.
  apply (sendMCPRequest_without_process "tools/list" "" (@newAgent string)
           "1+late" "1+late"
           {| result := "late"; error := None; resp_id := Some 1 |}).
  - apply wf_newAgent.
  - reflexivity.
  - reflexivity.
  - reflexivity.
  - reflexivity.
Defined.

(** X13, on a concrete run: a third request while 1 and 2 are outstanding. *)
Lemma built_requests_never_collide_witness :
  let h' := fst (sendMCPRequest "tools/call" "" two_sent) in
  let st' := snd (sendMCPRequest "tools/call" "" two_sent) in
  1 <= 1 < requestId two_sent /\
  h' <> 0%nat /\
  requestId two_sent < requestId st' /\
  pendingRequests st' !! requestId two_sent = Some h' /\
  pendingRequests st' !! 1 = Some 0%nat /\
  promises st' !! 0%nat = promises two_sent !! 0%nat.
Proof.
  apply (built_requests_never_collide two_sent "tools/call" "" 1 0).
  - unfold two_sent. apply built_send, built_send, built_spawn, built_new.
  - vm_compute. reflexivity.
  - reflexivity.
Defined.

(** X14, on a concrete run: the requests 1 and 2 are outstanding. *)
Lemma built_agents_track_unsettled_promises_witness :
  (forall h, promises two_sent !! h = Some Pending ->
     exists i, pendingRequests two_sent !! i = Some h /\
       1 <= i < requestId two_sent /\
       forall j, pendingRequests two_sent !! j = Some h -> j = i) /\
  (forall i h, pendingRequests two_sent !! i = Some h ->
     promises two_sent !! h = Some Pending \/
     promises two_sent !! h = Some not_initialized).
Proof.
  apply (built_agents_track_unsettled_promises two_sent).
  - unfold two_sent. apply built_send, built_send, built_spawn, built_new.
  - vm_compute. reflexivity.
Defined.

End more_correlator_runs.

(** ** The command layer *)

Section parse_facts.
Import Commands.

Lemma match_commands_names (ds : list ascii) :
  Forall (fun d => is_digit d = true) ds ->
  match_commands (fold_right (fun d rest => " " ++ command_name d ++ rest)%string "" ds) =
  map command_name ds.
Proof.
  induction 1 as [|d ds Hd _ IH]; [reflexivity|].
  cbn [fold_right map]. unfold command_name at 1.
  change (" " ++ String "C" (String d "") ++ ?rest)%string
    with (String " " (String "C" (String d rest))).
  cbn [match_commands]. change (Ascii.eqb " " "C") with false. cbn [andb].
  rewrite Hd. change (Ascii.eqb "C" "C") with true. cbn [andb].
  now rewrite IH.
Qed.

(** X18. [parseCommand] reads a chain back: the text [Run] followed by the
    names [C] and a digit, each after a space, is parsed to the chain of
    these names in order when there are several, and to the single command
    when there is one; the digits need not name a controller. *)
Theorem parseCommand_reads_chains (ds : list ascii) :
  Forall (fun d => is_digit d = true) ds ->
  parseCommand (chain_of ds) =
  match ds with
  | [] => {| type := "Run"; p_operation := None; commands := None |}
  | [d] => {| type := command_name d; p_operation := None; commands := None |}
  | _ => {| type := "RUN_CHAIN"; p_operation := None;
            commands := Some (map command_name ds) |}
  end.
Proof.
  intros Hds. pose proof (match_commands_names ds Hds) as Hm.
  destruct ds as [|d ds]; [reflexivity|].
  unfold parseCommand, chain_of.
  set (rest := fold_right _ _ (d :: ds)) in *.
  assert (Hrest : rest = String " " (String "C" (String d
            (fold_right (fun d rest => " " ++ command_name d ++ rest)%string "" ds))))
    by reflexivity.
  assert (Hwhole : match_commands ("Run" ++ rest) = match_commands rest).
  { rewrite Hrest. cbn. reflexivity. }
  rewrite Hwhole, Hm. rewrite Hrest. cbn [String.append String.eqb String.prefix].
  change (Ascii.eqb "u" "U") with false.
  change (Ascii.eqb "R" "R") with true. cbn [map].
  destruct ds as [|d' ds]; reflexivity.
Qed.

Lemma take_word_app (op rest : string) :
  all_word op = true -> stops_word rest = true -> take_word (op ++ rest) = op.
Proof.
  intros Hop Hrest. induction op as [|c op IH].
  - change (take_word rest = ""). destruct rest as [|c rest]; [reflexivity|].
    cbn in *. destruct (is_word c); cbn in *; congruence.
  - change (take_word (String c (op ++ rest)) = String c op). cbn in *.
    apply andb_true_iff in Hop as [-> Hop]. now rewrite IH.
Qed.

(** X19. [parseCommand] splits [Cd.OPERATION]: after [C], a digit and a dot,
    the longest run of word characters is the operation, and whatever
    follows it is ignored. *)
Theorem parseCommand_reads_operations (d : ascii) (op rest : string) :
  is_digit d = true ->
  op <> EmptyString ->
  all_word op = true ->
  stops_word rest = true ->
  parseCommand (command_name d ++ "." ++ op ++ rest) =
    {| type := command_name d; p_operation := Some op; commands := None |}.
Proof.
  intros Hd Hne Hop Hrest. unfold parseCommand, command_name.
  change (String "C" (String d "") ++ "." ++ op ++ rest)%string
    with (String "C" (String d (String "." (op ++ rest)))).
  cbn [String.eqb String.prefix].
  change (Ascii.eqb "C" "R") with false. change (Ascii.eqb "R" "C") with false.
  cbn [andb]. unfold match_dotted. rewrite Hd.
  change (Ascii.eqb "C" "C") with true. change (Ascii.eqb "." ".") with true.
  cbn [andb]. rewrite (take_word_app op rest Hop Hrest).
  destruct op; [contradiction | reflexivity].
Qed.

End parse_facts.

Section command_facts.
Import Commands.
Local Open Scope cmd_scope.
Context {R : Type} `{Runtime R}.
Local Abbreviation M := (@M R).
Local Abbreviation Agent := (Agent R).

(** *** Steps that leave the agent's own fields alone *)

Lemma quiet_ret {A} (a : A) : quiet (ret a : M A).
Proof. intros st. now repeat split. Qed.

Lemma quiet_throw {A} e : quiet (throw e : M A).
Proof. intros st. now repeat split. Qed.

Lemma quiet_of_result {A} (r : Result A) : quiet (of_result r : M A).
Proof. intros st. now repeat split. Qed.

Lemma quiet_prop v name : quiet (prop v name : M Json).
Proof. apply quiet_of_result. Qed.

Lemma quiet_the_config : quiet (the_config : M Config).
Proof. intros st. now repeat split. Qed.

Lemma quiet_tool name args : quiet (tool name args).
Proof.
  intros st. unfold tool, on_server.
  destruct (callMCPTool name args (server st)) as [o r']. now repeat split.
Qed.

Lemma quiet_bind {A B} (m : M A) (k : A -> M B) :
  quiet m -> (forall a, quiet (k a)) -> quiet (bind m k).
Proof.
  intros Hm Hk st. unfold bind. specialize (Hm st).
  destruct (m st) as [[a|e|] st1]; cbn in *; [|exact Hm..].
  specialize (Hk a st1). destruct Hm as (-> & -> & ->) in Hk. exact Hk.
Qed.

Lemma settles_ret {A} (a : A) : settles (ret a : M A).
Proof. intros st. discriminate. Qed.

Lemma settles_throw {A} e : settles (throw e : M A).
Proof. intros st. discriminate. Qed.

Lemma settles_prop v name : settles (prop v name : M Json).
Proof. intros st. unfold prop, of_result, get. now destruct v. Qed.

Lemma settles_the_config : settles (the_config : M Config).
Proof. intros st. discriminate. Qed.

Lemma settles_tool name args : responsive -> settles (tool name args).
Proof.
  intros [Hcall _] st. unfold tool, on_server.
  specialize (Hcall name args (server st)).
  now destruct (callMCPTool name args (server st)) as [o r'].
Qed.

Lemma settles_bind {A B} (m : M A) (k : A -> M B) :
  settles m -> (forall a, settles (k a)) -> settles (bind m k).
Proof.
  intros Hm Hk st. unfold bind. specialize (Hm st).
  destruct (m st) as [[a|e|] st1]; cbn in *; [apply Hk | discriminate | contradiction].
Qed.

(** *** The shape of a controller *)

Lemma createCommandContext_run cmd op args (st : Agent) :
  createCommandContext cmd op args st =
  (Done (context_at cmd op args st),
   {| server := after_context (server st); config := config st;
      initialized := initialized st; commandHistory := commandHistory st |}).
Proof.
  unfold createCommandContext, context_at, after_context, bind, on_server, ret.
  destruct (Date_now (server st)) as [t r]. cbn.
  destruct (Date_now r) as [t' r']. reflexivity.
Qed.

Lemma controller_run cmd op args (body : M Json) (st : Agent) :
  controller cmd op args body st =
  match body {| server := after_context (server st); config := config st;
                initialized := initialized st; commandHistory := commandHistory st |} with
  | (Unfinished, st') => (Unfinished, st')
  | (o, st') => (o, logCommandExecution (context_at cmd op args st) st')
  end.
Proof.
  unfold controller, bind. rewrite createCommandContext_run. unfold try_finally.
  now destruct (body _) as [[a|e|] st'].
Qed.

Lemma controller_logs cmd op args (body : M Json) (st : Agent) :
  quiet body ->
  match controller cmd op args body st with
  | (Unfinished, st') => commandHistory st' = commandHistory st
  | (_, st') =>
      commandHistory st' = (commandHistory st ++ [context_at cmd op args st])%list
  end.
Proof.
  intros Hq. rewrite controller_run.
  specialize (Hq {| server := after_context (server st); config := config st;
                    initialized := initialized st;
                    commandHistory := commandHistory st |}).
  destruct (body _) as [[a|e|] st']; cbn in *; destruct Hq as (Hh & _ & _);
    now rewrite ?Hh.
Qed.

Lemma controller_keeps cmd op args (body : M Json) (st : Agent) :
  quiet body -> settles body ->
  fst (controller cmd op args body st) <> Unfinished /\
  initialized (snd (controller cmd op args body st)) = initialized st /\
  config (snd (controller cmd op args body st)) = config st.
Proof.
  intros Hq Hs. rewrite controller_run.
  set (st0 := {| server := after_context (server st); config := config st;
                 initialized := initialized st; commandHistory := commandHistory st |}).
  specialize (Hq st0). specialize (Hs st0).
  destruct (body st0) as [[a|e|] st']; cbn in *; destruct Hq as (_ & Hc & Hi);
    try contradiction; now repeat split.
Qed.

Ltac quiet_steps :=
  repeat first
    [ apply quiet_bind; [|intros ?]
    | apply quiet_tool | apply quiet_prop | apply quiet_the_config
    | apply quiet_ret | apply quiet_throw
    | match goal with |- quiet (if ?b then _ else _) => destruct b end ].

Ltac settles_steps Hresp :=
  repeat first
    [ apply settles_bind; [|intros ?]
    | apply (settles_tool _ _ Hresp) | apply settles_prop | apply settles_the_config
    | apply settles_ret | apply settles_throw
    | match goal with |- settles (if ?b then _ else _) => destruct b end ].

(** X20. The controllers C1 to C4 keep the history complete: every call
    that comes to an end, whether it returns, throws or names an unknown
    operation, adds exactly one entry, with its command, operation and
    parameters; a call that never ends adds none. *)
Theorem controllers_log_every_call :
  logs_call "C1" (executeC1_WikiSpace : string -> Json -> M Json) /\
  logs_call "C2" (executeC2_NodeManagement : string -> Json -> M Json) /\
  logs_call "C3" (executeC3_PermissionManagement : string -> Json -> M Json) /\
  logs_call "C4" (executeC4_ContentOperations : string -> Json -> M Json).
Proof.
  refine (conj _ (conj _ (conj _ _))); intros op args st; apply controller_logs.
  - unfold initializeWikiSpace, createWikiSpace, getSpaceInfo, listWikiSpaces,
      updateSpaceSettings. quiet_steps.
  - unfold createNode, listNodes, moveNode, copyNode, updateNodeTitle, getNodeInfo.
    quiet_steps.
  - unfold listSpaceMembers, addSpaceMember, removeSpaceMember, updatePermissions.
    quiet_steps.
  - unfold searchWiki, getDocumentContent, createDocument, updateDocument,
      wikiToBitable, getNodeInfo. quiet_steps.
Qed.

(** X21. The search of [WikiIndexManager] reaches the server for the
    configured wiki only: whatever [space_id] the parameters carry, the
    request of [SEARCH_WIKI] is made with the [spaceId] of the agent's
    configuration, and its answer is the answer to that request. *)
Theorem search_request_ignores_space (space keyword : Json) (st : Agent) :
  let request :=
    JObj [("space_id", JStr (spaceId (config st))); ("query", keyword);
          ("parent_node_token", JUndefined)] in
  let answer := callMCPTool "wiki.v1.node.search" request (after_context (server st)) in
  let run := executeC4_ContentOperations "SEARCH_WIKI" (search_params space keyword) st in
  fst run = fst answer /\ server (snd run) = snd answer.
Proof.
  cbv zeta. unfold executeC4_ContentOperations. rewrite controller_run.
  cbn [String.eqb Ascii.eqb Bool.eqb].
  set (st0 := {| server := after_context (server st); config := config st;
                 initialized := initialized st; commandHistory := commandHistory st |}).
  change (searchWiki (search_params space keyword) st0)
    with (tool "wiki.v1.node.search"
            (JObj [("space_id", JStr (spaceId (config st))); ("query", keyword);
                   ("parent_node_token", JUndefined)]) st0).
  unfold tool, on_server. cbn [server st0].
  destruct (callMCPTool _ _ _) as [[a|e|] r']; now split.
Qed.

(** X22. The link creation of [WikiIndexManager] loses its target on the
    way: the request of [CREATE_NODE] made for [createShortcut] carries the
    parent, the node type [shortcut], the configured wiki and the default
    object type, and neither [origin_node_token] nor [origin_space_id]; two
    creations under the same parent for different targets make the same
    request. *)
Theorem shortcut_request_drops_origin (index target space : Json) (st : Agent) :
  let request :=
    JObj [("space_id", JStr (spaceId (config st)));
          ("parent_node_token", j_or index (JStr (rootNodeToken (config st))));
          ("node_type", JStr "shortcut");
          ("obj_type", JStr "docx");
          ("title", JUndefined)] in
  let answer := callMCPTool "wiki.v2.spaceNode.create" request (after_context (server st)) in
  let run := executeC2_NodeManagement "CREATE_NODE" (shortcut_params index target space) st in
  fst run = fst answer /\ server (snd run) = snd answer.
Proof.
  cbv zeta. unfold executeC2_NodeManagement. rewrite controller_run.
  cbn [String.eqb Ascii.eqb Bool.eqb].
  set (st0 := {| server := after_context (server st); config := config st;
                 initialized := initialized st; commandHistory := commandHistory st |}).
  change (createNode (shortcut_params index target space) st0)
    with (tool "wiki.v2.spaceNode.create"
            (JObj [("space_id", JStr (spaceId (config st)));
                   ("parent_node_token", j_or index (JStr (rootNodeToken (config st))));
                   ("node_type", JStr "shortcut");
                   ("obj_type", JStr "docx");
                   ("title", JUndefined)]) st0).
  unfold tool, on_server. cbn [server st0].
  destruct (callMCPTool _ _ _) as [[a|e|] r']; now split.
Qed.

(** *** Dispatch *)

Lemma initialize_ready (st : Agent) :
  initialized st = true -> initialize st = (Done tt, st).
Proof. intros Hi. unfold initialize. now rewrite Hi. Qed.

(** [execute] once the agent is initialised. *)
Lemma execute_after (fuel : nat) (s : string) (args : Json) (st st' : Agent) :
  initialize st = (Done tt, st') ->
  execute (S fuel) (JStr s) args st =
  (let parsed := parseCommand s in
   let t := type parsed in
   if String.eqb t "RUN_ALL" then runAll (execute fuel)
   else if String.eqb t "RUN_CHAIN" then runChain (execute fuel) (commands parsed)
   else if String.eqb t "C1" then
     executeC1_WikiSpace (operation_or parsed "INITIALIZE") args
   else if String.eqb t "C2" then
     executeC2_NodeManagement (operation_or parsed "LIST_NODES") args
   else if String.eqb t "C3" then
     executeC3_PermissionManagement (operation_or parsed "LIST_MEMBERS") args
   else if String.eqb t "C4" then
     executeC4_ContentOperations (operation_or parsed "SEARCH_WIKI") args
   else if String.eqb t "C5" then
     executeC5_Automation (execute fuel) (operation_or parsed "BATCH_OPERATIONS") args
   else throw (Error ("Unknown command: " ++ s))) st'.
Proof. intros Hi. cbn [execute]. unfold bind at 1. now rewrite Hi. Qed.

Lemma execute_unknown (fuel : nat) (s : string) (args : Json) (st st' : Agent) :
  initialize st = (Done tt, st') ->
  known_type (type (parseCommand s)) = false ->
  execute (S fuel) (JStr s) args st = (Raised (Error ("Unknown command: " ++ s)), st').
Proof.
  intros Hi Hk. rewrite (execute_after fuel s args st st' Hi). cbv zeta.
  unfold known_type in Hk. cbn [existsb] in Hk.
  repeat (apply orb_false_iff in Hk as [? Hk]).
  repeat match goal with E : String.eqb _ _ = false |- _ => rewrite E; clear E end.
  reflexivity.
Qed.

(** X23. [execute] rejects what its [switch] has no case for: when the
    parsed type is none of [RUN_ALL], [RUN_CHAIN] and [C1] to [C5], it
    throws [Unknown command] with the text as given, once the agent is
    initialised, without any tool call or history entry; and when the
    initialisation throws, that error is what [execute] throws. *)
Theorem execute_rejects_unknown_commands
    (fuel : nat) (s : string) (args : Json) (st : Agent) :
  known_type (type (parseCommand s)) = false ->
  match initialize st with
  | (Done _, st') =>
      execute (S fuel) (JStr s) args st =
        (Raised (Error ("Unknown command: " ++ s)), st')
  | (Raised e, st') => execute (S fuel) (JStr s) args st = (Raised e, st')
  | (Unfinished, st') => execute (S fuel) (JStr s) args st = (Unfinished, st')
  end.
Proof.
  intros Hk. destruct (initialize st) as [[[]|e|] st'] eqn:Hi.
  - now apply execute_unknown.
  - cbn [execute]. unfold bind at 1. now rewrite Hi.
  - cbn [execute]. unfold bind at 1. now rewrite Hi.
Qed.

(** *** Chains *)

Lemma run_step_run (exec : Json -> Json -> M Json) results cmd (st : Agent) :
  run_step exec results cmd st =
  match exec (JStr cmd) JUndefined st with
  | (Done result, st') =>
      (Done (results ++ [JObj [("command", JStr cmd); ("success", JBool true);
                               ("result", result)]])%list, st')
  | (Raised e, st') =>
      (Done (results ++ [JObj [("command", JStr cmd); ("success", JBool false);
                               ("error", JStr (message e))]])%list, st')
  | (Unfinished, st') => (Unfinished, st')
  end.
Proof.
  unfold run_step, try_catch, bind.
  now destruct (exec (JStr cmd) JUndefined st) as [[result|e|] st'].
Qed.

Lemma parseCommand_name (d : ascii) :
  parseCommand (command_name d) =
    {| type := command_name d; p_operation := None; commands := None |}.
Proof. reflexivity. Qed.

(** Every match of [/C\d/g] is [C] and a digit. *)
Lemma match_commands_shape (s : string) :
  Forall (fun cmd => exists d, is_digit d = true /\ cmd = command_name d)
    (match_commands s).
Proof.
  enough (Hboth :
    Forall (fun cmd => exists d, is_digit d = true /\ cmd = command_name d)
      (match_commands s) /\
    forall c,
      Forall (fun cmd => exists d, is_digit d = true /\ cmd = command_name d)
        (match_commands (String c s))) by apply Hboth.
  induction s as [|a s [IH1 IH2]].
  - split; [constructor | intros c; constructor].
  - split; [apply IH2|]. intros c. cbn [match_commands].
    destruct (Ascii.eqb c "C" && is_digit a)%bool eqn:Hc; [|apply IH2].
    apply andb_true_iff in Hc as [Hc Ha]. apply Ascii.eqb_eq in Hc. subst c.
    constructor; [now exists a | exact IH1].
Qed.

Lemma parsed_chain (s : string) (names : list string) :
  commands (parseCommand s) = Some names ->
  type (parseCommand s) = "RUN_CHAIN" /\ names = match_commands s.
Proof.
  unfold parseCommand.
  destruct (String.eqb s "RUN ALL"); [discriminate|].
  destruct (String.prefix "Run C" s); destruct (match_dotted s) as [[t op]|];
    try discriminate;
    destruct (match_commands s) as [|a [|b l]]; cbn; try discriminate;
    intros [= <-]; now split.
Qed.

(** A step of a chain comes to an end, and leaves the agent initialised. *)
Lemma execute_name_settles (fuel : nat) (cmd : string) (st : Agent) :
  responsive ->
  (exists d, is_digit d = true /\ cmd = command_name d) ->
  initialized st = true ->
  fst (execute (S fuel) (JStr cmd) JUndefined st) <> Unfinished /\
  initialized (snd (execute (S fuel) (JStr cmd) JUndefined st)) = true.
Proof.
  intros Hresp (d & Hd & ->) Hi.
  rewrite (execute_after fuel _ JUndefined st st (initialize_ready st Hi)).
  rewrite parseCommand_name. cbv zeta. cbn [type].
  change (String.eqb (command_name d) "RUN_ALL") with false.
  change (String.eqb (command_name d) "RUN_CHAIN") with false.
  unfold operation_or. cbn [p_operation]. cbv iota.
  assert (Hkeeps : forall cmd op (body : M Json), quiet body -> settles body ->
            fst (controller cmd op JUndefined body st) <> Unfinished /\
            initialized (snd (controller cmd op JUndefined body st)) = true).
  { intros c op body Hq Hs.
    destruct (controller_keeps c op JUndefined body st Hq Hs) as (Hend & Hinit & _).
    split; [exact Hend | now rewrite Hinit]. }
  destruct (String.eqb (command_name d) "C1").
  { apply Hkeeps;
      unfold initializeWikiSpace, createWikiSpace, getSpaceInfo, listWikiSpaces,
        updateSpaceSettings; [quiet_steps | settles_steps Hresp]. }
  destruct (String.eqb (command_name d) "C2").
  { apply Hkeeps;
      unfold createNode, listNodes, moveNode, copyNode, updateNodeTitle, getNodeInfo;
      [quiet_steps | settles_steps Hresp]. }
  destruct (String.eqb (command_name d) "C3").
  { apply Hkeeps;
      unfold listSpaceMembers, addSpaceMember, removeSpaceMember, updatePermissions;
      [quiet_steps | settles_steps Hresp]. }
  destruct (String.eqb (command_name d) "C4").
  { apply Hkeeps;
      unfold searchWiki, getDocumentContent, createDocument, updateDocument,
        wikiToBitable, getNodeInfo; [quiet_steps | settles_steps Hresp]. }
  destruct (String.eqb (command_name d) "C5").
  { change (executeC5_Automation (execute fuel) "BATCH_OPERATIONS" JUndefined)
      with (controller "C5" "BATCH_OPERATIONS" JUndefined
              (throw (TypeError (ReadOf JUndefined "operations")) : M Json)).
    apply Hkeeps; [apply quiet_throw | apply settles_throw]. }
  split; [discriminate | exact Hi].
Qed.

(** *** [RUN ALL] *)

(** The world a controller's body starts from. *)
Lemma failing_controller cmd op (body : M Json) e (st : Agent) :
  (forall st0, body st0 = (Raised e, st0)) ->
  controller cmd op JUndefined body st =
  (Raised e,
   logCommandExecution (context_at cmd op JUndefined st)
     {| server := after_context (server st); config := config st;
        initialized := initialized st; commandHistory := commandHistory st |}).
Proof. intros Hbody. rewrite controller_run. now rewrite Hbody. Qed.

Lemma execute_C2_bare (fuel : nat) (st : Agent) :
  initialized st = true ->
  execute (S fuel) (JStr "C2") JUndefined st =
  (Raised (TypeError (ReadOf JUndefined "parent_node_token")),
   logCommandExecution (context_at "C2" "LIST_NODES" JUndefined st)
     {| server := after_context (server st); config := config st;
        initialized := initialized st; commandHistory := commandHistory st |}).
Proof.
  intros Hi. rewrite (execute_after fuel _ JUndefined st st (initialize_ready st Hi)).
  now apply (failing_controller "C2" "LIST_NODES" (listNodes JUndefined)).
Qed.

Lemma execute_C3_bare (fuel : nat) (st : Agent) :
  initialized st = true ->
  execute (S fuel) (JStr "C3") JUndefined st =
  (Raised (TypeError (ReadOf JUndefined "space_id")),
   logCommandExecution (context_at "C3" "LIST_MEMBERS" JUndefined st)
     {| server := after_context (server st); config := config st;
        initialized := initialized st; commandHistory := commandHistory st |}).
Proof.
  intros Hi. rewrite (execute_after fuel _ JUndefined st st (initialize_ready st Hi)).
  now apply (failing_controller "C3" "LIST_MEMBERS" (listSpaceMembers JUndefined)).
Qed.

Lemma execute_C4_bare (fuel : nat) (st : Agent) :
  initialized st = true ->
  execute (S fuel) (JStr "C4") JUndefined st =
  (Raised (TypeError (ReadOf JUndefined "query")),
   logCommandExecution (context_at "C4" "SEARCH_WIKI" JUndefined st)
     {| server := after_context (server st); config := config st;
        initialized := initialized st; commandHistory := commandHistory st |}).
Proof.
  intros Hi. rewrite (execute_after fuel _ JUndefined st st (initialize_ready st Hi)).
  now apply (failing_controller "C4" "SEARCH_WIKI" (searchWiki JUndefined)).
Qed.

Lemma execute_C5_bare (fuel : nat) (st : Agent) :
  initialized st = true ->
  execute (S fuel) (JStr "C5") JUndefined st =
  (Raised (TypeError (ReadOf JUndefined "operations")),
   logCommandExecution (context_at "C5" "BATCH_OPERATIONS" JUndefined st)
     {| server := after_context (server st); config := config st;
        initialized := initialized st; commandHistory := commandHistory st |}).
Proof.
  intros Hi. rewrite (execute_after fuel _ JUndefined st st (initialize_ready st Hi)).
  now apply (failing_controller "C5" "BATCH_OPERATIONS"
               (executeBatchOperations (execute fuel) JUndefined)).
Qed.

Lemma execute_C1_bare (fuel : nat) (st : Agent) :
  initialized st = true ->
  execute (S fuel) (JStr "C1") JUndefined st =
  controller "C1" "INITIALIZE" JUndefined initializeWikiSpace st.
Proof.
  intros Hi. now rewrite (execute_after fuel _ JUndefined st st (initialize_ready st Hi)).
Qed.

(** A chain whose steps all come to an end returns the entries of its
    commands, each run by itself without parameters. *)
Lemma chain_loop_entries (exec : Json -> Json -> M Json) (names : list string) :
  (forall cmd st, In cmd names -> initialized st = true ->
     fst (exec (JStr cmd) JUndefined st) <> Unfinished /\
     initialized (snd (exec (JStr cmd) JUndefined st)) = true) ->
  forall results (st : Agent), initialized st = true ->
    for_of names results (run_step exec) st =
      (Done (results ++ fst (chain_entries exec names st))%list,
       snd (chain_entries exec names st)) /\
    initialized (snd (chain_entries exec names st)) = true.
Proof.
  induction names as [|cmd names IH]; intros Hsteps results st Hi.
  - cbn. now rewrite app_nil_r.
  - cbn [for_of chain_entries]. unfold bind at 1. rewrite run_step_run.
    destruct (Hsteps cmd st (or_introl eq_refl) Hi) as [Hend Hinit].
    destruct (exec (JStr cmd) JUndefined st) as [[result|e|] st1]; cbn in Hend, Hinit;
      [| |contradiction].
    + match goal with |- context [for_of names ?acc _ st1] =>
        destruct (IH (fun c s Hc => Hsteps c s (or_intror Hc)) acc st1 Hinit)
          as (E & Hi')
      end.
      rewrite E. destruct (chain_entries exec names st1) as [more st'].
      cbn [fst snd chain_entry] in *. rewrite <- app_assoc. now split.
    + match goal with |- context [for_of names ?acc _ st1] =>
        destruct (IH (fun c s Hc => Hsteps c s (or_intror Hc)) acc st1 Hinit)
          as (E & Hi')
      end.
      rewrite E. destruct (chain_entries exec names st1) as [more st'].
      cbn [fst snd chain_entry] in *. rewrite <- app_assoc. now split.
Qed.

Lemma chain_entries_each (exec : Json -> Json -> M Json)
    (P : string -> Json -> Prop) (names : list string) :
  (forall cmd st, In cmd names -> initialized st = true ->
     P cmd (chain_entry cmd (fst (exec (JStr cmd) JUndefined st))) /\
     initialized (snd (exec (JStr cmd) JUndefined st)) = true) ->
  forall st : Agent, initialized st = true ->
    Forall2 P names (fst (chain_entries exec names st)).
Proof.
  induction names as [|cmd names IH]; intros Hsteps st Hi; [constructor|].
  cbn [chain_entries].
  destruct (Hsteps cmd st (or_introl eq_refl) Hi) as [HP Hinit].
  destruct (exec (JStr cmd) JUndefined st) as [r st1]; cbn [fst snd] in *.
  specialize (IH (fun c s Hc => Hsteps c s (or_intror Hc)) st1 Hinit).
  destruct (chain_entries exec names st1) as [more st']. cbn [fst] in *.
  now constructor.
Qed.

Lemma map_Forall2 {A B C} (f : B -> C) (g : A -> C) (l : list A) (l' : list B) :
  Forall2 (fun a b => f b = g a) l l' -> map f l' = map g l.
Proof. induction 1 as [|a b l l' Hab _ IH]; cbn; congruence. Qed.

(** Every command of a chain but C1 fails for want of parameters. *)
Lemma execute_bare_fails (fuel : nat) (d : ascii) (st : Agent) :
  is_digit d = true ->
  command_name d <> "C1" ->
  initialized st = true ->
  fst (execute (S fuel) (JStr (command_name d)) JUndefined st) =
    Raised (bare_failure (command_name d)).
Proof.
  intros Hd Hne Hi.
  destruct d as [[] [] [] [] [] [] [] []]; try discriminate Hd;
    first
      [ now destruct Hne
      | change (command_name _) with "C2"; now rewrite execute_C2_bare
      | change (command_name _) with "C3"; now rewrite execute_C3_bare
      | change (command_name _) with "C4"; now rewrite execute_C4_bare
      | change (command_name _) with "C5"; now rewrite execute_C5_bare
      | rewrite (execute_unknown fuel _ JUndefined st st (initialize_ready st Hi));
        reflexivity ].
Qed.

(** X24. A chain never throws, and runs each of its commands without
    parameters: for a command text that parses to a chain, on an
    initialised agent whose server answers every request, [execute] returns
    the entries of the commands of the chain, in order, each the entry of
    running that command by itself without parameters, whatever parameters
    the chain was given. So every command of a chain other than C1 fails:
    C2 to C5 for reading a property of their missing parameters, any other
    as unknown. *)
Theorem chains_never_throw
    (fuel : nat) (s : string) (names : list string) (args : Json) (st : Agent) :
  responsive ->
  initialized st = true ->
  commands (parseCommand s) = Some names ->
  let results := fst (chain_entries (execute (S fuel)) names st) in
  let st' := snd (chain_entries (execute (S fuel)) names st) in
  execute (S (S fuel)) (JStr s) args st = (Done (JArr results), st') /\
  map (member "command") results = map JStr names /\
  Forall2 (fun cmd entry =>
             (member "success" entry = JBool true \/
              member "success" entry = JBool false) /\
             (cmd <> "C1" ->
              entry = JObj [("command", JStr cmd); ("success", JBool false);
                            ("error", JStr (message (bare_failure cmd)))]))
    names results /\
  initialized st' = true.
Proof.
  intros Hresp Hi Hparsed. cbv zeta.
  destruct (parsed_chain s names Hparsed) as [Htype ->].
  assert (Hsteps : forall cmd, In cmd (match_commands s) ->
            exists d, is_digit d = true /\ cmd = command_name d).
  { intros cmd Hin. pose proof (match_commands_shape s) as Hshape.
    rewrite Forall_forall in Hshape. apply Hshape. now apply list_elem_of_In. }
  destruct (chain_loop_entries (execute (S fuel)) (match_commands s)) with
    (results := @nil Json) (st := st) as (E & Hi'); [|exact Hi|].
  { intros cmd st0 Hin Hi0. apply execute_name_settles; [exact Hresp| |exact Hi0].
    now apply (Hsteps cmd). }
  split; [|split; [|split; [|exact Hi']]].
  - rewrite (execute_after (S fuel) s args st st (initialize_ready st Hi)).
    cbv zeta. rewrite Htype, Hparsed.
    change (String.eqb "RUN_CHAIN" "RUN_ALL") with false.
    change (String.eqb "RUN_CHAIN" "RUN_CHAIN") with true. cbv iota.
    unfold runChain, bind at 1. now rewrite E.
  - assert (Hall : Forall2 (fun cmd entry => member "command" entry = JStr cmd)
                     (match_commands s)
                     (fst (chain_entries (execute (S fuel)) (match_commands s) st))).
    { apply chain_entries_each; [|exact Hi]. intros cmd st0 Hin Hi0.
      destruct (execute_name_settles fuel cmd st0 Hresp (Hsteps cmd Hin) Hi0)
        as [Hend Hinit].
      split; [|exact Hinit].
      destruct (fst (execute (S fuel) (JStr cmd) JUndefined st0));
        [reflexivity | reflexivity | contradiction]. }
    now apply map_Forall2.
  - apply chain_entries_each; [|exact Hi]. intros cmd st0 Hin Hi0.
    destruct (Hsteps cmd Hin) as (d & Hd & ->).
    destruct (execute_name_settles fuel (command_name d) st0 Hresp
                (ex_intro _ d (conj Hd eq_refl)) Hi0) as [Hend Hinit].
    split; [|exact Hinit]. split.
    + destruct (fst (execute (S fuel) (JStr (command_name d)) JUndefined st0));
        [now left | now right | contradiction].
    + intros Hne. now rewrite (execute_bare_fails fuel d st0 Hd Hne Hi0).
Qed.

(** X25. [RUN ALL] runs the five controllers without parameters, so only
    the first can succeed: on an initialised agent whose server answers,
    it returns five entries, and the entries of C2, C3, C4 and C5 are
    failures, each a [TypeError] from reading a property of the missing
    parameters, whatever the server does. All five calls are in the
    history, with their default operations. *)
Theorem run_all_fails_after_C1 (fuel : nat) (args : Json) (st : Agent) :
  responsive ->
  initialized st = true ->
  exists first entries st',
    execute (S (S fuel)) (JStr "RUN ALL") args st =
      (Done (JArr [first;
                   failed_step "C2" (ReadOf JUndefined "parent_node_token");
                   failed_step "C3" (ReadOf JUndefined "space_id");
                   failed_step "C4" (ReadOf JUndefined "query");
                   failed_step "C5" (ReadOf JUndefined "operations")]), st') /\
    member "command" first = JStr "C1" /\
    commandHistory st' = (commandHistory st ++ entries)%list /\
    map (fun c => (command c, operation c, params c)) entries =
      [("C1", "INITIALIZE", JUndefined); ("C2", "LIST_NODES", JUndefined);
       ("C3", "LIST_MEMBERS", JUndefined); ("C4", "SEARCH_WIKI", JUndefined);
       ("C5", "BATCH_OPERATIONS", JUndefined)].
Proof.
  intros Hresp Hi.
  rewrite (execute_after (S fuel) _ args st st (initialize_ready st Hi)).
  cbv zeta.
  change (parseCommand "RUN ALL")
    with {| type := "RUN_ALL"; p_operation := None; commands := None |}.
  cbn [type]. change (String.eqb "RUN_ALL" "RUN_ALL") with true. cbv iota.
  unfold runAll, runChain, bind at 1. cbn [for_of].
  unfold bind at 1. rewrite run_step_run, execute_C1_bare by exact Hi.
  assert (Hq : quiet (initializeWikiSpace : M Json))
    by (unfold initializeWikiSpace; quiet_steps).
  assert (Hs : settles (initializeWikiSpace : M Json))
    by (unfold initializeWikiSpace; settles_steps Hresp).
  pose proof (controller_logs "C1" "INITIALIZE" JUndefined _ st Hq) as Hlog.
  destruct (controller_keeps "C1" "INITIALIZE" JUndefined _ st Hq Hs)
    as (Hend & Hinit & _).
  rewrite Hi in Hinit.
  destruct (controller "C1" "INITIALIZE" JUndefined initializeWikiSpace st)
    as [[result|e|] st1]; cbn [fst snd] in *; [| |contradiction].
  all: unfold bind at 1; rewrite run_step_run, execute_C2_bare by exact Hinit.
  all: unfold bind at 1; rewrite run_step_run, execute_C3_bare by exact Hinit.
  all: unfold bind at 1; rewrite run_step_run, execute_C4_bare by exact Hinit.
  all: unfold bind at 1; rewrite run_step_run, execute_C5_bare by exact Hinit.
  all: cbn [ret app message]; eexists _, _, _; split; [reflexivity|];
    split; [reflexivity|]; cbn [commandHistory logCommandExecution];
    rewrite Hlog, <- !app_assoc; split; [reflexivity|]; reflexivity.
Qed.

End command_facts.

Section command_runs.
Import Commands CommandDoubles.

(** X18, on a concrete run: the chain of C1 and C3. *)
Lemma parseCommand_reads_chains_witness :
  parseCommand "Run C1 C3" =
    {| type := "RUN_CHAIN"; p_operation := None; commands := Some ["C1"; "C3"] |}.
Proof.
  apply (parseCommand_reads_chains ["1"; "3"]%char).
  repeat constructor.
Defined.

(** X19, on a concrete run: text after the operation is dropped. *)
Lemma parseCommand_reads_operations_witness :
  parseCommand "C2.LIST_NODES now" =
    {| type := "C2"; p_operation := Some "LIST_NODES"; commands := None |}.
Proof.
  apply (parseCommand_reads_operations "2" "LIST_NODES" " now").
  - reflexivity.
  - discriminate.
  - reflexivity.
  - reflexivity.
Defined.

(** X23, on a concrete run: a controller name with a dot and no
    operation. *)
Lemma execute_rejects_unknown_commands_witness :
  execute 1 (JStr "C1.") JUndefined started =
    (Raised (Error "Unknown command: C1."), started).
Proof.
  apply (execute_rejects_unknown_commands 0 "C1." JUndefined started).
  reflexivity.
Defined.

(** X24, on a concrete run: a chain of C1, of C2 and of C9, which names no
    controller, given parameters that C2 could use. *)
Lemma chains_never_throw_witness :
  let args := JObj [("parent_node_token", JStr "root")] in
  let results := fst (chain_entries (execute 1) ["C1"; "C2"; "C9"] started) in
  let st' := snd (chain_entries (execute 1) ["C1"; "C2"; "C9"] started) in
  (execute 2 (JStr "Run C1 C2 C9") args started = (Done (JArr results), st') /\
   map (member "command") results = map JStr ["C1"; "C2"; "C9"] /\
   Forall2 (fun cmd entry =>
              (member "success" entry = JBool true \/
               member "success" entry = JBool false) /\
              (cmd <> "C1" ->
               entry = JObj [("command", JStr cmd); ("success", JBool false);
                             ("error", JStr (message (bare_failure cmd)))]))
     ["C1"; "C2"; "C9"] results /\
   initialized st' = true) /\
  map (fun entry => (member "command" entry, member "success" entry,
                     member "error" entry)) results =
    [(JStr "C1", JBool true, JUndefined);
     (JStr "C2", JBool false, JStr "cannot read parent_node_token");
     (JStr "C9", JBool false, JStr "Unknown command: C9")].
Proof.
  split; [|reflexivity].
  apply (chains_never_throw 0 "Run C1 C2 C9" ["C1"; "C2"; "C9"]
           (JObj [("parent_node_token", JStr "root")]) started).
  - split; intros; discriminate.
  - reflexivity.
  - reflexivity.
Defined.

(** X25, on a concrete run: the recording server answers C1. *)
Lemma run_all_fails_after_C1_witness :
  exists first entries st',
    execute 2 (JStr "RUN ALL") JUndefined started =
      (Done (JArr [first;
                   failed_step "C2" (ReadOf JUndefined "parent_node_token");
                   failed_step "C3" (ReadOf JUndefined "space_id");
                   failed_step "C4" (ReadOf JUndefined "query");
                   failed_step "C5" (ReadOf JUndefined "operations")]), st') /\
    member "command" first = JStr "C1" /\
    commandHistory st' = (commandHistory started ++ entries)%list /\
    map (fun c => (command c, operation c, params c)) entries =
      [("C1", "INITIALIZE", JUndefined); ("C2", "LIST_NODES", JUndefined);
       ("C3", "LIST_MEMBERS", JUndefined); ("C4", "SEARCH_WIKI", JUndefined);
       ("C5", "BATCH_OPERATIONS", JUndefined)].
Proof.
  apply (run_all_fails_after_C1 0 JUndefined started).
  - split; intros; discriminate.
  - reflexivity.
Defined.

End command_runs.

(** ** Crawling a topic again *)

Section crawl_replay_facts.
Import WikiIndex Spec.
Local Open Scope js_scope.
Context {Pattern : Type} `{RegExpOps Pattern} {R : Type} `{AgentOps R}.
Local Abbreviation World := (World Pattern R).

(** X26. A crawl is paid once: when the service answers every search,
    [collectTopicPages] run again right after itself answers from the
    cache: it leaves the state behind the agent, the manager and the clock
    as the first crawl left them. *)
Theorem collectTopicPages_replays
    (source : string -> string -> option (list Page)) (r0 : R)
    (topic : Topic Pattern) (w : World) :
  (forall r, reach r0 r ->
     forall space keyword,
       fst (SEARCH_WIKI space keyword r) = Returned (source space keyword)) ->
  reach r0 (agent w) ->
  exists pages pages' w1 w2,
    collectTopicPages topic w = (Returned pages, w1) /\
    collectTopicPages topic w1 = (Returned pages', w2) /\
    agent w2 = agent w1 /\ mgr w2 = mgr w1 /\ clock w2 = clock w1.
Proof.
  intros Hans Hr.
  destruct (stable_gatherTopicPages source r0 Hans topic
              (snd (log (LogCollecting (name topic)) w)) Hr)
    as (allPages & wa & Hrun & _ & _ & Hrep).
  set (n := Z.of_nat (length (removeDuplicates allPages))).
  set (w1 := snd (log (LogTotalUnique n) wa)).
  destruct (Hrep (snd (log (LogCollecting (name topic)) w1)))
    as (wb & Hrun' & Hm & Ha & Hc & _); [reflexivity | reflexivity |].
  exists (removeDuplicates allPages), (removeDuplicates allPages), w1,
    (snd (log (LogTotalUnique n) wb)).
  split; [|split].
  - unfold collectTopicPages, bind at 1. cbn [log fst snd] in *.
    unfold bind at 1. rewrite Hrun. reflexivity.
  - unfold collectTopicPages, bind at 1. cbn [log fst snd] in *.
    unfold bind at 1. rewrite Hrun'. reflexivity.
  - cbn. rewrite Hm, Ha, Hc. now repeat split.
Qed.

End crawl_replay_facts.

Section crawl_replay_runs.
Import WikiIndex Spec Doubles.
Local Open Scope js_scope.

(** X26, on a concrete run: the topic "t1" over the wiki "main". *)
Lemma collectTopicPages_replays_witness :
  exists pages pages' w1 w2,
    collectTopicPages (topic_of "t1" ["foo"]) (run (setup one_topic) (wiki_foo [])) =
      (Returned pages, w1) /\
    collectTopicPages (topic_of "t1" ["foo"]) w1 = (Returned pages', w2) /\
    agent w2 = agent w1 /\ mgr w2 = mgr w1 /\ clock w2 = clock w1.
Proof.
  apply (collectTopicPages_replays
           (fun space keyword => Some (remote_search space keyword (wiki_foo [])))
           (wiki_foo [])).
  - exact (remote_searches_answered (wiki_foo [])).
  - apply rtc_refl.
Defined.

End crawl_replay_runs.

(** ** Batches *)

Section batch_facts.
Import Commands.
Local Open Scope cmd_scope.
Context {R : Type} `{Runtime R}.
Local Abbreviation M := (@M R).
Local Abbreviation Agent := (Agent R).

Lemma get_total (op : Json) (name1 name2 : string) c :
  get op name1 = Done c -> exists p, get op name2 = Done p.
Proof. destruct op; cbn; intros [=]; eauto. Qed.

(** One turn of the loop of [executeBatchOperations]. *)
Lemma batch_step_run (exec : Json -> Json -> M Json) results op (st : Agent) :
  batch_step exec results op st =
  match run_operation exec op st with
  | (Unfinished, st') => (Unfinished, st')
  | (r, st') => (Done (results ++ [batch_entry op r])%list, st')
  end.
Proof.
  unfold batch_step, run_operation, try_catch, bind, prop, of_result.
  destruct (get op "command") as [c|e|]; [|reflexivity|reflexivity].
  destruct (get op "params") as [p|e|]; [|reflexivity|reflexivity].
  now destruct (exec c p st) as [[result|e|] st'].
Qed.

(** An operation comes to an end when its command does. *)
Lemma run_operation_settles (exec : Json -> Json -> M Json) op (st : Agent) :
  (forall c p, get op "command" = Done c -> get op "params" = Done p ->
     fst (exec c p st) <> Unfinished) ->
  fst (run_operation exec op st) <> Unfinished.
Proof.
  intros Hend. unfold run_operation, bind, prop, of_result.
  destruct (get op "command") as [c|e|] eqn:Hc; [| discriminate | destruct op; discriminate].
  destruct (get_total op "command" "params" c Hc) as [p Hp].
  specialize (Hend c p eq_refl Hp). rewrite Hp.
  now destruct (exec c p st) as [[result|e|] st'].
Qed.

Lemma batch_loop (exec : Json -> Json -> M Json) (ops : list Json) :
  (forall op st, In op ops -> fst (run_operation exec op st) <> Unfinished) ->
  forall results (st : Agent),
    for_of ops results (batch_step exec) st =
      (Done (results ++ fst (batch_entries exec ops st))%list,
       snd (batch_entries exec ops st)).
Proof.
  induction ops as [|op ops IH]; intros Hend results st.
  - cbn. now rewrite app_nil_r.
  - cbn [for_of batch_entries]. unfold bind at 1. rewrite batch_step_run.
    pose proof (Hend op st (or_introl eq_refl)) as Hop.
    destruct (run_operation exec op st) as [[result|e|] st1]; cbn in Hop;
      [| |contradiction].
    + rewrite (IH (fun o s Ho => Hend o s (or_intror Ho))).
      destruct (batch_entries exec ops st1) as [more st']. cbn [fst snd].
      now rewrite <- app_assoc.
    + rewrite (IH (fun o s Ho => Hend o s (or_intror Ho))).
      destruct (batch_entries exec ops st1) as [more st']. cbn [fst snd].
      now rewrite <- app_assoc.
Qed.

Lemma batch_entries_each (exec : Json -> Json -> M Json)
    (P : Json -> Json -> Prop) (ops : list Json) :
  (forall op st, In op ops ->
     P op (batch_entry op (fst (run_operation exec op st)))) ->
  forall st : Agent, Forall2 P ops (fst (batch_entries exec ops st)).
Proof.
  induction ops as [|op ops IH]; intros Hall st; [constructor|].
  cbn [batch_entries]. pose proof (Hall op st (or_introl eq_refl)) as Hop.
  destruct (run_operation exec op st) as [r st1]. cbn [fst] in Hop.
  specialize (IH (fun o s Ho => Hall o s (or_intror Ho)) st1).
  destruct (batch_entries exec ops st1) as [more st']. now constructor.
Qed.

(** X27. A batch isolates its failures: when the parameters hold an array
    of operations and each command run comes to an end,
    [executeBatchOperations] does not throw and gives one entry for each
    operation, in order: the entry of running the command of the operation
    with the parameters of the operation, by itself, from the agent the
    operation before left. An operation that returns is marked a success
    and holds the result; one that throws is marked a failure and holds the
    message of its error; an operation that is [null] or [undefined] fails
    for reading its command. *)
Theorem batch_isolates_failures
    (exec : Json -> Json -> M Json) (args : Json) (ops : list Json) (st : Agent) :
  get args "operations" = Done (JArr ops) ->
  (forall op c p st, In op ops ->
     get op "command" = Done c -> get op "params" = Done p ->
     fst (exec c p st) <> Unfinished) ->
  let results := fst (batch_entries exec ops st) in
  let st' := snd (batch_entries exec ops st) in
  executeBatchOperations exec args st = (Done (JArr results), st') /\
  map (member "operation") results = ops /\
  length results = length ops /\
  Forall2 (fun op entry =>
             ((exists result,
                 entry = JObj [("success", JBool true); ("operation", op);
                               ("result", result)]) \/
              (exists e,
                 entry = JObj [("success", JBool false); ("operation", op);
                               ("error", JStr (message e))])) /\
             (op = JNull \/ op = JUndefined ->
              entry = JObj [("success", JBool false); ("operation", op);
                            ("error", JStr (message_of (ReadOf op "command")))]))
    ops results.
Proof.
  intros Hargs Hend. cbv zeta.
  assert (Hsettle : forall op st0, In op ops ->
            fst (run_operation exec op st0) <> Unfinished).
  { intros op st0 Hin. apply run_operation_settles. intros c p. now apply Hend. }
  assert (Hops : Forall2 (fun op entry => member "operation" entry = op) ops
                   (fst (batch_entries exec ops st))).
  { apply batch_entries_each. intros op st0 Hin.
    specialize (Hsettle op st0 Hin).
    now destruct (fst (run_operation exec op st0)). }
  split; [|split; [|split]].
  - unfold executeBatchOperations, bind at 1, prop, of_result.
    rewrite Hargs. unfold bind at 1. cbn [iterate]. unfold bind at 1.
    now rewrite (batch_loop exec ops Hsettle [] st).
  - clear -Hops. induction Hops as [|op entry ops results Hop _ IH]; cbn; congruence.
  - symmetry. eapply Forall2_length. exact Hops.
  - apply batch_entries_each. intros op st0 Hin.
    specialize (Hsettle op st0 Hin). split.
    + destruct (fst (run_operation exec op st0)); [left|right|contradiction]; eauto.
    + intros [-> | ->]; reflexivity.
Qed.

End batch_facts.

Section batch_runs.
Import Commands CommandDoubles.

(** X27, on a concrete run: a batch of an unknown command, of [null] and
    of a search, through [execute]. *)
Lemma batch_isolates_failures_witness :
  let results := fst (batch_entries (execute 1) three_operations started) in
  let st' := snd (batch_entries (execute 1) three_operations started) in
  (executeBatchOperations (execute 1)
     (JObj [("operations", JArr three_operations)]) started =
     (Done (JArr results), st') /\
   map (member "operation") results = three_operations /\
   length results = length three_operations /\
   Forall2 (fun op entry =>
              ((exists result,
                  entry = JObj [("success", JBool true); ("operation", op);
                                ("result", result)]) \/
               (exists e,
                  entry = JObj [("success", JBool false); ("operation", op);
                                ("error", JStr (message e))])) /\
              (op = JNull \/ op = JUndefined ->
               entry = JObj [("success", JBool false); ("operation", op);
                             ("error", JStr (message_of (ReadOf op "command")))]))
     three_operations results) /\
  map (fun entry => (member "success" entry, member "error" entry,
                     member "result" entry)) results =
    [(JBool false, JStr "Unknown command: C6", JUndefined);
     (JBool false, JStr "cannot read command", JUndefined);
     (JBool true, JUndefined, JObj [("items", JArr [])])].
Proof.
  split; [|reflexivity].
  apply (batch_isolates_failures (execute 1)
           (JObj [("operations", JArr three_operations)]) three_operations started).
  - reflexivity.
  - intros op c p st [<-|[<-|[<-|[]]]]; cbn; intros [= <-] [= <-];
      unfold bind, initialize, on_server; cbn;
      destruct (initialized st); cbn; discriminate.
Defined.

End batch_runs.

(** ** The filter over patterns that keep [lastIndex] *)

Section regexp_facts.
Import WikiIndex RegExps.
Context {Source : Type} `{Engine Source}.
Local Abbreviation Heap := (Heap (Source := Source)).

Lemma test_flagless (heap : Heap) pattern text :
  flagless heap pattern ->
  RegExps.test pattern text heap = (Some (matches heap pattern text), heap).
Proof.
  destruct pattern as [l|v]; cbn; [|contradiction].
  intros [Hg Hs]. unfold test_object. now rewrite Hg, Hs.
Qed.

Lemma some_flagless (heap : Heap) patterns text :
  Forall (flagless heap) patterns ->
  some patterns text heap =
    (Some (existsb (fun pattern => matches heap pattern text) patterns), heap).
Proof.
  induction 1 as [|pattern patterns Hp _ IH]; [reflexivity|].
  cbn [some existsb]. rewrite (test_flagless heap pattern text Hp).
  destruct (matches heap pattern text); [reflexivity | exact IH].
Qed.

Lemma accepts_flagless (heap : Heap) (topic : Topic PatternValue) result :
  flagless_list heap (excludePatterns topic) ->
  flagless_list heap (includePatterns topic) ->
  RegExps.accepts topic result heap =
    (Some (@WikiIndex.accepts _ (stateless heap) topic result), heap).
Proof.
  intros Hex Hin. unfold RegExps.accepts, WikiIndex.accepts.
  change (@WikiIndex.page_text _ (stateless heap) result)
    with (RegExps.page_text result).
  destruct (excludePatterns topic) as [excludes|]; cbn in Hex.
  - rewrite (some_flagless heap excludes _ Hex). cbn [WikiIndex.test stateless].
    destruct (existsb _ excludes); [reflexivity|].
    destruct (includePatterns topic) as [includes|]; cbn in Hin; [|reflexivity].
    now rewrite (some_flagless heap includes _ Hin).
  - destruct (includePatterns topic) as [includes|]; cbn in Hin; [|reflexivity].
    now rewrite (some_flagless heap includes _ Hin).
Qed.

(** Over patterns without [g] and [y] the filter is the stateless one. *)
Lemma filterResults_flagless (heap : Heap) (topic : Topic PatternValue) results :
  flagless_list heap (excludePatterns topic) ->
  flagless_list heap (includePatterns topic) ->
  RegExps.filterResults results topic heap =
    (Some (@WikiIndex.filterResults _ (stateless heap) results topic), heap).
Proof.
  intros Hex Hin. induction results as [|result results IH]; [reflexivity|].
  cbn [RegExps.filterResults]. rewrite (accepts_flagless heap topic result Hex Hin), IH.
  unfold WikiIndex.filterResults. cbn [List.filter].
  now destruct (@WikiIndex.accepts _ (stateless heap) topic result).
Qed.

(** X1. When every pattern of the topic is a [RegExp] object without the
    [g] and [y] flags, [filterResults] returns, leaves the patterns as they
    were, and keeps an item exactly when no exclude pattern matches its
    lower-cased text and, if the topic has include patterns, one of them
    does; the kept items stay in their order, and an empty include array
    keeps nothing. *)
Theorem filterResults_keeps_iff
    (topic : Topic PatternValue) (results : list Page) (heap : Heap) :
  flagless_list heap (excludePatterns topic) ->
  flagless_list heap (includePatterns topic) ->
  exists kept,
    RegExps.filterResults results topic heap = (Some kept, heap) /\
    (forall item,
       In item kept <->
       In item results /\
       (forall excludes pattern, excludePatterns topic = Some excludes ->
          In pattern excludes ->
          matches heap pattern (RegExps.page_text item) = false) /\
       (forall includes, includePatterns topic = Some includes ->
          exists pattern, In pattern includes /\
            matches heap pattern (RegExps.page_text item) = true)) /\
    sublist kept results /\
    (includePatterns topic = Some [] -> kept = []).
Proof.
  intros Hex Hin. eexists. split; [now apply filterResults_flagless|].
  exact (@stateless_filter_keeps_iff _ (stateless heap) topic results).
Qed.

(** X28. A pattern that is no [RegExp] object, such as the strings of a
    JSON file, makes [filterResults] throw at the first item it is tested
    on, and nothing is returned for any item. *)
Theorem filterResults_throws_without_test
    (topic : Topic PatternValue) (result : Page) (results : list Page)
    (heap : Heap) (v : string) (patterns : list PatternValue) :
  excludePatterns topic = Some (NoRegExp v :: patterns) ->
  RegExps.filterResults (result :: results) topic heap = (None, heap).
Proof.
  intros Hex. cbn [RegExps.filterResults]. unfold RegExps.accepts. now rewrite Hex.
Qed.

End regexp_facts.

Section regexp_runs.
Import WikiIndex Doubles RegExps RegExpDoubles.

(** C6, on the code: the topic excludes [/bar/g], and the search returns
    the documents "bar one" and "bar two". The pattern matches the text of
    both. The first is rejected, and leaves [lastIndex] at 3; the test of
    the second starts there, finds nothing and puts [lastIndex] back to 0,
    so the second document is kept, with and without an include pattern
    that matches it too. With [/bar/] both are rejected. *)
Theorem exclude_pattern_with_g_flag_is_skipped :
  let results := [doc "X" "bar one"; doc "Y" "bar two"] in
  matches bar_global (RegExpAt 0) (RegExps.page_text (doc "X" "bar one")) = true /\
  matches bar_global (RegExpAt 0) (RegExps.page_text (doc "Y" "bar two")) = true /\
  matches bar_global (RegExpAt 1) (RegExps.page_text (doc "Y" "bar two")) = true /\
  fst (RegExps.filterResults results excluding bar_global) =
    Some [doc "Y" "bar two"] /\
  fst (RegExps.filterResults results including_too bar_global) =
    Some [doc "Y" "bar two"] /\
  lastIndex (snd (RegExps.filterResults [doc "X" "bar one"] excluding bar_global) 0%nat)
    = 3%nat /\
  fst (RegExps.filterResults results excluding bar_plain) = Some [].
Proof. vm_compute. repeat split; reflexivity. Qed.

(** X1, on a concrete run: [/bar/] as the exclude and the include pattern. *)
Lemma filterResults_keeps_iff_witness :
  exists kept,
    RegExps.filterResults [doc "X" "bar one"; doc "Y" "two"] including_too bar_plain =
      (Some kept, bar_plain) /\
    (forall item,
       In item kept <->
       In item [doc "X" "bar one"; doc "Y" "two"] /\
       (forall excludes pattern, excludePatterns including_too = Some excludes ->
          In pattern excludes ->
          matches bar_plain pattern (RegExps.page_text item) = false) /\
       (forall includes, includePatterns including_too = Some includes ->
          exists pattern, In pattern includes /\
            matches bar_plain pattern (RegExps.page_text item) = true)) /\
    sublist kept [doc "X" "bar one"; doc "Y" "two"] /\
    (includePatterns including_too = Some [] -> kept = []).
Proof.
  apply (filterResults_keeps_iff including_too [doc "X" "bar one"; doc "Y" "two"] bar_plain).
  - repeat constructor.
  - repeat constructor.
Defined.

(** X28, on a concrete run: the exclude pattern is the string "bar". *)
Lemma filterResults_throws_without_test_witness :
  RegExps.filterResults (doc "X" "bar one" :: [doc "Y" "two"]) from_json bar_plain =
    (None, bar_plain).
Proof.
  apply (filterResults_throws_without_test from_json (doc "X" "bar one")
           [doc "Y" "two"] bar_plain "bar" []).
  reflexivity.
Defined.

End regexp_runs.

(** ** Two passes over the agent of the repository *)

Section wiring_runs.
Import WikiIndex Spec Doubles Wiring StoreDoubles.
Local Open Scope js_scope.

(** C2, on the code. The manager runs over the agent of
    lark-wiki-mcp-agent.ts and a server that stores every node with the
    properties of its request and lists them as stored; the keyword "foo"
    finds the document A, before and after. The first pass completes, with
    no failed creation, and creates one link; [createNode] left
    [origin_node_token] and [origin_space_id] out of the request, so the
    child that is listed has no origin, although the same server lists the
    origin of a node that is sent with one. The second pass does not find A
    in the existing-link set, starts the creation again, and
    [totalShortcuts] goes from 1 to 2. *)
Theorem second_pass_links_again :
  let w1 := snd (updateIndexPage "idx" lark_registered) in
  let w2 := snd (updateIndexPage "idx" w1) in
  let sent_with_origin :=
    Commands.JObj (("space_id", Commands.JStr "main") ::
      properties (Commands.shortcut_params (Commands.JStr "idx") (Commands.JStr "A")
                    (Commands.JStr "main"))) in
  fst (updateIndexPage "idx" lark_registered) = Returned tt /\
  creation_failures (console w1) = 0 /\
  item_failures (console w1) = 0 /\
  attempts (console w1) = [LogCreating (Some "A") "idx"] /\
  nodes (Commands.server (agent w1)) =
    [Commands.JObj [("node_token", Commands.JStr "n");
                    ("space_id", Commands.JStr "main");
                    ("parent_node_token", Commands.JStr "idx");
                    ("node_type", Commands.JStr "shortcut");
                    ("obj_type", Commands.JStr "docx");
                    ("title", Commands.JUndefined)]] /\
  fst (LIST_NODES "idx" 500 (agent w1)) =
    Returned (Some [{| node_type := Some "shortcut"; origin_node_token := None |}]) /\
  fst (LIST_NODES "idx" 500
         (Commands.on_server
            (serve "wiki.v2.spaceNode.create" sent_with_origin) lark_started).2) =
    Returned (Some [{| node_type := Some "shortcut"; origin_node_token := Some "A" |}]) /\
  fst (SEARCH_WIKI "main" "foo" (agent w1)) =
    fst (SEARCH_WIKI "main" "foo" (agent lark_registered)) /\
  fst (updateIndexPage "idx" w1) = Returned tt /\
  attempts (console w2) =
    [LogCreating (Some "A") "idx"; LogCreating (Some "A") "idx"] /\
  length (MoreSpec.records (mgr w1)) = 1%nat /\
  length (MoreSpec.records (mgr w2)) = 2%nat /\
  totalShortcuts (getStatistics (mgr w1)) = 1 /\
  totalShortcuts (getStatistics (mgr w2)) = 2.
Proof. vm_compute. repeat split; reflexivity. Qed.

End wiring_runs.
